(** * VideoRecorder: the emergency video-recording component

    A shallow embedding of the React component [VideoRecorder] and a
    verification of its capture life cycle, countdown timer and screen
    selection.

    The component is event driven.  Its state is made of
    - the seven [useState] cells,
    - the [useRef] cells [mediaRecorderRef], [chunksRef] and [streamRef]
      ([videoRef] only feeds the preview element and is never read back),
    - the browser objects the component creates and keeps handles to:
      media streams, media recorders, and the [getUserMedia] promises that
      have not settled yet,
    - a trace of the calls the component makes to its collaborators.

    Every function of the source is a state transformer of the same name.
    [startCamera] is asynchronous: the part before the [await] is
    [startCamera], the continuation after a fulfilled promise is
    [startCamera_fulfilled] ([startCamera_noRecorder] and
    [startCamera_startThrows] when [startRecordingProcess] throws), the
    [catch] block is [startCamera_rejected].
    A continuation reads the [reviewMode], [recording] and [timeLeft] of
    the render that created it, so a pending promise carries these values.

    An event is a click on a button of the rendered screen or a callback
    from the browser: a promise settles (and, when it is fulfilled, the
    recorder is created and started, or one of the two throws), the interval
    fires, a recorder delivers data or its stop event.  [step] runs the
    handler of the event and then the effects whose dependencies the handler
    changed.  The browser
    is free to deliver its callbacks in any order the objects allow: a
    pending promise may settle at any time, the interval fires only while it
    is installed, a recorder delivers data until its stop event, and the stop
    event follows [MediaRecorder.stop()] or the end of the recorded tracks.

    The model covers one mounted component with fixed inputs. *)

From Stdlib Require Import ZArith List Bool Lia.
From stdpp Require Import base option list strings pretty.

Local Open Scope Z_scope.

(** ** Browser objects *)

Inductive FacingMode := user | environment.

(** A [MediaStream] returned by [getUserMedia]: the facing mode it was
    requested with, whether its tracks are live (not yet stopped), and the
    [enabled] flag of its audio track. *)
Record MediaStream := mkStream {
  constraint : FacingMode;
  live : bool;
  audioEnabled : bool
}.

(** [MediaRecorder.state].  After [stop()] the state reads ['inactive'] at
    once, while the last [dataavailable] and the [stop] event are still to
    be dispatched: that is [Stopping]. *)
Inductive RecorderState := Recording | Stopping | Inactive.

Record MediaRecorder := mkRecorder {
  source : nat;
  state : RecorderState
}.

(** The [Blob] carried by a [dataavailable] event. *)
Record Fragment := mkFragment {
  tag : nat;
  size : Z
}.

(** [new Blob(parts, { type })]. *)
Record Blob := mkBlob {
  parts : list Fragment;
  type : string
}.

(** [URL.createObjectURL(blob)]: a non-empty string that denotes the blob. *)
Record ObjectURL := createObjectURL {
  target : Blob
}.

(** The state values a running [startCamera] call has captured. *)
Record Closure := mkClosure {
  c_facingMode : FacingMode;
  c_reviewMode : bool;
  c_recording : bool;
  c_timeLeft : Z
}.

Inductive ISOString := toISOString (date : Z).

Inductive Screen := ReviewScreen | ErrorScreen | RecordingScreen.

Global Instance FacingMode_eq_dec : EqDecision FacingMode.
Proof. solve_decision. Defined.

Global Instance RecorderState_eq_dec : EqDecision RecorderState.
Proof. solve_decision. Defined.

Global Instance Screen_eq_dec : EqDecision Screen.
Proof. solve_decision. Defined.

Section Component.

Context {LocationData : Type}.

(** ** Component inputs and output artifact *)

Record VideoEvidence := mkEvidence {
  id : string;
  url : ObjectURL;
  timestamp : ISOString;
  duration : Z;
  ev_emergencyType : string;
  ev_location : LocationData
}.

(** [onSave] is a callback of the caller: calling it is recorded in the
    trace.  [onDiscard] is optional: [onDiscard p] tells whether it was
    supplied. *)
Record Props := mkProps {
  emergencyId : string;
  emergencyType : string;
  location : LocationData;
  onDiscard : bool
}.

Inductive Call :=
| GetUserMedia (facing : FacingMode)
| StopRecordingCalled
| RecorderStop (r : nat)
| OnSave (video : VideoEvidence)
| OnDiscard.

(** ** Component state *)

Record State := mkState {
  recording : bool;
  timeLeft : Z;
  isMuted : bool;
  facingMode : FacingMode;
  cameraError : bool;
  reviewMode : bool;
  videoUrl : option ObjectURL;
  mediaRecorderRef : option nat;
  chunksRef : list Fragment;
  streamRef : option nat;
  streams : list MediaStream;
  recorders : list MediaRecorder;
  pending : list Closure;
  trace : list Call
}.

Definition setRecording (b : bool) (s : State) : State :=
  mkState b (timeLeft s) (isMuted s) (facingMode s) (cameraError s)
    (reviewMode s) (videoUrl s) (mediaRecorderRef s) (chunksRef s)
    (streamRef s) (streams s) (recorders s) (pending s) (trace s).

Definition setTimeLeft (t : Z) (s : State) : State :=
  mkState (recording s) t (isMuted s) (facingMode s) (cameraError s)
    (reviewMode s) (videoUrl s) (mediaRecorderRef s) (chunksRef s)
    (streamRef s) (streams s) (recorders s) (pending s) (trace s).

Definition setIsMuted (b : bool) (s : State) : State :=
  mkState (recording s) (timeLeft s) b (facingMode s) (cameraError s)
    (reviewMode s) (videoUrl s) (mediaRecorderRef s) (chunksRef s)
    (streamRef s) (streams s) (recorders s) (pending s) (trace s).

Definition setFacingMode (f : FacingMode) (s : State) : State :=
  mkState (recording s) (timeLeft s) (isMuted s) f (cameraError s)
    (reviewMode s) (videoUrl s) (mediaRecorderRef s) (chunksRef s)
    (streamRef s) (streams s) (recorders s) (pending s) (trace s).

Definition setCameraError (b : bool) (s : State) : State :=
  mkState (recording s) (timeLeft s) (isMuted s) (facingMode s) b
    (reviewMode s) (videoUrl s) (mediaRecorderRef s) (chunksRef s)
    (streamRef s) (streams s) (recorders s) (pending s) (trace s).

Definition setReviewMode (b : bool) (s : State) : State :=
  mkState (recording s) (timeLeft s) (isMuted s) (facingMode s)
    (cameraError s) b (videoUrl s) (mediaRecorderRef s) (chunksRef s)
    (streamRef s) (streams s) (recorders s) (pending s) (trace s).

Definition setVideoUrl (u : option ObjectURL) (s : State) : State :=
  mkState (recording s) (timeLeft s) (isMuted s) (facingMode s)
    (cameraError s) (reviewMode s) u (mediaRecorderRef s) (chunksRef s)
    (streamRef s) (streams s) (recorders s) (pending s) (trace s).

Definition set_mediaRecorderRef (r : option nat) (s : State) : State :=
  mkState (recording s) (timeLeft s) (isMuted s) (facingMode s)
    (cameraError s) (reviewMode s) (videoUrl s) r (chunksRef s)
    (streamRef s) (streams s) (recorders s) (pending s) (trace s).

Definition set_chunksRef (c : list Fragment) (s : State) : State :=
  mkState (recording s) (timeLeft s) (isMuted s) (facingMode s)
    (cameraError s) (reviewMode s) (videoUrl s) (mediaRecorderRef s) c
    (streamRef s) (streams s) (recorders s) (pending s) (trace s).

Definition set_streamRef (r : option nat) (s : State) : State :=
  mkState (recording s) (timeLeft s) (isMuted s) (facingMode s)
    (cameraError s) (reviewMode s) (videoUrl s) (mediaRecorderRef s)
    (chunksRef s) r (streams s) (recorders s) (pending s) (trace s).

Definition set_streams (l : list MediaStream) (s : State) : State :=
  mkState (recording s) (timeLeft s) (isMuted s) (facingMode s)
    (cameraError s) (reviewMode s) (videoUrl s) (mediaRecorderRef s)
    (chunksRef s) (streamRef s) l (recorders s) (pending s) (trace s).

Definition set_recorders (l : list MediaRecorder) (s : State) : State :=
  mkState (recording s) (timeLeft s) (isMuted s) (facingMode s)
    (cameraError s) (reviewMode s) (videoUrl s) (mediaRecorderRef s)
    (chunksRef s) (streamRef s) (streams s) l (pending s) (trace s).

Definition set_pending (l : list Closure) (s : State) : State :=
  mkState (recording s) (timeLeft s) (isMuted s) (facingMode s)
    (cameraError s) (reviewMode s) (videoUrl s) (mediaRecorderRef s)
    (chunksRef s) (streamRef s) (streams s) (recorders s) l (trace s).

Definition called (c : Call) (s : State) : State :=
  mkState (recording s) (timeLeft s) (isMuted s) (facingMode s)
    (cameraError s) (reviewMode s) (videoUrl s) (mediaRecorderRef s)
    (chunksRef s) (streamRef s) (streams s) (recorders s) (pending s)
    (trace s ++ [c]).

(** ** The functions of the component *)

(** [track.stop()] on every track of a stream. *)
Definition stopTracks (m : MediaStream) : MediaStream :=
  mkStream (constraint m) false (audioEnabled m).

(** [track.enabled = !track.enabled] on every audio track. *)
Definition flipAudio (m : MediaStream) : MediaStream :=
  mkStream (constraint m) (live m) (negb (audioEnabled m)).

Definition stopCamera (s : State) : State :=
  match streamRef s with
  | Some i => set_streamRef None (set_streams (alter stopTracks i (streams s)) s)
  | None => s
  end.

(** [new MediaRecorder(stream, options)], or the fallback constructor: either
    way a recorder on [stream]; then the handlers are installed,
    [mediaRecorder.start()] and [setRecording(true)].  This is the run in
    which nothing throws; the runs in which the fallback constructor or
    [start()] throws are [startCamera_noRecorder] and
    [startCamera_startThrows] below. *)
Definition startRecordingProcess (stream : nat) (s : State) : State :=
  let r := length (recorders s) in
  let s := set_recorders (recorders s ++ [mkRecorder stream Recording]) s in
  let s := set_mediaRecorderRef (Some r) s in
  let s := set_chunksRef [] s in
  setRecording true s.

(** [mediaRecorder.ondataavailable]. *)
Definition ondataavailable (data : Fragment) (s : State) : State :=
  if 0 <? size data then set_chunksRef (chunksRef s ++ [data]) s else s.

(** [mediaRecorder.onstop]. *)
Definition onstop (s : State) : State :=
  let blob := mkBlob (chunksRef s) "video/webm" in
  let url := createObjectURL blob in
  let s := setVideoUrl (Some url) s in
  let s := setReviewMode true s in
  let s := setRecording false s in
  stopCamera s.

Definition setRecorderState (r : nat) (st : RecorderState) (s : State) : State :=
  set_recorders (alter (fun m => mkRecorder (source m) st) r (recorders s)) s.

Definition stopRecording (s : State) : State :=
  let s := called StopRecordingCalled s in
  match mediaRecorderRef s with
  | Some r =>
      match recorders s !! r with
      | Some m =>
          match state m with
          | Recording => called (RecorderStop r) (setRecorderState r Stopping s)
          | _ => s
          end
      | None => s
      end
  | None => s
  end.

Definition toggleMute (s : State) : State :=
  match streamRef s with
  | Some i =>
      let s := set_streams (alter flipAudio i (streams s)) s in
      setIsMuted (negb (isMuted s)) s
  | None => s
  end.

Definition toggleCamera (s : State) : State :=
  setFacingMode
    (match facingMode s with user => environment | environment => user end) s.

Definition closureOf (s : State) : Closure :=
  mkClosure (facingMode s) (reviewMode s) (recording s) (timeLeft s).

(** [startCamera] up to the [await]. *)
Definition startCamera (s : State) : State :=
  let c := closureOf s in
  let s := stopCamera s in
  let s := setCameraError false s in
  let s := called (GetUserMedia (c_facingMode c)) s in
  set_pending (pending s ++ [c]) s.

(** [startCamera] after the promise is fulfilled with a fresh stream. *)
Definition startCamera_fulfilled (c : Closure) (s : State) : State :=
  let stream := length (streams s) in
  let s := set_streams (streams s ++ [mkStream (c_facingMode c) true true]) s in
  let s := set_streamRef (Some stream) s in
  if negb (c_reviewMode c) && negb (c_recording c) && (c_timeLeft c =? 60)
  then startRecordingProcess stream s
  else s.

(** The [catch] block of [startCamera]. *)
Definition startCamera_rejected (s : State) : State :=
  setCameraError true s.

(** The test that guards the call of [startRecordingProcess]. *)
Definition autoStarts (c : Closure) : bool :=
  negb (c_reviewMode c) && negb (c_recording c) && (c_timeLeft c =? 60).

(** [startCamera] after the promise is fulfilled, when
    [startRecordingProcess] is entered and the fallback constructor
    [new MediaRecorder(stream)] throws as well: the stream has been stored,
    nothing else has been assigned, and the exception reaches the [catch]
    block of [startCamera]. *)
Definition startCamera_noRecorder (c : Closure) (s : State) : State :=
  let stream := length (streams s) in
  let s := set_streams (streams s ++ [mkStream (c_facingMode c) true true]) s in
  let s := set_streamRef (Some stream) s in
  startCamera_rejected s.

(** The same when [mediaRecorder.start()] throws: the recorder, still
    inactive, has been stored in [mediaRecorderRef], the clip buffer has been
    emptied and the handlers installed, but [setRecording(true)] is not
    reached; the exception reaches the [catch] block of [startCamera]. *)
Definition startCamera_startThrows (c : Closure) (s : State) : State :=
  let stream := length (streams s) in
  let s := set_streams (streams s ++ [mkStream (c_facingMode c) true true]) s in
  let s := set_streamRef (Some stream) s in
  let r := length (recorders s) in
  let s := set_recorders (recorders s ++ [mkRecorder stream Inactive]) s in
  let s := set_mediaRecorderRef (Some r) s in
  let s := set_chunksRef [] s in
  startCamera_rejected s.

Definition handleSave (p : Props) (now date : Z) (s : State) : State :=
  match videoUrl s with
  | Some u =>
      called (OnSave (mkEvidence ("VID-" +:+ pretty now) u (toISOString date)
                        (60 - timeLeft s) (emergencyType p) (location p))) s
  | None => s
  end.

(** The [return] of the component: which screen is rendered. *)
Definition render (s : State) : Screen :=
  if reviewMode s && bool_decide (is_Some (videoUrl s)) then ReviewScreen
  else if cameraError s then ErrorScreen
  else RecordingScreen.

(** ** Effects *)

(** The body of the timer effect.  In the first branch an interval is
    installed: its callback is the event [IntervalFires] below, enabled
    exactly while this branch was the one taken by the last run. *)
Definition timerEffect (s : State) : State :=
  if recording s && (0 <? timeLeft s) then s
  else if (timeLeft s =? 0) && recording s then stopRecording s
  else s.

Definition intervalActive (s : State) : bool :=
  recording s && (0 <? timeLeft s).

(** After a handler has run, React renders again and runs the effects whose
    dependencies changed: the camera effect on [facingMode] (clean-up
    [stopCamera], then [startCamera]), the timer effect on
    [recording, timeLeft]. *)
Definition commit (old new : State) : State :=
  let new :=
    if decide (facingMode old = facingMode new) then new
    else startCamera (stopCamera new) in
  if bool_decide (recording old = recording new)
     && bool_decide (timeLeft old = timeLeft new)
  then new
  else timerEffect new.

(** ** Events *)

Inductive Event :=
| Fulfilled (k : nat)
| Rejected (k : nat)
| IntervalFires
| DataAvailable (r : nat) (data : Fragment)
| TracksEnded (r : nat)
| StopEvent (r : nat)
| ClickStop
| ClickMute
| ClickFlip
| ClickRetry
| ClickDiscard
| ClickSave (now date : Z)
| RecorderUnavailable (k : nat)
| RecorderStartFails (k : nat).

Definition onScreen (v : Screen) (s : State) (s' : State) : option State :=
  if decide (render s = v) then Some s' else None.

(** The handler an event runs; [None] when the event cannot happen in [s]. *)
Definition handle (p : Props) (e : Event) (s : State) : option State :=
  match e with
  | Fulfilled k =>
      c ← pending s !! k;
      Some (startCamera_fulfilled c (set_pending (delete k (pending s)) s))
  | Rejected k =>
      _ ← pending s !! k;
      Some (startCamera_rejected (set_pending (delete k (pending s)) s))
  | IntervalFires =>
      if intervalActive s then Some (setTimeLeft (timeLeft s - 1) s) else None
  | DataAvailable r data =>
      m ← recorders s !! r;
      match state m with
      | Inactive => None
      | _ => Some (ondataavailable data s)
      end
  | TracksEnded r =>
      m ← recorders s !! r;
      t ← streams s !! source m;
      match state m with
      | Recording => if live t then None else Some (setRecorderState r Stopping s)
      | _ => None
      end
  | StopEvent r =>
      m ← recorders s !! r;
      match state m with
      | Stopping => Some (onstop (setRecorderState r Inactive s))
      | _ => None
      end
  | ClickStop => onScreen RecordingScreen s (stopRecording s)
  | ClickMute => onScreen RecordingScreen s (toggleMute s)
  | ClickFlip => onScreen RecordingScreen s (toggleCamera s)
  | ClickRetry => onScreen ErrorScreen s (setCameraError false s)
  | ClickDiscard =>
      onScreen ReviewScreen s (if onDiscard p then called OnDiscard s else s)
  | ClickSave now date => onScreen ReviewScreen s (handleSave p now date s)
  | RecorderUnavailable k =>
      c ← pending s !! k;
      if autoStarts c
      then Some (startCamera_noRecorder c (set_pending (delete k (pending s)) s))
      else None
  | RecorderStartFails k =>
      c ← pending s !! k;
      if autoStarts c
      then Some (startCamera_startThrows c (set_pending (delete k (pending s)) s))
      else None
  end.

Definition step (p : Props) (s : State) (e : Event) : option State :=
  s' ← handle p e s;
  Some (commit s s').

Definition initial : State :=
  mkState false 60 false environment false false None None [] None [] [] [] [].

(** Mounting renders the initial state and runs both effects: the camera
    effect calls [startCamera]; the timer effect does nothing yet. *)
Definition mount : State := timerEffect (startCamera initial).

Fixpoint run (p : Props) (s : State) (es : list Event) : option State :=
  match es with
  | [] => Some s
  | e :: es => s' ← step p s e; run p s' es
  end.

(** ** Observing the trace *)

Definition isStopRecording (c : Call) : bool :=
  match c with StopRecordingCalled => true | _ => false end.

Definition isRecorderStop (c : Call) : bool :=
  match c with RecorderStop _ => true | _ => false end.

Definition isOnSave (c : Call) : bool :=
  match c with OnSave _ => true | _ => false end.

Definition isGetUserMedia (c : Call) : bool :=
  match c with GetUserMedia _ => true | _ => false end.

Definition timesCalled (f : Call -> bool) (t : list Call) : nat :=
  length (List.filter f t).

(** The capture sessions that are active: the streams with live tracks. *)
Definition activeSessions (s : State) : nat :=
  length (List.filter live (streams s)).

Inductive reachable (p : Props) : State -> Prop :=
| reachable_mount : reachable p mount
| reachable_step s e s' :
    reachable p s -> step p s e = Some s' -> reachable p s'.

End Component.

Arguments VideoEvidence : clear implicits.
Arguments Props : clear implicits.
Arguments Call : clear implicits.
Arguments State : clear implicits.

(** * Vocabulary of the verification *)

Definition opposite (f : FacingMode) : FacingMode :=
  match f with user => environment | environment => user end.

Definition nonEmpty (d : Fragment) : Prop := 0 < size d.

(** A [startCamera] call that saw neither review mode nor a recording. *)
Definition idleClosure (c : Closure) : Prop :=
  c_reviewMode c = false /\ c_recording c = false.

Section Vocabulary.

Context {LocationData : Type}.

Implicit Types s : State LocationData.

(** [unchanged s s']: the cells that the timer, the auto-start decision and
    the clip depend on are the same in [s'] as in [s]. *)
Definition unchanged s s' : Prop :=
  recording s' = recording s /\ timeLeft s' = timeLeft s /\
  reviewMode s' = reviewMode s /\ videoUrl s' = videoUrl s /\
  pending s' = pending s /\ chunksRef s' = chunksRef s.

(** The invariant of the reachable states. *)
Record Inv s : Prop := mkInv {
  inv_timer : 0 <= timeLeft s <= 60;
  inv_review : reviewMode s = true <-> is_Some (videoUrl s);
  inv_idle : recording s = false -> reviewMode s = false -> timeLeft s = 60;
  inv_closure_full :
    Forall (fun c => idleClosure c -> c_timeLeft c = 60) (pending s);
  inv_closure_idle :
    recording s = false -> reviewMode s = false ->
    Forall idleClosure (pending s);
  inv_chunks : Forall nonEmpty (chunksRef s);
  inv_clip : forall u, videoUrl s = Some u -> Forall nonEmpty (parts (target u))
}.

(** Only the stream [streamRef] points to can be live. *)
Definition liveOnlyCurrent s : Prop :=
  forall i m, streams s !! i = Some m -> live m = true -> streamRef s = Some i.

(** At most one acquisition is pending, and none while a session is held. *)
Definition oneRequest s : Prop :=
  pending s = [] \/ (exists c, pending s = [c]) /\ streamRef s = None.

Definition inTurn s : Prop := liveOnlyCurrent s /\ oneRequest s.

(** The executions in which the facing mode is only switched while no
    acquisition is pending. *)
Inductive reachableInTurn (p : Props LocationData) : State LocationData -> Prop :=
| reachableInTurn_mount : reachableInTurn p mount
| reachableInTurn_step s e s' :
    reachableInTurn p s -> (e = ClickFlip -> pending s = []) ->
    step p s e = Some s' -> reachableInTurn p s'.

End Vocabulary.

(** ** The live screen *)

Section LiveScreen.

Context {LocationData : Type}.

Implicit Types s : State LocationData.

(** The remaining-time readout: [00:{timeLeft < 10 ? '0' : ''}{timeLeft}]. *)
Definition timerReadout s : string :=
  "00:" +:+ (if timeLeft s <? 10 then "0" else "") +:+ pretty (timeLeft s).

(** A number below 100 written with exactly two decimal digits. *)
Definition twoDigits (t : Z) : string :=
  String (Ascii.ascii_of_nat (48 + Z.to_nat (t / 10)))
    (String (Ascii.ascii_of_nat (48 + Z.to_nat (t mod 10))) "").

(** The spinner overlay is rendered when [!recording && !reviewMode]. *)
Definition spinnerShown s : bool :=
  negb (recording s) && negb (reviewMode s).

(** The microphone icon is [MicOff] when [isMuted] and [Mic] otherwise. *)
Definition micOffShown s : bool := isMuted s.

End LiveScreen.

(** ** More vocabulary: events, calls and references *)

Definition isFlip (e : Event) : bool :=
  match e with ClickFlip => true | _ => false end.

Definition isTick (e : Event) : bool :=
  match e with IntervalFires => true | _ => false end.

Definition isSaveClick (e : Event) : bool :=
  match e with ClickSave _ _ => true | _ => false end.

Definition isDiscardClick (e : Event) : bool :=
  match e with ClickDiscard => true | _ => false end.

Definition occurrences (f : Event -> bool) (es : list Event) : nat :=
  length (List.filter f es).

Section MoreVocabulary.

Context {LocationData : Type}.

Implicit Types s : State LocationData.

Definition isOnDiscard (c : Call LocationData) : bool :=
  match c with OnDiscard => true | _ => false end.

(** [MediaRecorder.stop()] called on recorder [r]. *)
Definition isStopOf (r : nat) (c : Call LocationData) : bool :=
  match c with RecorderStop k => Nat.eqb k r | _ => false end.

(** The calls a run of the timer effect or of [stopRecording] can add. *)
Definition stopCalls (t : list (Call LocationData)) : Prop :=
  t = [] \/ t = [StopRecordingCalled] \/
  exists k, t = [StopRecordingCalled; RecorderStop k].

(** The references held in the [useRef] cells point to existing objects:
    the current stream is live, and a recorder exists whenever [recording]
    is set. *)
Definition refsValid s : Prop :=
  (forall i, streamRef s = Some i ->
     exists m, streams s !! i = Some m /\ live m = true) /\
  (forall r, mediaRecorderRef s = Some r -> (r < length (recorders s))%nat) /\
  (recording s = true -> is_Some (mediaRecorderRef s)).

(** The mute indicator agrees with the audio track of the current stream. *)
Definition muteInSync s : Prop :=
  forall i m, streamRef s = Some i -> streams s !! i = Some m ->
    audioEnabled m = negb (isMuted s).

(** Before a session is acquired nothing has been muted. *)
Definition quietUntilAcquired s : Prop :=
  pending s = [] \/
  (exists c, pending s = [c]) /\ streamRef s = None /\ isMuted s = false.

Definition muteTracked s : Prop := muteInSync s /\ quietUntilAcquired s.

(** [stop()] has been called at most once on every recorder, and never on
    one that is still recording or does not exist yet. *)
Definition stoppedOnce s : Prop :=
  forall k,
    (timesCalled (isStopOf k) (trace s) <= 1)%nat /\
    (forall m, recorders s !! k = Some m -> state m = Recording ->
       timesCalled (isStopOf k) (trace s) = 0%nat) /\
    (recorders s !! k = None -> timesCalled (isStopOf k) (trace s) = 0%nat).

(** What every artifact handed to [onSave] looks like. *)
Definition wellFormed (p : Props LocationData) (v : VideoEvidence LocationData)
  : Prop :=
  (exists now : Z, id v = "VID-" +:+ pretty now) /\
  0 <= duration v <= 60 /\
  ev_emergencyType v = emergencyType p /\
  ev_location v = location p /\
  type (target (url v)) = "video/webm" /\
  Forall nonEmpty (parts (target (url v))).

Definition savedWellFormed (p : Props LocationData) (c : Call LocationData)
  : Prop :=
  match c with OnSave v => wellFormed p v | _ => True end.

(** The artifact Confirm-Save builds in state [s]. *)
Definition evidenceOf (p : Props LocationData) s (u : ObjectURL)
    (clock : Z * Z) : VideoEvidence LocationData :=
  {| id := "VID-" +:+ pretty clock.1; url := u;
     timestamp := toISOString clock.2;
     duration := 60 - timeLeft s;
     ev_emergencyType := emergencyType p;
     ev_location := location p |}.

End MoreVocabulary.

(** ** Vocabulary for executions without overlapping acquisitions *)

Definition isStopClick (e : Event) : bool :=
  match e with ClickStop => true | _ => false end.

(** A [startCamera] call that saw review mode or a recording. *)
Definition busyClosure (c : Closure) : Prop :=
  c_reviewMode c = true \/ c_recording c = true.

Section TurnVocabulary.

Context {LocationData : Type}.

Implicit Types s : State LocationData.

(** The component has neither started a recording nor entered review. *)
Definition idle s : Prop := recording s = false /\ reviewMode s = false.

(** As long as the component is idle no recorder has been started. *)
Definition dormant s : Prop :=
  idle s -> Forall (fun m => state m = Inactive) (recorders s).

(** What a pending [startCamera] call saw is what holds now. *)
Definition closuresMatch s : Prop :=
  Forall (fun c => idleClosure c <-> idle s) (pending s).

(** [halted t s]: the recording has been finalized with [t] time units
    remaining, and no request made before the recording began is pending. *)
Definition halted (t : Z) s : Prop :=
  recording s = false /\ reviewMode s = true /\ is_Some (videoUrl s) /\
  timeLeft s = t /\ Forall busyClosure (pending s).

(** [released s]: on the review screen, nothing pending and no live stream. *)
Definition released s : Prop :=
  pending s = [] /\ render s = ReviewScreen /\ streamRef s = None /\
  forall i m, streams s !! i = Some m -> live m = false.

(** [run], refusing a facing-mode switch while an acquisition is pending. *)
Fixpoint runInTurn (p : Props LocationData) s (es : list Event)
  : option (State LocationData) :=
  match es with
  | [] => Some s
  | e :: es =>
      if isFlip e && negb (length (pending s) =? 0)%nat then None
      else s' ← step p s e; runInTurn p s' es
  end.

End TurnVocabulary.

(** ** Sample executions *)

(** A component instance: a fire reported at a position given as latitude
    and longitude in micro-degrees, with a discard callback. *)
Definition sample : Props (Z * Z) :=
  mkProps "EMG-1" "fire" (23022500, 72571400) true.

(** The state after the events [es], starting from the mounted component. *)
Definition after (es : list Event) : State (Z * Z) :=
  default mount (run sample mount es).

Definition fragment1 : Fragment := mkFragment 1 4096.

(** Recording for one second with one fragment buffered. *)
Definition oneSecondIn : list Event :=
  [Fulfilled 0%nat; DataAvailable 0%nat fragment1; IntervalFires].

(** One tick short of expiry. *)
Definition lastSecond : list Event :=
  Fulfilled 0%nat :: replicate 59 IntervalFires.

(** Two seconds into a recording, Stop has just been clicked. *)
Definition stopClicked : list Event :=
  [Fulfilled 0%nat; IntervalFires; IntervalFires; ClickStop].

(** Recording for one second; nothing has been delivered yet. *)
Definition oneTick : list Event := [Fulfilled 0%nat; IntervalFires].

(** Two acquisitions in flight; the first starts the recording. *)
Definition overlapped : list Event := [ClickFlip; Fulfilled 0%nat].

(** The same with the recording running to expiry and finalized while the
    second acquisition is still pending, and that acquisition succeeding
    only then. *)
Definition overlappedExpiry : list Event :=
  overlapped ++ replicate 60 IntervalFires ++ [StopEvent 0%nat; Fulfilled 0%nat].

(** Two acquisitions in flight; one second into the recording Stop is clicked
    and the recorder's stop event is handled while the second acquisition is
    still pending. *)
Definition overlappedStop : list Event :=
  overlapped ++ [IntervalFires; ClickStop; StopEvent 0%nat].

(** One second into a recording the facing mode is switched. *)
Definition switched : list Event := oneTick ++ [ClickFlip].

(** After the switch the browser ends the recorder, whose tracks have been
    stopped; the recorder delivers what it recorded and then its stop
    event. *)
Definition switchedEnded : list Event :=
  switched ++ [TracksEnded 0%nat; DataAvailable 0%nat fragment1; StopEvent 0%nat].

(** Closed goals about concrete executions are settled by evaluation. *)
Ltac conjuncts := repeat match goal with |- _ /\ _ => split end.

Ltac evaluate := conjuncts; vm_compute; reflexivity.

(** * Verification *)

Section Properties.

Context {LocationData : Type} (p : Props LocationData).

Local Abbreviation State := (State LocationData).

Implicit Types (s old new : State) (c : Closure) (e : Event) (d : Fragment).

(** ** Which handlers touch which cells *)

Lemma unchanged_refl s : unchanged s s.
Proof. by repeat split. Qed.

Lemma unchanged_trans s1 s2 s3 :
  unchanged s1 s2 -> unchanged s2 s3 -> unchanged s1 s3.
Proof.
  unfold unchanged. intros (?&?&?&?&?&?) (?&?&?&?&?&?).
  repeat split; congruence.
Qed.

Lemma stopCamera_unchanged s : unchanged s (stopCamera s).
Proof. unfold stopCamera. destruct (streamRef s); by repeat split. Qed.

Lemma stopRecording_unchanged s : unchanged s (stopRecording s).
Proof.
  unfold stopRecording. simpl.
  destruct (mediaRecorderRef s) as [r|]; [|by repeat split].
  destruct (recorders s !! r) as [m|]; [|by repeat split].
  destruct (state m); by repeat split.
Qed.

Lemma timerEffect_unchanged s : unchanged s (timerEffect s).
Proof.
  unfold timerEffect.
  destruct (recording s && (0 <? timeLeft s)); [apply unchanged_refl|].
  destruct ((timeLeft s =? 0) && recording s);
    [apply stopRecording_unchanged | apply unchanged_refl].
Qed.

Lemma toggleMute_unchanged s : unchanged s (toggleMute s).
Proof. unfold toggleMute. destruct (streamRef s); by repeat split. Qed.

Lemma handleSave_unchanged now date s : unchanged s (handleSave p now date s).
Proof. unfold handleSave. destruct (videoUrl s); by repeat split. Qed.

(** The timer effect never touches a React cell or the camera. *)
Lemma timerEffect_cells s :
  facingMode (timerEffect s) = facingMode s /\
  cameraError (timerEffect s) = cameraError s /\
  streamRef (timerEffect s) = streamRef s /\
  streams (timerEffect s) = streams s /\
  mediaRecorderRef (timerEffect s) = mediaRecorderRef s.
Proof.
  unfold timerEffect, stopRecording.
  repeat (case_match; simpl; try done).
Qed.

(** ** The invariant of the reachable states *)

Lemma Inv_unchanged s s' : unchanged s s' -> Inv s -> Inv s'.
Proof.
  intros (Hr&Ht&Hm&Hu&Hp&Hc) [].
  split; rewrite ?Hr, ?Ht, ?Hm, ?Hu, ?Hp, ?Hc; assumption.
Qed.

Lemma Inv_mount : Inv (@mount LocationData).
Proof.
  split; simpl; try done.
  - by repeat constructor.
  - intros _ _. by repeat constructor.
Qed.

Lemma Inv_startCamera s : Inv s -> Inv (startCamera s).
Proof.
  intros HI.
  assert (Hs : unchanged s (stopCamera s)) by apply stopCamera_unchanged.
  destruct Hs as (Hr&Ht&Hm&Hu&Hp&Hc). destruct HI.
  unfold startCamera, closureOf. split; simpl;
    rewrite ?Hr, ?Ht, ?Hm, ?Hu, ?Hp, ?Hc; try assumption.
  - apply Forall_app. split; [assumption|].
    constructor; [|constructor]. intros [? ?]. simpl in *. auto.
  - intros ? ?. apply Forall_app. split; [auto|].
    by repeat constructor.
Qed.

Lemma Inv_startCamera_fulfilled s k c :
  Inv s -> pending s !! k = Some c ->
  Inv (startCamera_fulfilled c (set_pending (delete k (pending s)) s)).
Proof.
  intros [] Hk. unfold startCamera_fulfilled, startRecordingProcess.
  case_match; split; simpl; try done.
  all: try (by apply Forall_delete).
  - intros ? ?. apply Forall_delete. auto.
Qed.

Lemma Inv_onstop s : Inv s -> Inv (onstop s).
Proof.
  intros [].
  assert (Hcore : forall s0, unchanged s0 (stopCamera s0))
    by apply stopCamera_unchanged.
  unfold onstop.
  match goal with |- Inv (stopCamera ?t) =>
    apply (Inv_unchanged t); [apply Hcore|] end.
  split; simpl; try done.
  intros u [=<-]. done.
Qed.

Lemma Inv_ondataavailable d s : Inv s -> Inv (ondataavailable d s).
Proof.
  intros []. unfold ondataavailable.
  destruct (0 <? size d) eqn:Hd; [|by split].
  split; simpl; try done.
  apply Forall_app. split; [done|].
  constructor; [|constructor]. unfold nonEmpty. lia.
Qed.

Lemma Inv_commit old new : Inv new -> Inv (commit old new).
Proof.
  intros HI. unfold commit.
  set (new' := if decide (facingMode old = facingMode new) then new
               else startCamera (stopCamera new)).
  assert (HI' : Inv new').
  { subst new'. case_decide; [done|].
    apply Inv_startCamera.
    eapply Inv_unchanged; [apply stopCamera_unchanged | done]. }
  case_match; [done|].
  eapply Inv_unchanged; [apply timerEffect_unchanged | done].
Qed.

Lemma onScreen_Some v s t s' : onScreen v s t = Some s' -> render s = v /\ s' = t.
Proof. unfold onScreen. case_decide; naive_solver. Qed.

Lemma intervalActive_true s :
  intervalActive s = true <-> recording s = true /\ 0 < timeLeft s.
Proof.
  unfold intervalActive. rewrite andb_true_iff, Z.ltb_lt. done.
Qed.

Lemma Inv_handle s e s' : Inv s -> handle p e s = Some s' -> Inv s'.
Proof.
  intros HI He. destruct e; simpl in He.
  - destruct (pending s !! k) as [c|] eqn:Hk; simplify_eq/=.
    by apply Inv_startCamera_fulfilled.
  - destruct (pending s !! k) as [c|] eqn:Hk; simplify_eq/=.
    destruct HI. split; simpl; try done.
    + by apply Forall_delete.
    + intros ? ?. apply Forall_delete. auto.
  - destruct (intervalActive s) eqn:Ha; simplify_eq.
    apply intervalActive_true in Ha as [Hr Ht].
    destruct HI. split; simpl; try done; try lia.
    all: intros; congruence.
  - destruct (recorders s !! r) as [m|]; simplify_eq/=.
    destruct (state m); simplify_eq; by apply Inv_ondataavailable.
  - destruct (recorders s !! r) as [m|]; simplify_eq/=.
    destruct (streams s !! source m) as [t|]; simplify_eq/=.
    destruct (state m), (live t); simplify_eq.
    eapply Inv_unchanged; [|done]. by repeat split.
  - destruct (recorders s !! r) as [m|]; simplify_eq/=.
    destruct (state m); simplify_eq.
    apply Inv_onstop. eapply Inv_unchanged; [|done]. by repeat split.
  - apply onScreen_Some in He as [_ ->].
    eapply Inv_unchanged; [apply stopRecording_unchanged | done].
  - apply onScreen_Some in He as [_ ->].
    eapply Inv_unchanged; [apply toggleMute_unchanged | done].
  - apply onScreen_Some in He as [_ ->].
    eapply Inv_unchanged; [|done]. by repeat split.
  - apply onScreen_Some in He as [_ ->].
    eapply Inv_unchanged; [|done]. by repeat split.
  - apply onScreen_Some in He as [_ ->].
    eapply Inv_unchanged; [|done]. destruct (onDiscard p); by repeat split.
  - apply onScreen_Some in He as [_ ->].
    eapply Inv_unchanged; [apply handleSave_unchanged | done].
  - destruct (pending s !! k) as [c|] eqn:Hk; simplify_eq/=.
    destruct (autoStarts c); simplify_eq.
    destruct HI. split; simpl; try done.
    + by apply Forall_delete.
    + intros ? ?. apply Forall_delete. auto.
  - destruct (pending s !! k) as [c|] eqn:Hk; simplify_eq/=.
    destruct (autoStarts c); simplify_eq.
    destruct HI. split; simpl; try done.
    + by apply Forall_delete.
    + intros ? ?. apply Forall_delete. auto.
Qed.

Lemma step_Some s e s' :
  step p s e = Some s' <-> exists t, handle p e s = Some t /\ s' = commit s t.
Proof.
  unfold step. destruct (handle p e s) as [t|]; simpl; split.
  - intros [= <-]. by exists t.
  - by intros (? & [= <-] & ->).
  - done.
  - by intros (? & ? & _).
Qed.

Lemma Inv_step s e s' : Inv s -> step p s e = Some s' -> Inv s'.
Proof.
  intros HI (t & Ht & ->)%step_Some.
  apply Inv_commit. by eapply Inv_handle.
Qed.

Lemma reachable_Inv s : reachable p s -> Inv s.
Proof.
  induction 1 as [|s e s' _ IH Hstep]; [apply Inv_mount | by eapply Inv_step].
Qed.

Lemma run_app s es es' :
  run p s (es ++ es') = s' ← run p s es; run p s' es'.
Proof.
  revert s. induction es as [|e es IH]; intros s; simpl; [done|].
  destruct (step p s e); simpl; [apply IH | done].
Qed.

Lemma reachable_run s es s' :
  reachable p s -> run p s es = Some s' -> reachable p s'.
Proof.
  revert s. induction es as [|e es IH]; intros s Hs Hrun; simpl in Hrun.
  - by simplify_eq.
  - destruct (step p s e) as [t|] eqn:Ht; simplify_eq/=.
    eapply IH; [|done]. by eapply reachable_step.
Qed.

(** ** What a commit leaves alone *)

Lemma startCamera_cells s :
  recording (startCamera s) = recording s /\
  timeLeft (startCamera s) = timeLeft s /\
  reviewMode (startCamera s) = reviewMode s /\
  videoUrl (startCamera s) = videoUrl s /\
  chunksRef (startCamera s) = chunksRef s /\
  mediaRecorderRef (startCamera s) = mediaRecorderRef s /\
  recorders (startCamera s) = recorders s.
Proof.
  unfold startCamera, stopCamera. destruct (streamRef s); by repeat split.
Qed.

Lemma stopCamera_facing s : facingMode (stopCamera s) = facingMode s.
Proof. unfold stopCamera. by destruct (streamRef s). Qed.

Lemma startCamera_facing s : facingMode (startCamera s) = facingMode s.
Proof. unfold startCamera, stopCamera. by destruct (streamRef s). Qed.

Lemma commit_cells old new :
  recording (commit old new) = recording new /\
  timeLeft (commit old new) = timeLeft new /\
  reviewMode (commit old new) = reviewMode new /\
  videoUrl (commit old new) = videoUrl new /\
  chunksRef (commit old new) = chunksRef new.
Proof.
  unfold commit.
  set (new' := if decide (facingMode old = facingMode new) then new
               else startCamera (stopCamera new)).
  assert (H' : recording new' = recording new /\ timeLeft new' = timeLeft new /\
               reviewMode new' = reviewMode new /\ videoUrl new' = videoUrl new /\
               chunksRef new' = chunksRef new).
  { subst new'. case_decide; [done|].
    destruct (startCamera_cells (stopCamera new)) as (->&->&->&->&->&_).
    destruct (stopCamera_unchanged new) as (->&->&->&->&_&->). done. }
  destruct H' as (<-&<-&<-&<-&<-).
  case_match; [done|].
  destruct (timerEffect_unchanged new') as (->&->&->&->&_&->). done.
Qed.

(** A handler that changes neither [facingMode] nor the timer's
    dependencies triggers no effect. *)
Lemma commit_quiet old new :
  facingMode new = facingMode old -> recording new = recording old ->
  timeLeft new = timeLeft old -> commit old new = new.
Proof.
  intros Hf Hr Ht. unfold commit.
  rewrite decide_True by done.
  rewrite !bool_decide_eq_true_2 by done. done.
Qed.

Lemma commit_same_facing old new :
  facingMode new = facingMode old ->
  commit old new =
    if bool_decide (recording old = recording new)
       && bool_decide (timeLeft old = timeLeft new)
    then new else timerEffect new.
Proof. intros Hf. unfold commit. by rewrite decide_True. Qed.

(** ** The trace only grows, and by what *)

Lemma timesCalled_app f (t t' : list (Call LocationData)) :
  timesCalled f (t ++ t') = (timesCalled f t + timesCalled f t')%nat.
Proof. unfold timesCalled. by rewrite List.filter_app, length_app. Qed.

Lemma stopRecording_trace s :
  exists r, (r = [] \/ exists k, r = [RecorderStop k]) /\
    trace (stopRecording s) = trace s ++ StopRecordingCalled :: r.
Proof.
  unfold stopRecording. simpl.
  destruct (mediaRecorderRef s) as [k|]; [|by exists []; split; [left|]].
  destruct (recorders s !! k) as [m|]; [|by exists []; split; [left|]].
  destruct (state m); simpl.
  - exists [RecorderStop k]. split; [right; by exists k|].
    by rewrite <- app_assoc.
  - exists []. by split; [left|].
  - exists []. by split; [left|].
Qed.

Lemma stopRecording_counted s :
  timesCalled isStopRecording (trace (stopRecording s)) =
  S (timesCalled isStopRecording (trace s)).
Proof.
  destruct (stopRecording_trace s) as (r & Hr & ->).
  rewrite timesCalled_app.
  destruct Hr as [-> | [k ->]]; unfold timesCalled; simpl; lia.
Qed.

(** ** Every step either leaves the timer alone or is a tick *)

Lemma handle_timeLeft s e s' :
  handle p e s = Some s' ->
  timeLeft s' = timeLeft s \/
  (e = IntervalFires /\ intervalActive s = true /\ timeLeft s' = timeLeft s - 1).
Proof.
  intros He. destruct e; simpl in He.
  - destruct (pending s !! k) as [c|]; simplify_eq/=. left.
    unfold startCamera_fulfilled, startRecordingProcess. by case_match.
  - destruct (pending s !! k) as [c|]; simplify_eq/=. by left.
  - destruct (intervalActive s) eqn:Ha; simplify_eq. by right.
  - destruct (recorders s !! r) as [m|]; simplify_eq/=. left.
    unfold ondataavailable in He. destruct (state m); simplify_eq; by case_match.
  - destruct (recorders s !! r) as [m|]; simplify_eq/=.
    destruct (streams s !! source m) as [t|]; simplify_eq/=.
    destruct (state m), (live t); simplify_eq. by left.
  - destruct (recorders s !! r) as [m|]; simplify_eq/=.
    destruct (state m); simplify_eq. left.
    unfold onstop.
    match goal with |- timeLeft (stopCamera ?t) = _ =>
      destruct (stopCamera_unchanged t) as (_&->&_) end. done.
  - apply onScreen_Some in He as [_ ->]. left.
    by destruct (stopRecording_unchanged s) as (_&->&_).
  - apply onScreen_Some in He as [_ ->]. left.
    by destruct (toggleMute_unchanged s) as (_&->&_).
  - apply onScreen_Some in He as [_ ->]. by left.
  - apply onScreen_Some in He as [_ ->]. by left.
  - apply onScreen_Some in He as [_ ->]. left. by destruct (onDiscard p).
  - apply onScreen_Some in He as [_ ->]. left.
    by destruct (handleSave_unchanged now date s) as (_&->&_).
  - destruct (pending s !! k) as [c|]; simplify_eq/=.
    destruct (autoStarts c); simplify_eq. by left.
  - destruct (pending s !! k) as [c|]; simplify_eq/=.
    destruct (autoStarts c); simplify_eq. by left.
Qed.

Lemma step_timeLeft s e s' :
  step p s e = Some s' ->
  timeLeft s' = timeLeft s \/
  (e = IntervalFires /\ intervalActive s = true /\ timeLeft s' = timeLeft s - 1).
Proof.
  intros (t & Ht & ->)%step_Some.
  destruct (commit_cells s t) as (_&->&_).
  by apply handle_timeLeft.
Qed.

(** ** Screen selection *)

Lemma render_review s :
  render s = ReviewScreen <-> reviewMode s = true /\ is_Some (videoUrl s).
Proof.
  unfold render.
  destruct (reviewMode s); simpl.
  - case_bool_decide; [by split|].
    destruct (cameraError s); (split; [done | tauto]).
  - destruct (cameraError s); (split; [done | by intros [? _]]).
Qed.

(** C7.  The rendered screen is chosen by first match: Review when
    [reviewMode] holds and a finalized clip exists, else Error when
    [cameraError] holds, else the live Recording screen.  Along every
    execution a finalized clip exists exactly when [reviewMode] holds, so
    the screen is a function of [reviewMode] and [cameraError] alone (it does
    not even look at [recording]): two reachable states that agree on
    [cameraError], [recording] and [reviewMode] render the same screen. *)
Theorem render_first_match s :
  reachable p s ->
  (reviewMode s = true /\ is_Some (videoUrl s) -> render s = ReviewScreen) /\
  (~ (reviewMode s = true /\ is_Some (videoUrl s)) ->
     cameraError s = true -> render s = ErrorScreen) /\
  (~ (reviewMode s = true /\ is_Some (videoUrl s)) ->
     cameraError s = false -> render s = RecordingScreen) /\
  (reviewMode s = true <-> is_Some (videoUrl s)) /\
  render s = (if reviewMode s then ReviewScreen
              else if cameraError s then ErrorScreen else RecordingScreen) /\
  (forall s', reachable p s' ->
     cameraError s' = cameraError s -> recording s' = recording s ->
     reviewMode s' = reviewMode s -> render s' = render s).
Proof.
  intros Hs.
  assert (Hfun : forall s0, reachable p s0 ->
            render s0 = (if reviewMode s0 then ReviewScreen
                         else if cameraError s0 then ErrorScreen
                         else RecordingScreen)).
  { intros s0 [_ Hrev _ _ _ _ _]%reachable_Inv. unfold render.
    destruct (reviewMode s0); [|done].
    rewrite bool_decide_eq_true_2; [done | by apply Hrev]. }
  split; [by intros ?%render_review|].
  split; [|split].
  - intros Hno He. unfold render.
    destruct (reviewMode s && bool_decide (is_Some (videoUrl s))) eqn:Hb.
    + apply andb_true_iff in Hb as [? ?%bool_decide_eq_true]. tauto.
    + by rewrite He.
  - intros Hno He. unfold render.
    destruct (reviewMode s && bool_decide (is_Some (videoUrl s))) eqn:Hb.
    + apply andb_true_iff in Hb as [? ?%bool_decide_eq_true]. tauto.
    + by rewrite He.
  - split; [by apply reachable_Inv|]. split; [by apply Hfun|].
    intros s' Hs' He _ Hm. rewrite (Hfun s), (Hfun s') by done.
    by rewrite He, Hm.
Qed.

(** ** The clip buffer *)

(** C10.  Every fragment in the clip buffer has a size strictly greater than
    zero, and so has every part of a finalized clip: the [dataavailable]
    handler appends a fragment of positive size and drops any other. *)
Theorem fragments_are_non_empty s :
  reachable p s ->
  Forall (fun d => 0 < size d) (chunksRef s) /\
  (forall u, videoUrl s = Some u ->
     Forall (fun d => 0 < size d) (parts (target u))) /\
  (forall d, size d <= 0 -> ondataavailable d s = s) /\
  (forall d, 0 < size d ->
     chunksRef (ondataavailable d s) = chunksRef s ++ [d]).
Proof.
  intros [_ _ _ _ _ Hc Hu]%reachable_Inv.
  split; [done|]. split; [done|]. split.
  - intros d Hd. unfold ondataavailable.
    by rewrite (proj2 (Z.ltb_ge 0 (size d))).
  - intros d Hd. unfold ondataavailable.
    by rewrite (proj2 (Z.ltb_lt 0 (size d))).
Qed.

(** ** Saving *)

(** C9.  Without a finalized clip URL the Confirm-Save handler does nothing:
    the state, and with it the trace of calls, is left as it was, so [onSave]
    is not invoked. *)
Theorem handleSave_without_clip s now date :
  videoUrl s = None ->
  handleSave p now date s = s /\
  timesCalled isOnSave (trace (handleSave p now date s)) =
  timesCalled isOnSave (trace s).
Proof. intros Hu. unfold handleSave. by rewrite Hu. Qed.

Lemma step_ClickSave s now date :
  render s = ReviewScreen ->
  exists u, videoUrl s = Some u /\
    step p s (ClickSave now date) =
      Some (called
              (OnSave {| id := "VID-" +:+ pretty now; url := u;
                         timestamp := toISOString date;
                         duration := 60 - timeLeft s;
                         ev_emergencyType := emergencyType p;
                         ev_location := location p |}) s).
Proof.
  intros Hv. pose proof Hv as [_ [u Hu]]%render_review.
  exists u. split; [done|].
  unfold step. simpl. unfold onScreen. rewrite decide_True by done. simpl.
  unfold handleSave. rewrite Hu. by rewrite commit_quiet.
Qed.

(** C3.  On the review screen Confirm-Save makes exactly one call to
    [onSave]; the artifact has the six fields, its [url] is the finalized
    clip, its [duration] is 60 minus the remaining time (an integer between 0
    and 60), and its [emergencyType] and [location] are the component
    inputs. *)
Theorem confirm_save_emits_one_artifact s now date :
  reachable p s -> render s = ReviewScreen ->
  exists u s',
    videoUrl s = Some u /\
    step p s (ClickSave now date) = Some s' /\
    trace s' =
      trace s ++
      [OnSave {| id := "VID-" +:+ pretty now; url := u;
                 timestamp := toISOString date;
                 duration := 60 - timeLeft s;
                 ev_emergencyType := emergencyType p;
                 ev_location := location p |}] /\
    timesCalled isOnSave (trace s') = S (timesCalled isOnSave (trace s)) /\
    0 <= 60 - timeLeft s <= 60.
Proof.
  intros [Ht _ _ _ _ _ _]%reachable_Inv Hv.
  destruct (step_ClickSave s now date Hv) as (u & Hu & Hstep).
  exists u. eexists. split; [done|]. split; [exact Hstep|].
  simpl. split; [done|]. split; [|lia].
  rewrite timesCalled_app. unfold timesCalled. simpl. lia.
Qed.

(** ** The countdown *)

Lemma step_tick s :
  intervalActive s = true ->
  step p s IntervalFires =
    Some (if timeLeft s =? 1 then stopRecording (setTimeLeft (timeLeft s - 1) s)
          else setTimeLeft (timeLeft s - 1) s).
Proof.
  intros Ha. unfold step. simpl. rewrite Ha. simpl.
  apply intervalActive_true in Ha as [Hr Ht].
  rewrite commit_same_facing by done. simpl.
  rewrite (bool_decide_eq_false_2 (timeLeft s = timeLeft s - 1)) by lia.
  rewrite andb_false_r. unfold timerEffect. simpl. rewrite Hr. simpl.
  destruct (timeLeft s =? 1) eqn:H1.
  - apply Z.eqb_eq in H1. rewrite H1. simpl. done.
  - apply Z.eqb_neq in H1.
    by rewrite (proj2 (Z.ltb_lt 0 (timeLeft s - 1))) by lia.
Qed.

(** What a single tick does: the remaining time is never negative and never
    increases, no tick is possible at zero, the tick from one to zero runs
    [stopRecording] once, and a tick that stays above zero calls nothing. *)
Lemma tick_facts s :
  reachable p s ->
  0 <= timeLeft s /\
  (forall e s', step p s e = Some s' -> timeLeft s' <= timeLeft s) /\
  (timeLeft s = 0 -> step p s IntervalFires = None) /\
  (recording s = true -> timeLeft s = 1 ->
     exists s', step p s IntervalFires = Some s' /\
       timeLeft s' = 0 /\
       s' = stopRecording (setTimeLeft 0 s) /\
       timesCalled isStopRecording (trace s') =
         S (timesCalled isStopRecording (trace s))) /\
  (recording s = true -> 1 < timeLeft s ->
     exists s', step p s IntervalFires = Some s' /\
       timeLeft s' = timeLeft s - 1 /\ trace s' = trace s).
Proof.
  intros [Ht _ _ _ _ _ _]%reachable_Inv.
  split; [lia|]. split; [|split; [|split]].
  - intros e s' [->|(_&_&->)]%step_timeLeft; lia.
  - intros H0. unfold step. simpl. unfold intervalActive.
    rewrite H0. by rewrite andb_false_r.
  - intros Hr H1. exists (stopRecording (setTimeLeft 0 s)). split.
    + rewrite step_tick by (apply intervalActive_true; split; [done | lia]).
      by rewrite H1.
    + destruct (stopRecording_unchanged (setTimeLeft 0 s)) as (_&->&_).
      split; [done|]. split; [done|]. by rewrite stopRecording_counted.
  - intros Hr H1. exists (setTimeLeft (timeLeft s - 1) s). split.
    + rewrite step_tick by (apply intervalActive_true; split; [done | lia]).
      by rewrite (proj2 (Z.eqb_neq (timeLeft s) 1)) by lia.
    + done.
Qed.

(** ** Acquisition and auto-start *)

Lemma timerEffect_running s : 0 < timeLeft s -> timerEffect s = s.
Proof.
  intros Ht. unfold timerEffect.
  rewrite (proj2 (Z.ltb_lt 0 (timeLeft s))) by done.
  rewrite (proj2 (Z.eqb_neq (timeLeft s) 0)) by lia.
  by destruct (recording s).
Qed.

Lemma stopRecording_sources s r :
  source <$> recorders (stopRecording s) !! r = source <$> recorders s !! r.
Proof.
  unfold stopRecording. simpl.
  destruct (mediaRecorderRef s) as [k|]; [|done].
  destruct (recorders s !! k) as [m|] eqn:Hk; [|done].
  destruct (state m); simpl; try done.
  rewrite list_lookup_alter. case_decide; [|done].
  subst. by rewrite Hk.
Qed.

Lemma timerEffect_sources s r :
  source <$> recorders (timerEffect s) !! r = source <$> recorders s !! r.
Proof.
  unfold timerEffect. repeat case_match; try done.
  apply stopRecording_sources.
Qed.

Lemma step_Fulfilled s k c :
  pending s !! k = Some c ->
  step p s (Fulfilled k) =
    Some (commit s (startCamera_fulfilled c (set_pending (delete k (pending s)) s))).
Proof. intros Hk. unfold step. simpl. by rewrite Hk. Qed.

Lemma startCamera_fulfilled_stream c s :
  facingMode (startCamera_fulfilled c s) = facingMode s /\
  streamRef (startCamera_fulfilled c s) = Some (length (streams s)) /\
  streams (startCamera_fulfilled c s) =
    streams s ++ [mkStream (c_facingMode c) true true] /\
  timeLeft (startCamera_fulfilled c s) = timeLeft s.
Proof. unfold startCamera_fulfilled, startRecordingProcess. by case_match. Qed.

Lemma startCamera_fulfilled_idle c s :
  idleClosure c -> c_timeLeft c = 60 ->
  startCamera_fulfilled c s =
    startRecordingProcess (length (streams s))
      (set_streamRef (Some (length (streams s)))
         (set_streams (streams s ++ [mkStream (c_facingMode c) true true]) s)).
Proof.
  intros [Hm Hr] Ht. unfold startCamera_fulfilled. by rewrite Hm, Hr, Ht.
Qed.

Lemma startCamera_fulfilled_busy c s :
  c_reviewMode c = true \/ c_recording c = true ->
  startCamera_fulfilled c s =
    set_streamRef (Some (length (streams s)))
      (set_streams (streams s ++ [mkStream (c_facingMode c) true true]) s).
Proof.
  intros Hb. unfold startCamera_fulfilled.
  destruct Hb as [-> | ->]; simpl; [done|]. by rewrite andb_false_r.
Qed.

Lemma commit_camera old new :
  facingMode new = facingMode old ->
  facingMode (commit old new) = facingMode new /\
  cameraError (commit old new) = cameraError new /\
  streamRef (commit old new) = streamRef new /\
  streams (commit old new) = streams new /\
  mediaRecorderRef (commit old new) = mediaRecorderRef new /\
  pending (commit old new) = pending new /\
  forall r, source <$> recorders (commit old new) !! r
            = source <$> recorders new !! r.
Proof.
  intros Hf. rewrite commit_same_facing by done.
  case_match; [done|].
  destruct (timerEffect_cells new) as (->&->&->&->&->).
  destruct (timerEffect_unchanged new) as (_&_&_&_&->&_).
  repeat split. apply timerEffect_sources.
Qed.

(** What the success of a pending acquisition does, in terms of the flags
    its [startCamera] call captured, when the recorder can be created and
    started. *)
Lemma fulfilled_acquisition s :
  reachable p s ->
  (forall k c, pending s !! k = Some c ->
     exists s', step p s (Fulfilled k) = Some s' /\
       streamRef s' = Some (length (streams s)) /\
       streams s' = streams s ++ [mkStream (c_facingMode c) true true] /\
       (reviewMode s = false -> recording s = false ->
          recording s' = true /\
          mediaRecorderRef s' = Some (length (recorders s)) /\
          recorders s' =
            recorders s ++ [mkRecorder (length (streams s)) Recording]) /\
       (reviewMode s = false -> recording s = false ->
          c_reviewMode c = false /\ c_recording c = false) /\
       (c_reviewMode c = false -> c_recording c = false ->
          recording s' = true /\
          chunksRef s' = [] /\
          mediaRecorderRef s' = Some (length (recorders s)) /\
          exists m, recorders s' !! length (recorders s) = Some m /\
                    source m = length (streams s) /\
                    (0 < timeLeft s -> state m = Recording)) /\
       (c_reviewMode c = true \/ c_recording c = true ->
          recording s' = recording s /\ recorders s' = recorders s /\
          mediaRecorderRef s' = mediaRecorderRef s /\
          chunksRef s' = chunksRef s)) /\
  (reviewMode s = false -> recording s = false ->
   forall s1, step p s ClickFlip = Some s1 ->
     facingMode s1 = opposite (facingMode s) /\
     pending s1 = pending s ++ [mkClosure (opposite (facingMode s)) false false 60] /\
     exists s2, step p s1 (Fulfilled (length (pending s))) = Some s2 /\
       recording s2 = true /\
       streamRef s2 = Some (length (streams s1)) /\
       streams s2 = streams s1 ++ [mkStream (opposite (facingMode s)) true true] /\
       mediaRecorderRef s2 = Some (length (recorders s1)) /\
       recorders s2 = recorders s1 ++ [mkRecorder (length (streams s1)) Recording]).
Proof.
  intros Hs. pose proof (reachable_Inv s Hs) as HI. split.
  - intros k c Hk. eexists. split; [by apply step_Fulfilled|].
    set (s0 := set_pending (delete k (pending s)) s).
    destruct (startCamera_fulfilled_stream c s0) as (Hf&Href&Hstr&Htl).
    destruct (commit_camera s (startCamera_fulfilled c s0) Hf)
      as (_&_&->&->&->&_&Hsrc).
    destruct (commit_cells s (startCamera_fulfilled c s0)) as (->&_&_&_&->).
    split; [done|]. split; [done|].
    assert (Hfull : idleClosure c -> c_timeLeft c = 60).
    { destruct HI as [_ _ _ Hfull _ _ _].
      rewrite Forall_lookup in Hfull. by apply (Hfull k). }
    assert (Hstale : reviewMode s = false -> recording s = false ->
                     idleClosure c).
    { intros Hm Hr. destruct HI as [_ _ _ _ Hidle _ _].
      specialize (Hidle Hr Hm). rewrite Forall_lookup in Hidle.
      by apply (Hidle k). }
    split; [|split; [|split]].
    + intros Hm Hr.
      assert (Hfull60 : timeLeft s = 60) by (by apply HI).
      rewrite startCamera_fulfilled_idle in * by auto.
      rewrite commit_same_facing by done. simpl.
      rewrite Hr. simpl.
      rewrite timerEffect_running by (simpl; lia). done.
    + done.
    + intros Hm Hr.
      rewrite startCamera_fulfilled_idle in * by (try apply Hfull; by split).
      simpl. split; [done|]. split; [done|]. split; [done|].
      rewrite commit_same_facing by done. simpl.
      case_match.
      * exists (mkRecorder (length (streams s)) Recording).
        split; [by apply list_lookup_middle | done].
      * destruct (decide (0 < timeLeft s)) as [Hpos|Hneg].
        -- rewrite timerEffect_running by done. simpl.
           exists (mkRecorder (length (streams s)) Recording).
           split; [by apply list_lookup_middle | done].
        -- pose proof (timerEffect_sources
             (startRecordingProcess (length (streams s))
                (set_streamRef (Some (length (streams s)))
                   (set_streams
                      (streams s ++ [mkStream (c_facingMode c) true true]) s0)))
             (length (recorders s))) as Hsrc'.
           simpl in Hsrc'. rewrite list_lookup_middle in Hsrc' by done.
           match type of Hsrc' with
           | source <$> ?x = _ => destruct x as [m|] eqn:Hm'; [|done]
           end.
           exists m. simpl in Hsrc'. split; [done|].
           split; [congruence | done].
    + intros Hb. rewrite startCamera_fulfilled_busy by done. simpl.
      rewrite commit_quiet by done. done.
  - intros Hm Hr s1 (t & Ht & ->)%step_Some.
    simpl in Ht. apply onScreen_Some in Ht as [_ ->].
    assert (Htl : timeLeft s = 60) by (by apply HI).
    assert (Hflip : facingMode (toggleCamera s) = opposite (facingMode s))
      by done.
    assert (Hstep : commit s (toggleCamera s)
                    = startCamera (stopCamera (toggleCamera s))).
    { unfold commit. rewrite decide_False.
      - destruct (startCamera_cells (stopCamera (toggleCamera s)))
          as (->&->&_).
        destruct (stopCamera_unchanged (toggleCamera s)) as (->&->&_).
        simpl. by rewrite !bool_decide_eq_true_2.
      - rewrite Hflip. by destruct (facingMode s). }
    rewrite Hstep.
    assert (Hpend : pending (startCamera (stopCamera (toggleCamera s)))
              = pending s ++ [mkClosure (opposite (facingMode s)) false false 60]).
    { unfold startCamera, closureOf, stopCamera, toggleCamera. simpl.
      destruct (streamRef s) eqn:Href; simpl; rewrite ?Href; simpl;
        by rewrite Hm, Hr, Htl. }
    split; [by rewrite startCamera_facing, stopCamera_facing|].
    split; [done|].
    assert (Htl1 : timeLeft (startCamera (stopCamera (toggleCamera s))) = 60).
    { destruct (startCamera_cells (stopCamera (toggleCamera s))) as (_&->&_).
      by destruct (stopCamera_unchanged (toggleCamera s)) as (_&->&_). }
    clear Hstep.
    remember (startCamera (stopCamera (toggleCamera s))) as s1 eqn:Es1.
    eexists. split.
    { apply step_Fulfilled. rewrite Hpend. by apply list_lookup_middle. }
    rewrite startCamera_fulfilled_idle by done.
    rewrite commit_same_facing by done.
    case_match; [done|].
    rewrite timerEffect_running by (simpl; lia). done.
Qed.

(** ** Switching the facing mode *)

Lemma step_ClickFlip s s1 :
  step p s ClickFlip = Some s1 ->
  render s = RecordingScreen /\ s1 = startCamera (stopCamera (toggleCamera s)).
Proof.
  intros (t & Ht & ->)%step_Some. simpl in Ht.
  apply onScreen_Some in Ht as [Hv ->]. split; [done|].
  unfold commit. rewrite decide_False by (simpl; by destruct (facingMode s)).
  destruct (startCamera_cells (stopCamera (toggleCamera s))) as (->&->&_).
  destruct (stopCamera_unchanged (toggleCamera s)) as (->&->&_).
  simpl. by rewrite !bool_decide_eq_true_2.
Qed.

Lemma step_StopEvent s r s' :
  step p s (StopEvent r) = Some s' ->
  videoUrl s' = Some (createObjectURL (mkBlob (chunksRef s) "video/webm")) /\
  reviewMode s' = true /\ recording s' = false /\
  timeLeft s' = timeLeft s /\ pending s' = pending s.
Proof.
  intros (t & Ht & ->)%step_Some. simpl in Ht.
  destruct (recorders s !! r) as [m|]; simplify_eq/=.
  destruct (state m); simplify_eq.
  set (s0 := setRecorderState r Inactive s).
  assert (Hf : facingMode (onstop s0) = facingMode s)
    by (unfold onstop; by rewrite stopCamera_facing).
  destruct (commit_cells s (onstop s0)) as (->&->&->&->&_).
  destruct (commit_camera s (onstop s0) Hf) as (_&_&_&_&_&->&_).
  unfold onstop.
  match goal with |- context [stopCamera ?t] =>
    destruct (stopCamera_unchanged t) as (->&->&->&->&->&_) end.
  done.
Qed.

(** What a facing-mode switch and an immediate success of the new
    acquisition do while a recording is in progress. *)
Lemma switch_while_recording s s1 :
  reachable p s -> recording s = true -> step p s ClickFlip = Some s1 ->
  facingMode s1 = opposite (facingMode s) /\
  streamRef s1 = None /\
  (forall i m, streamRef s = Some i -> streams s1 !! i = Some m ->
     live m = false) /\
  pending s1 =
    pending s ++ [mkClosure (opposite (facingMode s)) false true (timeLeft s)] /\
  trace s1 = trace s ++ [GetUserMedia (opposite (facingMode s))] /\
  recording s1 = true /\ timeLeft s1 = timeLeft s /\
  chunksRef s1 = chunksRef s /\ videoUrl s1 = None /\
  mediaRecorderRef s1 = mediaRecorderRef s /\ recorders s1 = recorders s /\
  exists s2, step p s1 (Fulfilled (length (pending s))) = Some s2 /\
    streamRef s2 = Some (length (streams s1)) /\
    streams s2 = streams s1 ++ [mkStream (opposite (facingMode s)) true true] /\
    recording s2 = true /\ timeLeft s2 = timeLeft s /\
    chunksRef s2 = chunksRef s /\ videoUrl s2 = None /\
    mediaRecorderRef s2 = mediaRecorderRef s /\ recorders s2 = recorders s /\
    forall r s3, step p s2 (StopEvent r) = Some s3 ->
      videoUrl s3 =
        Some (createObjectURL (mkBlob (chunksRef s) "video/webm")).
Proof.
  intros Hs Hr [Hv ->]%step_ClickFlip.
  pose proof (reachable_Inv s Hs) as [_ Hrev _ _ _ _ _].
  assert (Hm : reviewMode s = false).
  { destruct (reviewMode s) eqn:Hm; [|done].
    assert (render s = ReviewScreen) by (apply render_review; split; [done|];
      by apply Hrev). congruence. }
  assert (Hu : videoUrl s = None).
  { destruct (videoUrl s) eqn:Hu; [|done].
    assert (reviewMode s = true) by (by apply Hrev). congruence. }
  assert (Hfields :
    let s1 := startCamera (stopCamera (toggleCamera s)) in
    facingMode s1 = opposite (facingMode s) /\ streamRef s1 = None /\
    streams s1 = match streamRef s with
                 | Some i => alter stopTracks i (streams s)
                 | None => streams s
                 end /\
    pending s1 =
      pending s ++ [mkClosure (opposite (facingMode s)) false true (timeLeft s)] /\
    trace s1 = trace s ++ [GetUserMedia (opposite (facingMode s))] /\
    recording s1 = true /\ timeLeft s1 = timeLeft s /\
    chunksRef s1 = chunksRef s /\ videoUrl s1 = None /\
    mediaRecorderRef s1 = mediaRecorderRef s /\ recorders s1 = recorders s).
  { unfold startCamera, closureOf, stopCamera, toggleCamera. simpl.
    destruct (streamRef s) eqn:Href; simpl; rewrite ?Href; simpl;
      rewrite ?Hm, ?Hr, ?Hu; by repeat split. }
  remember (startCamera (stopCamera (toggleCamera s))) as s1 eqn:Es1.
  simpl in Hfields.
  destruct Hfields as (Hf1&Href1&Hstr1&Hp1&Htr1&Hr1&Ht1&Hc1&Hu1&Hmr1&Hrs1).
  repeat (split; [done|]).
  split.
  { intros i m Hi Hlook. rewrite Hstr1, Hi, list_lookup_alter_eq in Hlook.
    destruct (streams s !! i); by simplify_eq/=. }
  repeat (split; [done|]).
  eexists. split.
  { apply step_Fulfilled. rewrite Hp1. by apply list_lookup_middle. }
  rewrite startCamera_fulfilled_busy by (by right). simpl.
  rewrite commit_quiet by done. simpl.
  repeat (split; [done|]).
  intros r s3 (Hu3&_)%step_StopEvent. simpl in Hu3. by rewrite Hu3, Hc1.
Qed.

(** ** Stopping *)

Lemma step_ClickStop s s0 :
  step p s ClickStop = Some s0 ->
  render s = RecordingScreen /\ s0 = stopRecording s.
Proof.
  intros (t & Ht & ->)%step_Some. simpl in Ht.
  apply onScreen_Some in Ht as [Hv ->]. split; [done|].
  destruct (stopRecording_unchanged s) as (Hr&Ht&_).
  apply commit_quiet; [|done..].
  unfold stopRecording. simpl. by repeat case_match.
Qed.

(** ** Sessions *)

Lemma filter_live_nil (l : list MediaStream) :
  (forall i m, l !! i = Some m -> live m = false) -> List.filter live l = [].
Proof.
  induction l as [|a l IH]; intros Hl; simpl; [done|].
  rewrite (Hl 0%nat a eq_refl). apply IH.
  intros i m Hi. by apply (Hl (S i)).
Qed.

Lemma filter_live_le (l : list MediaStream) (j : nat) :
  (forall i m, l !! i = Some m -> live m = true -> i = j) ->
  (length (List.filter live l) <= 1)%nat.
Proof.
  revert j. induction l as [|a l IH]; intros j Hl; simpl; [lia|].
  destruct (live a) eqn:Ha.
  - rewrite filter_live_nil; [simpl; lia|].
    intros i m Hi. destruct (live m) eqn:Hm; [|done].
    pose proof (Hl 0%nat a eq_refl Ha). pose proof (Hl (S i) m Hi Hm). lia.
  - apply (IH (pred j)). intros i m Hi Hm.
    pose proof (Hl (S i) m Hi Hm). lia.
Qed.

Lemma liveOnlyCurrent_le s : liveOnlyCurrent s -> (activeSessions s <= 1)%nat.
Proof.
  intros Hl. unfold activeSessions.
  destruct (streamRef s) as [j|] eqn:Hj.
  - apply (filter_live_le _ j). intros i m Hi Hm.
    specialize (Hl i m Hi Hm). congruence.
  - rewrite filter_live_nil; [simpl; lia|].
    intros i m Hi. destruct (live m) eqn:Hm; [|done].
    specialize (Hl i m Hi Hm). congruence.
Qed.

Lemma liveOnlyCurrent_none s :
  liveOnlyCurrent s -> streamRef s = None -> activeSessions s = 0%nat.
Proof.
  intros Hl Hj. unfold activeSessions. rewrite filter_live_nil; [done|].
  intros i m Hi. destruct (live m) eqn:Hm; [|done].
  specialize (Hl i m Hi Hm). congruence.
Qed.

(** [stopCamera] releases the session [streamRef] points to. *)
Lemma stopCamera_releases s :
  streamRef (stopCamera s) = None /\
  pending (stopCamera s) = pending s /\
  (forall i m, streamRef s = Some i -> streams (stopCamera s) !! i = Some m ->
     live m = false) /\
  (liveOnlyCurrent s ->
   forall i m, streams (stopCamera s) !! i = Some m -> live m = false).
Proof.
  unfold stopCamera. destruct (streamRef s) as [j|] eqn:Hj; simpl.
  - split; [done|]. split; [done|]. split.
    + intros i m [= <-]. rewrite list_lookup_alter_eq.
      destruct (streams s !! j); by intros [= <-].
    + intros Hl i m. rewrite list_lookup_alter. case_decide as Hij.
      * subst. destruct (streams s !! i); by intros [= <-].
      * intros Hi. destruct (live m) eqn:Hm; [|done].
        specialize (Hl i m Hi Hm). congruence.
  - split; [done|]. split; [done|]. split; [done|].
    intros Hl i m Hi. destruct (live m) eqn:Hm; [|done].
    specialize (Hl i m Hi Hm). congruence.
Qed.

(** [startCamera] releases any prior session before it requests a new one. *)
Lemma startCamera_releases s :
  streamRef (startCamera s) = None /\
  pending (startCamera s) = pending s ++ [closureOf s] /\
  (forall i m, streamRef s = Some i -> streams (startCamera s) !! i = Some m ->
     live m = false) /\
  (liveOnlyCurrent s ->
   forall i m, streams (startCamera s) !! i = Some m -> live m = false).
Proof.
  destruct (stopCamera_releases s) as (Href & Hp & Hcur & Hall).
  unfold startCamera. simpl. by rewrite Href, Hp.
Qed.

Lemma inTurn_cells s s' :
  streams s' = streams s -> streamRef s' = streamRef s ->
  pending s' = pending s -> inTurn s -> inTurn s'.
Proof.
  intros Hst Hr Hp [Hl Ho]. unfold inTurn, liveOnlyCurrent, oneRequest.
  by rewrite Hst, Hr, Hp.
Qed.

Lemma inTurn_no_live s :
  (forall i m, streams s !! i = Some m -> live m = false) ->
  liveOnlyCurrent s.
Proof. intros Hno i m Hi Hm. specialize (Hno i m Hi). congruence. Qed.

Lemma inTurn_commit old new :
  facingMode new = facingMode old -> inTurn new -> inTurn (commit old new).
Proof.
  intros Hf. destruct (commit_camera old new Hf) as (_&_&Hr&Hst&_&Hp&_).
  by apply inTurn_cells.
Qed.

Lemma inTurn_handle s e new :
  e <> ClickFlip -> inTurn s -> handle p e s = Some new ->
  facingMode new = facingMode s /\ inTurn new.
Proof.
  intros Hne [Hl Ho] He. destruct e; simpl in He; try done.
  - destruct (pending s !! k) as [c|] eqn:Hk; simplify_eq/=.
    destruct Ho as [Hp | [[c' Hp] Href]]; [by rewrite Hp in Hk|].
    rewrite Hp in *. destruct k; [|done]. simplify_eq/=.
    destruct (startCamera_fulfilled_stream c (set_pending [] s))
      as (Hf & Hr & Hst & _).
    split; [done|]. split.
    + intros i m. rewrite Hst, Hr. simpl.
      intros [[_ Hi] | [-> _]]%lookup_snoc_Some Hm; [|done].
      specialize (Hl i m Hi Hm). congruence.
    + left. unfold startCamera_fulfilled, startRecordingProcess.
      by case_match.
  - destruct (pending s !! k) as [c|] eqn:Hk; simplify_eq/=.
    destruct Ho as [Hp | [[c' Hp] Href]]; [by rewrite Hp in Hk|].
    rewrite Hp in *. destruct k; [|done].
    split; [done|]. split; [done | by left].
  - destruct (intervalActive s); simplify_eq. by split.
  - destruct (recorders s !! r) as [m|]; simplify_eq/=.
    assert (new = ondataavailable data s) as ->
      by (destruct (state m); by simplify_eq).
    unfold ondataavailable. destruct (0 <? size data); by split.
  - destruct (recorders s !! r) as [m|]; simplify_eq/=.
    destruct (streams s !! source m) as [x|]; simplify_eq/=.
    destruct (state m), (live x); simplify_eq. by split.
  - destruct (recorders s !! r) as [m|]; simplify_eq/=.
    destruct (state m); simplify_eq.
    unfold onstop.
    match goal with |- context [stopCamera ?x] =>
      destruct (stopCamera_releases x) as (Href & Hp & _ & Hall);
      pose proof (stopCamera_facing x) as Hf end.
    split; [done|]. split.
    + apply inTurn_no_live. by apply Hall.
    + unfold oneRequest. rewrite Hp, Href. simpl.
      destruct Ho as [? | [? _]]; [by left | by right].
  - apply onScreen_Some in He as [_ ->]. split.
    + unfold stopRecording. simpl. by repeat case_match.
    + eapply inTurn_cells; [..|by split];
        unfold stopRecording; simpl; by repeat case_match.
  - apply onScreen_Some in He as [_ ->].
    unfold toggleMute. destruct (streamRef s) as [j|] eqn:Hj; [|by split].
    split; [done|]. split.
    + intros i m. simpl. rewrite list_lookup_alter. case_decide as Hij.
      * subst. by rewrite Hj.
      * intros Hi Hm. specialize (Hl i m Hi Hm). congruence.
    + destruct Ho as [? | [_ ?]]; [by left | congruence].
  - apply onScreen_Some in He as [_ ->]. by split.
  - apply onScreen_Some in He as [_ ->]. by destruct (onDiscard p).
  - apply onScreen_Some in He as [_ ->].
    unfold handleSave. by destruct (videoUrl s).
  - destruct (pending s !! k) as [c|] eqn:Hk; simplify_eq/=.
    destruct (autoStarts c); simplify_eq.
    destruct Ho as [Hp | [[c' Hp] Href]]; [by rewrite Hp in Hk|].
    rewrite Hp in *. destruct k; [|done]. simplify_eq/=.
    split; [done|]. split; [|by left].
    intros i m. simpl.
    intros [[_ Hi] | [-> _]]%lookup_snoc_Some Hm; [|done].
    specialize (Hl i m Hi Hm). congruence.
  - destruct (pending s !! k) as [c|] eqn:Hk; simplify_eq/=.
    destruct (autoStarts c); simplify_eq.
    destruct Ho as [Hp | [[c' Hp] Href]]; [by rewrite Hp in Hk|].
    rewrite Hp in *. destruct k; [|done]. simplify_eq/=.
    split; [done|]. split; [|by left].
    intros i m. simpl.
    intros [[_ Hi] | [-> _]]%lookup_snoc_Some Hm; [|done].
    specialize (Hl i m Hi Hm). congruence.
Qed.

Lemma inTurn_flip s s' :
  inTurn s -> pending s = [] -> step p s ClickFlip = Some s' -> inTurn s'.
Proof.
  intros [Hl Ho] Hp [_ ->]%step_ClickFlip.
  assert (Hl' : liveOnlyCurrent (stopCamera (toggleCamera s))).
  { apply inTurn_no_live.
    by apply (stopCamera_releases (toggleCamera s)). }
  destruct (startCamera_releases (stopCamera (toggleCamera s)))
    as (Href & Hp' & _ & Hall).
  split.
  - apply inTurn_no_live. by apply Hall.
  - right. split; [|done]. rewrite Hp'.
    destruct (stopCamera_releases (toggleCamera s)) as (_ & -> & _).
    simpl. rewrite Hp. by eexists.
Qed.

Lemma inTurn_mount : inTurn (@mount LocationData).
Proof.
  split.
  - by intros [|i] m.
  - right. split; [by eexists | done].
Qed.

Lemma reachableInTurn_inTurn s : reachableInTurn p s -> inTurn s.
Proof.
  induction 1 as [|s e s' _ IH Hturn Hstep]; [apply inTurn_mount|].
  assert (e = ClickFlip \/ e <> ClickFlip) as [->|Hne]
    by (destruct e; (by left) || (by right)).
  - by apply (inTurn_flip s); [|apply Hturn|].
  - apply step_Some in Hstep as (new & Hnew & ->).
    destruct (inTurn_handle s e new Hne IH Hnew) as [Hf Hin].
    by apply inTurn_commit.
Qed.

Lemma runInTurn_run s es s' : runInTurn p s es = Some s' -> run p s es = Some s'.
Proof.
  revert s. induction es as [|e es IH]; intros s Hrun; simpl in *; [done|].
  destruct (isFlip e && negb (length (pending s) =? 0)%nat); [done|].
  destruct (step p s e) as [x|]; simplify_eq/=. by apply IH.
Qed.

Lemma runInTurn_reachableInTurn s es s' :
  reachableInTurn p s -> runInTurn p s es = Some s' -> reachableInTurn p s'.
Proof.
  revert s. induction es as [|e es IH]; intros s Hs Hrun; simpl in Hrun.
  - by simplify_eq.
  - destruct (isFlip e && negb (length (pending s) =? 0)%nat) eqn:Hguard;
      [done|].
    destruct (step p s e) as [x|] eqn:Hx; simplify_eq/=.
    apply (IH x); [|done].
    apply (reachableInTurn_step p s e x Hs); [|done].
    intros ->. simpl in Hguard. apply negb_false_iff, Nat.eqb_eq in Hguard.
    by destruct (pending s).
Qed.

(** As long as acquisitions do not overlap, that is in the executions where
    the facing mode is only switched while no acquisition is pending, at most
    one session is active at every instant, and none is once an acquisition
    has been rejected. *)
Lemma sessions_in_turn s :
  reachableInTurn p s ->
  (activeSessions s <= 1)%nat /\
  forall k s', step p s (Rejected k) = Some s' ->
    cameraError s' = true /\ activeSessions s' = 0%nat.
Proof.
  intros Hs. pose proof (reachableInTurn_inTurn s Hs) as [Hl Ho].
  split; [by apply liveOnlyCurrent_le|].
  intros k s' Hstep.
  assert (Hs' : reachableInTurn p s')
    by (apply (reachableInTurn_step p s (Rejected k) s' Hs); done).
  apply reachableInTurn_inTurn in Hs' as [Hl' _].
  apply step_Some in Hstep as (new & Hnew & ->). simpl in Hnew.
  destruct (pending s !! k) as [c|] eqn:Hk; simplify_eq/=.
  destruct Ho as [Hp | [_ Href]]; [by rewrite Hp in Hk|].
  rewrite commit_quiet in * by done.
  split; [done|]. by apply liveOnlyCurrent_none.
Qed.

(** ** Retrying after a camera error *)

(** C1, on the code.  The Retry button only clears [cameraError]: it issues
    no [getUserMedia] request, so nothing is pending afterwards that was not
    pending before, no session exists, and recording does not start. *)
Theorem retry_only_clears_cameraError s s' :
  step p s ClickRetry = Some s' ->
  render s = ErrorScreen /\
  s' = setCameraError false s /\
  pending s' = pending s /\
  timesCalled isGetUserMedia (trace s') = timesCalled isGetUserMedia (trace s) /\
  streamRef s' = streamRef s /\ recording s' = recording s.
Proof.
  intros (t & Ht & ->)%step_Some. simpl in Ht.
  apply onScreen_Some in Ht as [Hv ->].
  by rewrite commit_quiet.
Qed.

End Properties.

(** * Concrete executions *)

Lemma reachable_after es :
  run sample mount es = Some (after es) -> reachable sample (after es).
Proof. apply reachable_run, reachable_mount. Qed.

Lemma reachableInTurn_after es :
  runInTurn sample mount es = Some (after es) ->
  reachableInTurn sample (after es).
Proof. apply runInTurn_reachableInTurn, reachableInTurn_mount. Qed.

(** C1: the failing execution.  The first acquisition is rejected, the Error
    screen is shown, and Retry is clicked: the flag is cleared and nothing is
    requested. *)
Lemma retry_only_clears_cameraError_witness :
  render (after [Rejected 0%nat]) = ErrorScreen /\
  step sample (after [Rejected 0%nat]) ClickRetry
    = Some (after [Rejected 0%nat; ClickRetry]) /\
  cameraError (after [Rejected 0%nat; ClickRetry]) = false /\
  pending (after [Rejected 0%nat; ClickRetry]) = [] /\
  trace (after [Rejected 0%nat; ClickRetry]) = [GetUserMedia environment] /\
  streamRef (after [Rejected 0%nat; ClickRetry]) = None /\
  recording (after [Rejected 0%nat; ClickRetry]) = false /\
  render (after [Rejected 0%nat; ClickRetry]) = RecordingScreen.
Proof.
  assert (Hstep : step sample (after [Rejected 0%nat]) ClickRetry
                  = Some (after [Rejected 0%nat; ClickRetry]))
    by (vm_compute; reflexivity).
  destruct (retry_only_clears_cameraError sample _ _ Hstep)
    as (Hv & _ & _ & _ & _ & _).
  split; [exact Hv|]. split; [exact Hstep|].
  evaluate.
Defined.

(** C3 at the review screen reached by a manual stop after one second. *)
Lemma confirm_save_emits_one_artifact_witness :
  reachable sample (after (oneSecondIn ++ [ClickStop; StopEvent 0%nat])) /\
  render (after (oneSecondIn ++ [ClickStop; StopEvent 0%nat])) = ReviewScreen /\
  exists u s',
    step sample (after (oneSecondIn ++ [ClickStop; StopEvent 0%nat]))
      (ClickSave 90000 90001) = Some s' /\
    trace s' =
      trace (after (oneSecondIn ++ [ClickStop; StopEvent 0%nat])) ++
      [OnSave {| id := "VID-90000"; url := u;
                 timestamp := toISOString 90001;
                 duration := 1;
                 ev_emergencyType := "fire";
                 ev_location := (23022500, 72571400) |}].
Proof.
  assert (Hs : reachable sample
                 (after (oneSecondIn ++ [ClickStop; StopEvent 0%nat])))
    by (apply reachable_after; vm_compute; reflexivity).
  assert (Hv : render (after (oneSecondIn ++ [ClickStop; StopEvent 0%nat]))
               = ReviewScreen) by (vm_compute; reflexivity).
  destruct (confirm_save_emits_one_artifact sample _
              90000 90001 Hs Hv)
    as (u & s' & _ & Hstep & Htr & _).
  split; [exact Hs|]. split; [exact Hv|].
  exists u, s'. split; [exact Hstep | exact Htr].
Defined.

(** C5: the failing executions.  The facing mode is switched while the first
    acquisition is still pending, so two requests are in flight.  When both
    are fulfilled, two streams are live at once and only the second is
    referenced by [streamRef]: the first can never be released.  When the
    first is fulfilled and the second rejected, the Error state is entered
    with a session still active. *)
Theorem overlapping_acquisitions_leave_two_sessions :
  run sample mount [ClickFlip; Fulfilled 0%nat; Fulfilled 0%nat]
    = Some (after [ClickFlip; Fulfilled 0%nat; Fulfilled 0%nat]) /\
  activeSessions (after [ClickFlip; Fulfilled 0%nat; Fulfilled 0%nat]) = 2%nat /\
  streams (after [ClickFlip; Fulfilled 0%nat; Fulfilled 0%nat])
    = [mkStream environment true true; mkStream user true true] /\
  streamRef (after [ClickFlip; Fulfilled 0%nat; Fulfilled 0%nat]) = Some 1%nat /\
  run sample mount [ClickFlip; Fulfilled 0%nat; Rejected 0%nat]
    = Some (after [ClickFlip; Fulfilled 0%nat; Rejected 0%nat]) /\
  cameraError (after [ClickFlip; Fulfilled 0%nat; Rejected 0%nat]) = true /\
  activeSessions (after [ClickFlip; Fulfilled 0%nat; Rejected 0%nat]) = 1%nat.
Proof. evaluate. Qed.

(** C4: the failing execution.  The facing mode is switched while the first
    acquisition is still pending, so two [startCamera] calls that saw no
    recording are in flight.  The first success starts the recording; it
    runs for the full minute without a manual stop, the timer effect calls
    [stopRecording] at zero and the clip is finalized.  The second success
    then starts another recorder, because its [startCamera] call still sees
    [recording] false and [timeLeft] 60: [recording] becomes true with
    [timeLeft] at zero, and the timer effect calls [stopRecording] a second
    time, which stops the recorder just started. *)
Theorem expiry_stops_twice_after_overlap :
  run sample mount overlappedExpiry = Some (after overlappedExpiry) /\
  occurrences isStopClick overlappedExpiry = 0%nat /\
  occurrences isTick overlappedExpiry = 60%nat /\
  trace (after (overlapped ++ replicate 60 IntervalFires))
    = [GetUserMedia environment; GetUserMedia user;
       StopRecordingCalled; RecorderStop 0%nat] /\
  render (after (overlapped ++ replicate 60 IntervalFires ++ [StopEvent 0%nat]))
    = ReviewScreen /\
  timeLeft (after overlappedExpiry) = 0 /\
  recording (after overlappedExpiry) = true /\
  trace (after overlappedExpiry)
    = [GetUserMedia environment; GetUserMedia user;
       StopRecordingCalled; RecorderStop 0%nat;
       StopRecordingCalled; RecorderStop 1%nat] /\
  timesCalled isStopRecording (trace (after overlappedExpiry)) = 2%nat /\
  recorders (after overlappedExpiry)
    = [mkRecorder 0%nat Inactive; mkRecorder 1%nat Stopping].
Proof. evaluate. Qed.

(** C6 fails as stated.  Stop is clicked with 58 remaining, so the claimed
    duration is 2.  The countdown is not halted: the interval fires once more
    before the recorder's stop event is handled, and the saved artifact
    reports a duration of 3.  And when a request made before the recording
    began is still pending at the stop event, its success starts another
    recorder and the countdown resumes: stopped with 59 remaining, the timer
    ticks on to 58. *)
Lemma manual_stop_counterexample :
  run sample mount stopClicked = Some (after stopClicked) /\
  60 - timeLeft (after stopClicked) = 2 /\
  timeLeft <$> step sample (after stopClicked) IntervalFires = Some 57 /\
  last <$> (trace <$>
    run sample mount
      (stopClicked ++ [IntervalFires; StopEvent 0%nat; ClickSave 90000 90000]))
    = Some (Some (OnSave
        {| id := "VID-90000";
           url := createObjectURL (mkBlob [] "video/webm");
           timestamp := toISOString 90000;
           duration := 3;
           ev_emergencyType := "fire";
           ev_location := (23022500, 72571400) |})) /\
  run sample mount overlappedStop = Some (after overlappedStop) /\
  recording (after overlappedStop) = false /\
  timeLeft (after overlappedStop) = 59 /\
  pending (after overlappedStop) = [mkClosure user false false 60] /\
  step sample (after overlappedStop) IntervalFires = None /\
  recording <$> run sample mount (overlappedStop ++ [Fulfilled 0%nat])
    = Some true /\
  timeLeft <$>
    run sample mount (overlappedStop ++ [Fulfilled 0%nat; IntervalFires])
    = Some 58.
Proof. evaluate. Qed.

(** C7 on the review screen reached by a manual stop. *)
Lemma render_first_match_witness :
  reachable sample (after (oneSecondIn ++ [ClickStop; StopEvent 0%nat])) /\
  render (after (oneSecondIn ++ [ClickStop; StopEvent 0%nat]))
    = (if reviewMode (after (oneSecondIn ++ [ClickStop; StopEvent 0%nat]))
       then ReviewScreen
       else if cameraError (after (oneSecondIn ++ [ClickStop; StopEvent 0%nat]))
            then ErrorScreen else RecordingScreen).
Proof.
  assert (Hs : reachable sample
                 (after (oneSecondIn ++ [ClickStop; StopEvent 0%nat])))
    by (apply reachable_after; vm_compute; reflexivity).
  destruct (render_first_match sample _ Hs) as (_ & _ & _ & _ & Hfun & _).
  split; [exact Hs | exact Hfun].
Defined.

(** C9 right after mounting, when no clip exists yet. *)
Lemma handleSave_without_clip_witness :
  videoUrl (@mount (Z * Z)) = None /\
  handleSave sample 90000 90000 mount = mount.
Proof.
  assert (Hu : videoUrl (@mount (Z * Z)) = None) by (vm_compute; reflexivity).
  destruct (handleSave_without_clip sample mount 90000 90000 Hu) as (Hsame & _).
  split; [exact Hu | exact Hsame].
Defined.

(** C10 with one fragment buffered: an empty fragment delivered next is
    dropped. *)
Lemma fragments_are_non_empty_witness :
  reachable sample (after oneSecondIn) /\
  Forall (fun d => 0 < size d) (chunksRef (after oneSecondIn)) /\
  ondataavailable (mkFragment 2 0) (after oneSecondIn) = after oneSecondIn.
Proof.
  assert (Hs : reachable sample (after oneSecondIn))
    by (apply reachable_after; vm_compute; reflexivity).
  destruct (fragments_are_non_empty sample _ Hs) as (Hc & _ & Hdrop & _).
  split; [exact Hs|]. split; [exact Hc|].
  apply Hdrop. simpl. lia.
Defined.

(** * Further properties of the component *)

Section Further.

Context {LocationData : Type} (p : Props LocationData).

Local Abbreviation State := (State LocationData).

Implicit Types (s old new : State) (c : Closure) (e : Event) (d : Fragment).

(** ** Releasing the camera *)

(** X1.  [stopCamera] is idempotent and does nothing without a session; with one,
    it stops the tracks of the current stream, forgets it, and leaves every
    other stream as it is. *)
Theorem stopCamera_idempotent s :
  stopCamera (stopCamera s) = stopCamera s /\
  (streamRef s = None -> stopCamera s = s) /\
  streamRef (stopCamera s) = None /\
  length (streams (stopCamera s)) = length (streams s) /\
  (forall i m, streamRef s = Some i -> streams s !! i = Some m ->
     streams (stopCamera s) !! i = Some (stopTracks m)) /\
  (forall i j, streamRef s = Some i -> j <> i ->
     streams (stopCamera s) !! j = streams s !! j).
Proof.
  unfold stopCamera. destruct (streamRef s) as [i|] eqn:Hi; simpl.
  - split; [done|]. split; [done|]. split; [done|].
    split; [by rewrite length_alter|]. split.
    + intros ? m [= <-] Hm. by rewrite list_lookup_alter_eq, Hm.
    + intros ? j [= <-] Hne. by rewrite list_lookup_alter_ne.
  - rewrite Hi. by repeat split.
Qed.

(** ** Muting *)

Lemma flipAudio_flipAudio (m : MediaStream) : flipAudio (flipAudio m) = m.
Proof. destruct m as [f l a]. unfold flipAudio. simpl. by rewrite negb_involutive. Qed.

(** X2.  Without a session the mute button does nothing, not even to the
    indicator.  With one, it flips the audio track of the current stream and
    the indicator together, touches nothing else, and pressing it twice gives
    back the state it started from. *)
Theorem toggleMute_involutive s :
  toggleMute (toggleMute s) = s /\
  (streamRef s = None -> toggleMute s = s) /\
  unchanged s (toggleMute s) /\
  (forall i m, streamRef s = Some i -> streams s !! i = Some m ->
     isMuted (toggleMute s) = negb (isMuted s) /\
     streams (toggleMute s) !! i = Some (flipAudio m) /\
     live (flipAudio m) = live m).
Proof.
  split; [|split; [|split]].
  - unfold toggleMute. destruct s as [r t mu f ce rm vu mr ch sr st rs pe tr].
    simpl. destruct sr as [i|]; simpl; [|done].
    rewrite list_alter_alter_eq, negb_involutive.
    rewrite list_alter_id; [done|]. intros x. apply flipAudio_flipAudio.
  - unfold toggleMute. by intros ->.
  - apply toggleMute_unchanged.
  - intros i m Hi Hm. unfold toggleMute. rewrite Hi. simpl.
    by rewrite list_lookup_alter_eq, Hm.
Qed.

(** ** What a step adds to the trace *)

Lemma timerEffect_idle s : recording s = false -> timerEffect s = s.
Proof.
  intros Hr. unfold timerEffect. rewrite Hr. simpl. by rewrite andb_false_r.
Qed.

Lemma stopRecording_cases s :
  stopRecording s = called StopRecordingCalled s \/
  exists k m, mediaRecorderRef s = Some k /\ recorders s !! k = Some m /\
    state m = Recording /\
    stopRecording s =
      called (RecorderStop k)
        (setRecorderState k Stopping (called StopRecordingCalled s)).
Proof.
  unfold stopRecording. simpl.
  destruct (mediaRecorderRef s) as [k|] eqn:Hk; [|by left].
  destruct (recorders s !! k) as [m|] eqn:Hm; [|by left].
  destruct (state m) eqn:Hst; [|by left..].
  right. by exists k, m.
Qed.

Lemma stopRecording_stopCalls s :
  exists t, trace (stopRecording s) = trace s ++ t /\ stopCalls t.
Proof.
  destruct (stopRecording_cases s) as [-> | (k & m & _ & _ & _ & ->)].
  - exists [StopRecordingCalled]. split; [done|]. right. by left.
  - exists [StopRecordingCalled; RecorderStop k]. simpl.
    split; [by rewrite <- app_assoc|]. right. right. by exists k.
Qed.

Lemma timerEffect_stopCalls s :
  exists t, trace (timerEffect s) = trace s ++ t /\ stopCalls t.
Proof.
  unfold timerEffect.
  destruct (recording s && (0 <? timeLeft s));
    [exists []; split; [by rewrite app_nil_r | by left]|].
  destruct ((timeLeft s =? 0) && recording s);
    [apply stopRecording_stopCalls|].
  exists []. split; [by rewrite app_nil_r | by left].
Qed.

Lemma commit_stopCalls old new :
  facingMode new = facingMode old ->
  exists t, trace (commit old new) = trace new ++ t /\ stopCalls t.
Proof.
  intros Hf. rewrite commit_same_facing by done.
  case_match; [|apply timerEffect_stopCalls].
  exists []. split; [by rewrite app_nil_r | by left].
Qed.

(** The calls one step makes, by event. *)
Lemma step_trace s e s' :
  step p s e = Some s' ->
  exists t, trace s' = trace s ++ t /\
    match e with
    | ClickFlip => t = [GetUserMedia (opposite (facingMode s))]
    | ClickSave now date =>
        exists u, videoUrl s = Some u /\
          t = [OnSave (evidenceOf p s u (now, date))]
    | ClickDiscard => t = if onDiscard p then [OnDiscard] else []
    | ClickStop | IntervalFires | Fulfilled _ => stopCalls t
    | _ => t = []
    end.
Proof.
  intros Hstep. destruct e.
  - apply step_Some in Hstep as (new & Hnew & ->). simpl in Hnew.
    destruct (pending s !! k) as [c|]; simplify_eq/=.
    destruct (startCamera_fulfilled_stream c (set_pending (delete k (pending s)) s))
      as (Hf & _).
    destruct (commit_stopCalls s _ Hf) as (t & -> & Ht).
    exists t. split; [|done]. f_equal.
    unfold startCamera_fulfilled, startRecordingProcess. by case_match.
  - apply step_Some in Hstep as (new & Hnew & ->). simpl in Hnew.
    destruct (pending s !! k) as [c|]; simplify_eq/=.
    rewrite commit_quiet by done. exists []. by rewrite app_nil_r.
  - destruct (intervalActive s) eqn:Ha;
      [|unfold step in Hstep; simpl in Hstep; by rewrite Ha in Hstep].
    rewrite step_tick in Hstep by done. simplify_eq.
    destruct (timeLeft s =? 1).
    + apply (stopRecording_stopCalls (setTimeLeft (timeLeft s - 1) s)).
    + exists []. split; [by rewrite app_nil_r | by left].
  - apply step_Some in Hstep as (new & Hnew & ->). simpl in Hnew.
    destruct (recorders s !! r) as [m|]; simplify_eq/=.
    assert (new = ondataavailable data s) as ->
      by (destruct (state m); by simplify_eq).
    exists []. rewrite app_nil_r. split; [|done].
    rewrite commit_quiet; unfold ondataavailable; by destruct (0 <? size data).
  - apply step_Some in Hstep as (new & Hnew & ->). simpl in Hnew.
    destruct (recorders s !! r) as [m|]; simplify_eq/=.
    destruct (streams s !! source m) as [x|]; simplify_eq/=.
    destruct (state m), (live x); simplify_eq.
    rewrite commit_quiet by done. exists []. by rewrite app_nil_r.
  - apply step_Some in Hstep as (new & Hnew & ->). simpl in Hnew.
    destruct (recorders s !! r) as [m|]; simplify_eq/=.
    destruct (state m); simplify_eq.
    set (s0 := setRecorderState r Inactive s).
    assert (Hf : facingMode (onstop s0) = facingMode s)
      by (unfold onstop; by rewrite stopCamera_facing).
    assert (Hr : recording (onstop s0) = false).
    { unfold onstop.
      match goal with |- context [stopCamera ?x] =>
        by destruct (stopCamera_unchanged x) as (->&_) end. }
    assert (Htr : trace (onstop s0) = trace s).
    { unfold onstop, stopCamera. simpl. by destruct (streamRef s). }
    exists []. rewrite app_nil_r. split; [|done].
    rewrite commit_same_facing by done.
    case_match; [done|]. by rewrite timerEffect_idle.
  - apply step_ClickStop in Hstep as [_ ->].
    apply stopRecording_stopCalls.
  - apply step_Some in Hstep as (new & Hnew & ->). simpl in Hnew.
    apply onScreen_Some in Hnew as [_ ->].
    destruct (toggleMute_unchanged s) as (Hr & Ht & _).
    exists []. rewrite app_nil_r. split; [|done].
    rewrite commit_quiet; try done; unfold toggleMute; by destruct (streamRef s).
  - apply step_ClickFlip in Hstep as [_ ->].
    exists [GetUserMedia (opposite (facingMode s))]. split; [|done].
    unfold startCamera, closureOf, stopCamera, toggleCamera. simpl.
    destruct (streamRef s) eqn:Href; simpl; rewrite ?Href; simpl; done.
  - apply step_Some in Hstep as (new & Hnew & ->). simpl in Hnew.
    apply onScreen_Some in Hnew as [_ ->].
    rewrite commit_quiet by done. exists []. by rewrite app_nil_r.
  - apply step_Some in Hstep as (new & Hnew & ->). simpl in Hnew.
    apply onScreen_Some in Hnew as [_ ->].
    rewrite commit_quiet by (by destruct (onDiscard p)).
    exists (if onDiscard p then [OnDiscard] else []). split; [|done].
    destruct (onDiscard p); simpl; [done | by rewrite app_nil_r].
  - assert (Hv : render s = ReviewScreen).
    { apply step_Some in Hstep as (new & Hnew & _). simpl in Hnew.
      by apply onScreen_Some in Hnew as [? _]. }
    destruct (step_ClickSave p s now date Hv) as (u & Hu & Hsave).
    rewrite Hsave in Hstep. simplify_eq.
    exists [OnSave (evidenceOf p s u (now, date))]. split; [done|].
    by exists u.
  - apply step_Some in Hstep as (new & Hnew & ->). simpl in Hnew.
    destruct (pending s !! k) as [c|]; simplify_eq/=.
    destruct (autoStarts c); simplify_eq.
    rewrite commit_quiet by done. exists []. by rewrite app_nil_r.
  - apply step_Some in Hstep as (new & Hnew & ->). simpl in Hnew.
    destruct (pending s !! k) as [c|]; simplify_eq/=.
    destruct (autoStarts c); simplify_eq.
    rewrite commit_quiet by done. exists []. by rewrite app_nil_r.
Qed.

(** ** Calls and the events that cause them *)

Lemma stopCalls_uncounted (f : Call LocationData -> bool) t :
  stopCalls t -> f StopRecordingCalled = false ->
  (forall k, f (RecorderStop k) = false) -> timesCalled f t = 0%nat.
Proof.
  intros [-> | [-> | [k ->]]] Hs Hk; unfold timesCalled; simpl;
    by rewrite ?Hs, ?Hk.
Qed.

Lemma step_counts s e s' :
  step p s e = Some s' ->
  timesCalled isGetUserMedia (trace s') =
    (timesCalled isGetUserMedia (trace s) + occurrences isFlip [e])%nat /\
  timesCalled isOnSave (trace s') =
    (timesCalled isOnSave (trace s) + occurrences isSaveClick [e])%nat /\
  timesCalled isOnDiscard (trace s') =
    (timesCalled isOnDiscard (trace s)
     + if onDiscard p then occurrences isDiscardClick [e] else 0)%nat.
Proof.
  intros (t & -> & Ht)%step_trace. rewrite !timesCalled_app.
  destruct e; simpl in Ht;
    try (rewrite !(stopCalls_uncounted _ t) by done; by destruct (onDiscard p));
    try (subst t; by destruct (onDiscard p)).
  destruct Ht as (u & _ & ->). by destruct (onDiscard p).
Qed.

Lemma occurrences_cons f e es :
  occurrences f (e :: es) = (occurrences f [e] + occurrences f es)%nat.
Proof. unfold occurrences. simpl. by destruct (f e). Qed.

Lemma run_counts s es s' :
  run p s es = Some s' ->
  timesCalled isGetUserMedia (trace s') =
    (timesCalled isGetUserMedia (trace s) + occurrences isFlip es)%nat /\
  timesCalled isOnSave (trace s') =
    (timesCalled isOnSave (trace s) + occurrences isSaveClick es)%nat /\
  timesCalled isOnDiscard (trace s') =
    (timesCalled isOnDiscard (trace s)
     + if onDiscard p then occurrences isDiscardClick es else 0)%nat.
Proof.
  revert s. induction es as [|e es IH]; intros s Hrun; simpl in Hrun.
  - simplify_eq. unfold occurrences. simpl. destruct (onDiscard p); lia.
  - destruct (step p s e) as [x|] eqn:Hx; simplify_eq/=.
    destruct (step_counts s e x Hx) as (Hg & Hv & Hd).
    destruct (IH x Hrun) as (Hg' & Hv' & Hd').
    rewrite (occurrences_cons isFlip), (occurrences_cons isSaveClick),
      (occurrences_cons isDiscardClick).
    rewrite Hg', Hv', Hd', Hg, Hv, Hd. destruct (onDiscard p); lia.
Qed.

(** X3.  The camera is requested once at mount and once more for every facing
    switch, and by nothing else: not by Retry, not by a failure, not by the
    end of a recording. *)
Theorem getUserMedia_once_per_switch es s :
  run p mount es = Some s ->
  timesCalled isGetUserMedia (trace s) = S (occurrences isFlip es).
Proof. intros (-> & _)%run_counts. done. Qed.

(** X4.  The callbacks of the caller are invoked by the two review buttons only:
    [onSave] once per Confirm-Save click, [onDiscard] once per Discard click
    when it was supplied and never otherwise.  A discard never saves. *)
Theorem callbacks_once_per_click es s :
  run p mount es = Some s ->
  timesCalled isOnSave (trace s) = occurrences isSaveClick es /\
  timesCalled isOnDiscard (trace s) =
    (if onDiscard p then occurrences isDiscardClick es else 0%nat).
Proof. intros (_ & -> & ->)%run_counts. done. Qed.

(** ** Elapsed time *)

Lemma step_ticks s e s' :
  step p s e = Some s' ->
  timeLeft s' = timeLeft s - Z.of_nat (occurrences isTick [e]).
Proof.
  intros Hstep.
  assert (e = IntervalFires \/ occurrences isTick [e] = 0%nat) as [-> | Hno]
    by (destruct e; (by left) || (by right)).
  - destruct (intervalActive s) eqn:Ha;
      [|unfold step in Hstep; simpl in Hstep; by rewrite Ha in Hstep].
    rewrite step_tick in Hstep by done. simplify_eq.
    unfold occurrences. simpl. destruct (timeLeft s =? 1); [|simpl; lia].
    destruct (stopRecording_unchanged (setTimeLeft (timeLeft s - 1) s))
      as (_ & -> & _). simpl. lia.
  - rewrite Hno.
    destruct (step_timeLeft p s e s' Hstep) as [-> | (-> & _)]; [lia|].
    by unfold occurrences in Hno.
Qed.

Lemma run_ticks s es s' :
  run p s es = Some s' ->
  timeLeft s' = timeLeft s - Z.of_nat (occurrences isTick es).
Proof.
  revert s. induction es as [|e es IH]; intros s Hrun; simpl in Hrun.
  - simplify_eq. unfold occurrences. simpl. lia.
  - destruct (step p s e) as [x|] eqn:Hx; simplify_eq/=.
    rewrite (IH x Hrun), (occurrences_cons isTick), (step_ticks s e x Hx). lia.
Qed.

(** X5.  The remaining time is 60 minus the number of interval ticks since mount,
    so the duration stamped on an artifact is the number of ticks that have
    fired. *)
Theorem duration_counts_ticks es s :
  run p mount es = Some s ->
  timeLeft s = 60 - Z.of_nat (occurrences isTick es) /\
  forall now date s', step p s (ClickSave now date) = Some s' ->
    exists v, last (trace s') = Some (OnSave v) /\
      duration v = Z.of_nat (occurrences isTick es).
Proof.
  intros Hrun. pose proof (run_ticks _ _ _ Hrun) as Ht. simpl in Ht.
  split; [done|]. intros now date s' (t & -> & u & _ & ->)%step_trace.
  eexists. split; [apply last_snoc|]. simpl. lia.
Qed.

(** X6.  From a recording state with enough time left, [n] ticks fire in a row:
    each takes one unit off, recording stays on until the stop event, and
    [stopRecording] is called by the tick that reaches zero and by no other.
    More ticks than time left cannot fire. *)
Theorem countdown_ticks s n :
  recording s = true -> 0 <= timeLeft s ->
  (Z.of_nat n <= timeLeft s ->
     exists s', run p s (replicate n IntervalFires) = Some s' /\
       timeLeft s' = timeLeft s - Z.of_nat n /\ recording s' = true /\
       timesCalled isStopRecording (trace s') =
         (timesCalled isStopRecording (trace s)
          + if (0 <? Z.of_nat n)%Z && (timeLeft s =? Z.of_nat n)%Z
            then 1 else 0)%nat) /\
  (timeLeft s < Z.of_nat n -> run p s (replicate n IntervalFires) = None).
Proof.
  revert s. induction n as [|n IH]; intros s Hr H0.
  - split; [|lia]. intros _. exists s. simpl. split; [done|].
    split; [lia|]. split; [done|]. lia.
  - simpl replicate. simpl run.
    destruct (decide (0 < timeLeft s)) as [Hpos|Hneg].
    2:{ split; [lia|]. intros _. unfold step. simpl. unfold intervalActive.
        rewrite Hr. simpl. by rewrite (proj2 (Z.ltb_ge 0 (timeLeft s))) by lia. }
    rewrite step_tick by (apply intervalActive_true; by split).
    set (x := if timeLeft s =? 1
              then stopRecording (setTimeLeft (timeLeft s - 1) s)
              else setTimeLeft (timeLeft s - 1) s).
    assert (Hx : recording x = true /\ timeLeft x = timeLeft s - 1 /\
                 timesCalled isStopRecording (trace x) =
                   (timesCalled isStopRecording (trace s)
                    + if (timeLeft s =? 1)%Z then 1 else 0)%nat).
    { subst x. destruct (timeLeft s =? 1).
      - destruct (stopRecording_unchanged (setTimeLeft (timeLeft s - 1) s))
          as (-> & -> & _).
        rewrite stopRecording_counted. simpl. split; [done|]. split; [done|]. lia.
      - simpl. split; [done|]. split; [done|]. lia. }
    destruct Hx as (Hrx & Htx & Hcx). simpl.
    destruct (IH x Hrx ltac:(lia)) as [Hok Hno]. split.
    + intros Hle. destruct Hok as (s' & Hrun & Ht' & Hr' & Hc'); [lia|].
      exists s'. split; [done|]. split; [lia|]. split; [done|].
      rewrite Hc', Hcx, Htx.
      repeat match goal with
      | |- context [(?a =? ?b)%Z] => destruct (Z.eqb_spec a b)
      | |- context [(?a <? ?b)%Z] => destruct (Z.ltb_spec a b)
      end; simpl; lia.
    + intros Hlt. apply Hno. lia.
Qed.

(** ** Review *)

(** Only the stop event of a recorder changes [reviewMode] and [videoUrl]. *)
Lemma step_review s e s' :
  step p s e = Some s' ->
  (reviewMode s' = reviewMode s /\ videoUrl s' = videoUrl s) \/
  (exists r, e = StopEvent r /\ reviewMode s' = true /\
     videoUrl s' = Some (createObjectURL (mkBlob (chunksRef s) "video/webm"))).
Proof.
  intros Hstep.
  assert ((exists r, e = StopEvent r) \/ forall r, e <> StopEvent r)
    as [[r ->] | Hne] by (destruct e; (left; by eexists) || (by right)).
  { right. exists r. destruct (step_StopEvent p _ _ _ Hstep) as (-> & -> & _).
    done. }
  left. apply step_Some in Hstep as (new & Hnew & ->).
  destruct (commit_cells s new) as (_ & _ & -> & -> & _).
  destruct e; simpl in Hnew.
  - destruct (pending s !! k) as [c|]; simplify_eq/=.
    unfold startCamera_fulfilled, startRecordingProcess. by case_match.
  - destruct (pending s !! k) as [c|]; by simplify_eq/=.
  - destruct (intervalActive s); by simplify_eq.
  - destruct (recorders s !! r) as [m|]; simplify_eq/=.
    assert (new = ondataavailable data s) as ->
      by (destruct (state m); by simplify_eq).
    unfold ondataavailable. by destruct (0 <? size data).
  - destruct (recorders s !! r) as [m|]; simplify_eq/=.
    destruct (streams s !! source m) as [x|]; simplify_eq/=.
    destruct (state m), (live x); by simplify_eq.
  - by destruct (Hne r).
  - apply onScreen_Some in Hnew as [_ ->].
    by destruct (stopRecording_unchanged s) as (_ & _ & -> & -> & _).
  - apply onScreen_Some in Hnew as [_ ->].
    by destruct (toggleMute_unchanged s) as (_ & _ & -> & -> & _).
  - by apply onScreen_Some in Hnew as [_ ->].
  - by apply onScreen_Some in Hnew as [_ ->].
  - apply onScreen_Some in Hnew as [_ ->]. by destruct (onDiscard p).
  - apply onScreen_Some in Hnew as [_ ->].
    by destruct (handleSave_unchanged p now date s) as (_ & _ & -> & -> & _).
  - destruct (pending s !! k) as [c|]; simplify_eq/=.
    destruct (autoStarts c); by simplify_eq.
  - destruct (pending s !! k) as [c|]; simplify_eq/=.
    destruct (autoStarts c); by simplify_eq.
Qed.

Lemma review_step s e s' :
  render s = ReviewScreen -> step p s e = Some s' ->
  render s' = ReviewScreen /\ isFlip e = false.
Proof.
  intros Hv Hstep. split.
  - apply render_review in Hv as [Hm Hu]. apply render_review.
    destruct (step_review s e s' Hstep) as [[-> ->] | (r & _ & -> & ->)];
      [done | by split].
  - destruct e; try done.
    apply step_ClickFlip in Hstep as [Hrec _]. congruence.
Qed.

(** X7.  The review screen is final: whatever happens afterwards the review
    screen stays, the facing mode cannot be switched any more, and the camera
    is never requested again. *)
Theorem review_is_final s es s' :
  render s = ReviewScreen -> run p s es = Some s' ->
  render s' = ReviewScreen /\
  occurrences isFlip es = 0%nat /\
  timesCalled isGetUserMedia (trace s') = timesCalled isGetUserMedia (trace s).
Proof.
  intros Hv Hrun.
  assert (Hboth : render s' = ReviewScreen /\ occurrences isFlip es = 0%nat).
  { revert s Hv Hrun. induction es as [|e es IH]; intros s Hv Hrun;
      simpl in Hrun.
    - by simplify_eq.
    - destruct (step p s e) as [x|] eqn:Hx; simplify_eq/=.
      destruct (review_step s e x Hv Hx) as [Hvx Hfe].
      destruct (IH x Hvx Hrun) as [Hv' Hn]. split; [done|].
      rewrite occurrences_cons, Hn. unfold occurrences. simpl. by rewrite Hfe. }
  destruct Hboth as [Hv' Hn]. split; [done|]. split; [done|].
  destruct (run_counts s es s' Hrun) as (-> & _). rewrite Hn. lia.
Qed.

(** X8.  Confirm-Save has no guard against repetition: clicked [n] times on the
    review screen it calls [onSave] [n] times, each time with the same clip
    and the same duration, and changes nothing but the trace. *)
Theorem repeated_save s (clocks : list (Z * Z)) :
  render s = ReviewScreen ->
  exists u s',
    videoUrl s = Some u /\
    run p s (map (fun k => ClickSave k.1 k.2) clocks) = Some s' /\
    trace s' = trace s ++ map (fun k => OnSave (evidenceOf p s u k)) clocks /\
    timeLeft s' = timeLeft s /\ videoUrl s' = videoUrl s /\
    render s' = ReviewScreen.
Proof.
  intros Hv. pose proof Hv as [_ [u Hu]]%render_review. exists u.
  assert (Hgen : forall s0,
            render s0 = ReviewScreen -> videoUrl s0 = Some u ->
            timeLeft s0 = timeLeft s ->
            exists s',
              run p s0 (map (fun k => ClickSave k.1 k.2) clocks) = Some s' /\
              trace s' = trace s0 ++ map (fun k => OnSave (evidenceOf p s u k)) clocks /\
              timeLeft s' = timeLeft s /\ videoUrl s' = Some u /\
              render s' = ReviewScreen).
  { clear Hv Hu. induction clocks as [|k ks IH]; intros s0 Hv0 Hu0 Ht0.
    - exists s0. simpl. by rewrite app_nil_r.
    - simpl.
      destruct (step_ClickSave p s0 k.1 k.2 Hv0) as (u' & Hu' & ->). simpl.
      assert (u' = u) as -> by congruence.
      destruct (IH (called (OnSave (evidenceOf p s0 u (k.1, k.2))) s0))
        as (s' & Hrun & Htr & Ht' & Hu'' & Hv'); try done.
      exists s'. split; [exact Hrun|]. split; [|done].
      rewrite Htr. simpl. rewrite <- app_assoc. simpl.
      unfold evidenceOf. simpl. by rewrite Ht0. }
  destruct (Hgen s Hv Hu eq_refl) as (s' & Hrun & Htr & Ht & Hu' & Hv').
  exists s'. by rewrite Hu.
Qed.

(** ** Saved artifacts *)

Lemma reachable_webm s u :
  reachable p s -> videoUrl s = Some u -> type (target u) = "video/webm".
Proof.
  intros Hs. revert u. induction Hs as [|s e s' _ IH Hstep]; intros u Hu.
  - done.
  - destruct (step_review s e s' Hstep) as [[_ Hsame] | (r & _ & _ & Hnew)].
    + apply IH. congruence.
    + rewrite Hnew in Hu. by simplify_eq.
Qed.

(** X9.  Every artifact ever handed to [onSave] is well formed: its id is
    ["VID-"] followed by a clock reading, its duration lies between 0 and 60,
    its emergency type and location are the component inputs, and its url
    denotes a [video/webm] blob made of non-empty fragments only. *)
Theorem saved_artifacts_well_formed s :
  reachable p s ->
  forall v, OnSave v ∈ trace s -> wellFormed p v.
Proof.
  intros Hs.
  assert (Hall : Forall (savedWellFormed p) (trace s)).
  { induction Hs as [|s e s' Hs IH Hstep]; [by repeat constructor|].
    destruct (step_trace s e s' Hstep) as (t & -> & Ht).
    apply Forall_app. split; [done|].
    assert (Hstop : stopCalls t -> Forall (savedWellFormed p) t).
    { intros [-> | [-> | [k ->]]]; by repeat constructor. }
    destruct e; simpl in Ht; try (by apply Hstop); try (subst t; by repeat constructor).
    - subst t. destruct (onDiscard p); by repeat constructor.
    - destruct Ht as (u & Hu & ->). constructor; [|constructor]. simpl.
      pose proof (reachable_Inv p s Hs) as [Htl _ _ _ _ _ Hclip].
      unfold wellFormed, evidenceOf. simpl.
      split; [by exists now|]. split; [lia|]. split; [done|]. split; [done|].
      split; [by apply (reachable_webm s)|]. by apply Hclip. }
  intros v Hv. rewrite Forall_forall in Hall. apply (Hall _ Hv).
Qed.

(** ** Fragments *)

Lemma step_DataAvailable s k m d :
  recorders s !! k = Some m -> state m <> Inactive ->
  step p s (DataAvailable k d) = Some (ondataavailable d s).
Proof.
  intros Hk Hst. unfold step. simpl. rewrite Hk. simpl.
  assert (Hq : commit s (ondataavailable d s) = ondataavailable d s)
    by (apply commit_quiet; unfold ondataavailable; by destruct (0 <? size d)).
  destruct (state m); simpl; by rewrite ?Hq.
Qed.

(** X10.  Fragments delivered by a recorder that has not delivered its stop event
    are buffered in delivery order, the empty ones left out, and nothing
    else changes; the stop event then finalizes a clip of exactly the
    buffered fragments in that order. *)
Theorem fragments_in_delivery_order s k m (ds : list Fragment) :
  recorders s !! k = Some m -> state m <> Inactive ->
  exists s',
    run p s (map (DataAvailable k) ds) = Some s' /\
    chunksRef s' = chunksRef s ++ List.filter (fun d => 0 <? size d) ds /\
    recorders s' = recorders s /\ timeLeft s' = timeLeft s /\
    recording s' = recording s /\ trace s' = trace s /\
    forall s'', step p s' (StopEvent k) = Some s'' ->
      videoUrl s'' =
        Some (createObjectURL
                (mkBlob (chunksRef s ++ List.filter (fun d => 0 <? size d) ds)
                   "video/webm")).
Proof.
  intros Hk Hst.
  assert (Hgen : forall s0, recorders s0 = recorders s ->
            exists s',
              run p s0 (map (DataAvailable k) ds) = Some s' /\
              chunksRef s' = chunksRef s0 ++ List.filter (fun d => 0 <? size d) ds /\
              recorders s' = recorders s /\ timeLeft s' = timeLeft s0 /\
              recording s' = recording s0 /\ trace s' = trace s0).
  { induction ds as [|d ds IH]; intros s0 Hrs.
    - exists s0. simpl. by rewrite app_nil_r.
    - simpl. rewrite (step_DataAvailable s0 k m d) by (by rewrite ?Hrs). simpl.
      destruct (IH (ondataavailable d s0)) as (s' & Hrun & Hc & Hr' & Ht & Hrec & Htr).
      { unfold ondataavailable. by destruct (0 <? size d). }
      exists s'. split; [done|].
      unfold ondataavailable in *. destruct (0 <? size d); simpl in *;
        rewrite ?Hc, ?Ht, ?Hrec, ?Htr, <- ?app_assoc; done. }
  destruct (Hgen s eq_refl) as (s' & Hrun & Hc & Hr & Ht & Hrec & Htr).
  exists s'. repeat (split; [done|]).
  intros s'' (Hu & _)%step_StopEvent. by rewrite Hu, Hc.
Qed.

(** ** The end of a recording *)

Lemma released_step s e s' :
  released s -> step p s e = Some s' -> released s'.
Proof.
  intros (Hp & Hv & Href & Hdead) Hstep.
  destruct (review_step s e s' Hv Hstep) as [Hv' _].
  apply step_Some in Hstep as (new & Hnew & ->).
  assert (Hoff : forall v x, v <> ReviewScreen -> onScreen v s x = None).
  { intros v x Hne. unfold onScreen. rewrite decide_False; [done|congruence]. }
  assert (Hsame : facingMode new = facingMode s -> pending new = pending s ->
            streamRef new = streamRef s -> streams new = streams s ->
            released (commit s new)).
  { intros Hf Hp' Href' Hstr'.
    destruct (commit_camera s new Hf) as (_&_&Hr&Hst&_&Hpc&_).
    unfold released. by rewrite Hr, Hst, Hpc, Hp', Href', Hstr'. }
  destruct e; simpl in Hnew.
  - by rewrite Hp in Hnew.
  - by rewrite Hp in Hnew.
  - destruct (intervalActive s); simplify_eq. by apply Hsame.
  - destruct (recorders s !! r) as [m|]; simplify_eq/=.
    assert (new = ondataavailable data s) as ->
      by (destruct (state m); by simplify_eq).
    apply Hsame; unfold ondataavailable; by destruct (0 <? size data).
  - destruct (recorders s !! r) as [m|]; simplify_eq/=.
    destruct (streams s !! source m) as [x|]; simplify_eq/=.
    destruct (state m), (live x); simplify_eq. by apply Hsame.
  - destruct (recorders s !! r) as [m|]; simplify_eq/=.
    destruct (state m); simplify_eq.
    apply Hsame; unfold onstop, stopCamera; simpl; by rewrite Href.
  - by rewrite Hoff in Hnew.
  - by rewrite Hoff in Hnew.
  - by rewrite Hoff in Hnew.
  - by rewrite Hoff in Hnew.
  - apply onScreen_Some in Hnew as [_ ->].
    apply Hsame; by destruct (onDiscard p).
  - apply onScreen_Some in Hnew as [_ ->].
    apply Hsame; unfold handleSave; by destruct (videoUrl s).
  - by rewrite Hp in Hnew.
  - by rewrite Hp in Hnew.
Qed.

Lemma released_run s es s' :
  released s -> run p s es = Some s' -> released s'.
Proof.
  revert s. induction es as [|e es IH]; intros s Hrel Hrun; simpl in Hrun.
  - by simplify_eq.
  - destruct (step p s e) as [x|] eqn:Hx; simplify_eq/=.
    eapply IH; [|done]. by eapply released_step.
Qed.

(** X11.  Handling a recorder's stop event shows the review screen and releases
    the camera: no stream is referenced any more and the one that was is
    stopped.  When acquisitions have not overlapped, no session at all is
    active at that instant; if moreover no acquisition is pending at that
    instant, none is active in any later state either. *)
Theorem stop_event_releases_camera s r s' :
  step p s (StopEvent r) = Some s' ->
  render s' = ReviewScreen /\ recording s' = false /\
  streamRef s' = None /\
  (forall i m, streamRef s = Some i -> streams s' !! i = Some m ->
     live m = false) /\
  (reachableInTurn p s -> activeSessions s' = 0%nat) /\
  (reachableInTurn p s -> pending s = [] ->
   forall es s'', run p s' es = Some s'' ->
     render s'' = ReviewScreen /\ streamRef s'' = None /\
     pending s'' = [] /\ activeSessions s'' = 0%nat).
Proof.
  intros Hstep.
  destruct (step_StopEvent p _ _ _ Hstep) as (Hu & Hm & Hr & _ & Hp).
  assert (Href : streamRef s' = None /\
                 forall i m, streamRef s = Some i -> streams s' !! i = Some m ->
                   live m = false).
  { apply step_Some in Hstep as (new & Hnew & ->). simpl in Hnew.
    destruct (recorders s !! r) as [x|]; simplify_eq/=.
    destruct (state x); simplify_eq.
    set (s0 := setRecorderState r Inactive s).
    assert (Hf : facingMode (onstop s0) = facingMode s)
      by (unfold onstop; by rewrite stopCamera_facing).
    destruct (commit_camera s (onstop s0) Hf) as (_ & _ & -> & -> & _).
    unfold onstop.
    match goal with |- context [stopCamera ?y] =>
      destruct (stopCamera_releases y) as (Hnone & _ & Hcur & _) end.
    split; [done|]. intros i m Hi. by apply Hcur. }
  destruct Href as [Hnone Hcur].
  assert (Hv : render s' = ReviewScreen)
    by (apply render_review; by rewrite Hm, Hu).
  split; [done|]. split; [done|]. split; [done|]. split; [done|].
  assert (Hl : reachableInTurn p s -> liveOnlyCurrent s').
  { intros Hs.
    assert (Hs' : reachableInTurn p s')
      by (apply (reachableInTurn_step p s (StopEvent r) s' Hs); done).
    by apply (reachableInTurn_inTurn p) in Hs' as [Hl _]. }
  split; [intros Hs; apply liveOnlyCurrent_none; [by apply Hl | done]|].
  intros Hs Hnil es s'' Hrun.
  assert (Hrel : released s').
  { unfold released. rewrite Hp. repeat (split; [done|]).
    intros i m Hi. destruct (live m) eqn:Hlive; [|done].
    pose proof (Hl Hs i m Hi Hlive). congruence. }
  destruct (released_run s' es s'' Hrel Hrun) as (Hp'' & Hv'' & Href'' & Hdead).
  repeat (split; [done|]).
  unfold activeSessions. by rewrite filter_live_nil.
Qed.

(** ** References *)

Lemma refsValid_cells s s' :
  streams s' = streams s -> streamRef s' = streamRef s ->
  length (recorders s') = length (recorders s) ->
  mediaRecorderRef s' = mediaRecorderRef s -> recording s' = recording s ->
  refsValid s -> refsValid s'.
Proof.
  intros Hst Hsr Hrs Hmr Hr (HA & HB & HC). unfold refsValid.
  by rewrite Hst, Hsr, Hrs, Hmr, Hr.
Qed.

Lemma refsValid_stopCamera s : refsValid s -> refsValid (stopCamera s).
Proof.
  intros Hv. pose proof Hv as (HA & HB & HC). unfold stopCamera.
  destruct (streamRef s) as [i|] eqn:Hi; [|done].
  by repeat split.
Qed.

Lemma refsValid_stopRecording s : refsValid s -> refsValid (stopRecording s).
Proof.
  apply refsValid_cells; unfold stopRecording; simpl;
    repeat case_match; simpl; by rewrite ?length_alter.
Qed.

Lemma refsValid_timerEffect s : refsValid s -> refsValid (timerEffect s).
Proof.
  unfold timerEffect. repeat case_match; try done.
  apply refsValid_stopRecording.
Qed.

Lemma refsValid_startCamera s : refsValid s -> refsValid (startCamera s).
Proof.
  intros Hv%refsValid_stopCamera. revert Hv. by apply refsValid_cells.
Qed.

Lemma refsValid_commit old new : refsValid new -> refsValid (commit old new).
Proof.
  intros Hv. unfold commit.
  set (x := if decide (facingMode old = facingMode new) then new
            else startCamera (stopCamera new)).
  assert (Hx : refsValid x).
  { subst x. case_decide; [done|].
    by apply refsValid_startCamera, refsValid_stopCamera. }
  case_match; [done | by apply refsValid_timerEffect].
Qed.

Lemma refsValid_handle s e new :
  refsValid s -> handle p e s = Some new -> refsValid new.
Proof.
  intros Hv He. pose proof Hv as (HA & HB & HC). destruct e; simpl in He.
  - destruct (pending s !! k) as [c|]; simplify_eq/=.
    unfold startCamera_fulfilled, startRecordingProcess.
    case_match; unfold refsValid; simpl.
    + split; [|split].
      * intros i [= <-]. eexists. split; [by apply list_lookup_middle | done].
      * intros r [= <-]. rewrite length_app. simpl. lia.
      * by eexists.
    + split; [|done].
      intros i [= <-]. eexists. split; [by apply list_lookup_middle | done].
  - destruct (pending s !! k) as [c|]; by simplify_eq/=.
  - destruct (intervalActive s); by simplify_eq.
  - destruct (recorders s !! r) as [m|]; simplify_eq/=.
    assert (new = ondataavailable data s) as ->
      by (destruct (state m); by simplify_eq).
    unfold ondataavailable. by destruct (0 <? size data).
  - destruct (recorders s !! r) as [m|]; simplify_eq/=.
    destruct (streams s !! source m) as [x|]; simplify_eq/=.
    destruct (state m), (live x); simplify_eq.
    revert Hv. apply refsValid_cells; simpl; by rewrite ?length_alter.
  - destruct (recorders s !! r) as [m|]; simplify_eq/=.
    destruct (state m); simplify_eq.
    unfold onstop. apply refsValid_stopCamera.
    unfold refsValid. simpl. rewrite length_alter. by repeat split.
  - apply onScreen_Some in He as [_ ->]. by apply refsValid_stopRecording.
  - apply onScreen_Some in He as [_ ->]. unfold toggleMute.
    destruct (streamRef s) as [i|] eqn:Hi; [|done].
    unfold refsValid. simpl. rewrite Hi. split; [|done].
    intros ? [= <-]. destruct (HA i eq_refl) as (m & Hm & Hl).
    exists (flipAudio m). by rewrite list_lookup_alter_eq, Hm.
  - by apply onScreen_Some in He as [_ ->].
  - by apply onScreen_Some in He as [_ ->].
  - apply onScreen_Some in He as [_ ->]. by destruct (onDiscard p).
  - apply onScreen_Some in He as [_ ->].
    unfold handleSave. by destruct (videoUrl s).
  - destruct (pending s !! k) as [c|]; simplify_eq/=.
    destruct (autoStarts c); simplify_eq.
    unfold refsValid. simpl. split; [|done].
    intros i [= <-]. eexists. split; [by apply list_lookup_middle | done].
  - destruct (pending s !! k) as [c|]; simplify_eq/=.
    destruct (autoStarts c); simplify_eq.
    unfold refsValid. simpl. split; [|split].
    + intros i [= <-]. eexists. split; [by apply list_lookup_middle | done].
    + intros r [= <-]. rewrite length_app. simpl. lia.
    + intros _. by eexists.
Qed.

(** X12.  The references never dangle: whenever [streamRef] is set it points to a
    stream whose tracks are live, [mediaRecorderRef] always points to an
    existing recorder, and there is a recorder whenever [recording] is set. *)
Theorem references_never_dangle s :
  reachable p s ->
  (forall i, streamRef s = Some i ->
     exists m, streams s !! i = Some m /\ live m = true) /\
  (forall r, mediaRecorderRef s = Some r -> (r < length (recorders s))%nat) /\
  (recording s = true -> is_Some (mediaRecorderRef s)).
Proof.
  induction 1 as [|s e s' _ IH Hstep].
  - by repeat split.
  - apply step_Some in Hstep as (new & Hnew & ->).
    apply refsValid_commit. by eapply refsValid_handle.
Qed.

(** ** Stopping a recorder *)

Lemma stoppedOnce_same s s' :
  recorders s' = recorders s -> trace s' = trace s ->
  stoppedOnce s -> stoppedOnce s'.
Proof. intros Hr Ht Hs. unfold stoppedOnce. by rewrite Hr, Ht. Qed.

Lemma stoppedOnce_called (c : Call LocationData) s :
  isRecorderStop c = false -> stoppedOnce s -> stoppedOnce (called c s).
Proof.
  intros Hc Hs k. simpl. rewrite timesCalled_app.
  assert (timesCalled (isStopOf k) [c] = 0%nat) as ->
    by (by destruct c).
  rewrite Nat.add_0_r. apply Hs.
Qed.

Lemma stoppedOnce_setRecorderState s k st :
  st <> Recording -> stoppedOnce s -> stoppedOnce (setRecorderState k st s).
Proof.
  intros Hst Hs j. destruct (Hs j) as (H1 & H2 & H3). simpl.
  split; [done|]. rewrite list_lookup_alter. case_decide as Hkj.
  - subst. destruct (recorders s !! j) as [m|]; simpl.
    + split; [|done]. intros ? [= <-]. simpl. congruence.
    + split; [done | by intros _; apply H3].
  - by split.
Qed.

Lemma stoppedOnce_startRecordingProcess s i :
  stoppedOnce s -> stoppedOnce (startRecordingProcess i s).
Proof.
  intros Hs j. destruct (Hs j) as (H1 & H2 & H3). simpl.
  split; [done|]. split.
  - intros m [[_ Hj] | [-> _]]%lookup_snoc_Some Hm; [by eapply H2|].
    apply H3. by apply lookup_ge_None_2.
  - intros Hj. apply H3. apply lookup_ge_None in Hj. apply lookup_ge_None.
    rewrite length_app in Hj. simpl in Hj. lia.
Qed.

Lemma stoppedOnce_append s (x : MediaRecorder) :
  stoppedOnce s -> stoppedOnce (set_recorders (recorders s ++ [x]) s).
Proof.
  intros Hs j. destruct (Hs j) as (H1 & H2 & H3). simpl.
  split; [done|]. split.
  - intros m [[_ Hj] | [-> _]]%lookup_snoc_Some Hm; [by eapply H2|].
    apply H3. by apply lookup_ge_None_2.
  - intros Hj. apply H3. apply lookup_ge_None in Hj. apply lookup_ge_None.
    rewrite length_app in Hj. simpl in Hj. lia.
Qed.

Lemma stoppedOnce_stopRecording s : stoppedOnce s -> stoppedOnce (stopRecording s).
Proof.
  intros Hs.
  destruct (stopRecording_cases s) as [-> | (k & m & _ & Hk & Hst & ->)];
    [by apply stoppedOnce_called|].
  intros j. destruct (Hs j) as (H1 & H2 & H3). simpl.
  rewrite !timesCalled_app.
  assert (timesCalled (isStopOf j) [@StopRecordingCalled LocationData] = 0%nat)
    as -> by done.
  assert (timesCalled (isStopOf j) [@RecorderStop LocationData k]
          = if decide (k = j) then 1%nat else 0%nat) as ->.
  { unfold timesCalled. simpl.
    destruct (Nat.eqb_spec k j); case_decide; done. }
  rewrite list_lookup_alter. case_decide as Hkj.
  - subst. rewrite Hk. simpl. rewrite (H2 m Hk Hst).
    split; [lia|]. split; [|done]. intros ? [= <-]. by simpl.
  - rewrite !Nat.add_0_r. by split.
Qed.

Lemma stoppedOnce_timerEffect s : stoppedOnce s -> stoppedOnce (timerEffect s).
Proof.
  unfold timerEffect. repeat case_match; try done.
  apply stoppedOnce_stopRecording.
Qed.

Lemma stoppedOnce_stopCamera s : stoppedOnce s -> stoppedOnce (stopCamera s).
Proof.
  apply stoppedOnce_same; unfold stopCamera; by destruct (streamRef s).
Qed.

Lemma stoppedOnce_commit old new : stoppedOnce new -> stoppedOnce (commit old new).
Proof.
  intros Hs. unfold commit.
  set (x := if decide (facingMode old = facingMode new) then new
            else startCamera (stopCamera new)).
  assert (Hx : stoppedOnce x).
  { subst x. case_decide; [done|]. unfold startCamera.
    match goal with |- stoppedOnce (set_pending _ (called ?c ?y)) =>
      apply (stoppedOnce_same (called c y)); [done..|];
      apply stoppedOnce_called; [done|] end.
    apply (stoppedOnce_same (stopCamera (stopCamera new))); [done..|].
    by do 2 apply stoppedOnce_stopCamera. }
  case_match; [done | by apply stoppedOnce_timerEffect].
Qed.

Lemma stoppedOnce_handle s e new :
  stoppedOnce s -> handle p e s = Some new -> stoppedOnce new.
Proof.
  intros Hs He. destruct e; simpl in He.
  - destruct (pending s !! k) as [c|]; simplify_eq/=.
    unfold startCamera_fulfilled. case_match.
    + apply stoppedOnce_startRecordingProcess. revert Hs.
      by apply stoppedOnce_same.
    + revert Hs. by apply stoppedOnce_same.
  - destruct (pending s !! k) as [c|]; simplify_eq/=.
    revert Hs. by apply stoppedOnce_same.
  - destruct (intervalActive s); simplify_eq.
    revert Hs. by apply stoppedOnce_same.
  - destruct (recorders s !! r) as [m|]; simplify_eq/=.
    assert (new = ondataavailable data s) as ->
      by (destruct (state m); by simplify_eq).
    revert Hs. apply stoppedOnce_same;
      unfold ondataavailable; by destruct (0 <? size data).
  - destruct (recorders s !! r) as [m|]; simplify_eq/=.
    destruct (streams s !! source m) as [x|]; simplify_eq/=.
    destruct (state m), (live x); simplify_eq.
    by apply stoppedOnce_setRecorderState.
  - destruct (recorders s !! r) as [m|]; simplify_eq/=.
    destruct (state m); simplify_eq.
    unfold onstop. apply stoppedOnce_stopCamera.
    match goal with |- stoppedOnce ?y =>
      apply (stoppedOnce_same (setRecorderState r Inactive s) y); [done..|] end.
    by apply stoppedOnce_setRecorderState.
  - apply onScreen_Some in He as [_ ->]. by apply stoppedOnce_stopRecording.
  - apply onScreen_Some in He as [_ ->]. revert Hs.
    apply stoppedOnce_same; unfold toggleMute; by destruct (streamRef s).
  - apply onScreen_Some in He as [_ ->]. revert Hs. by apply stoppedOnce_same.
  - apply onScreen_Some in He as [_ ->]. revert Hs. by apply stoppedOnce_same.
  - apply onScreen_Some in He as [_ ->].
    destruct (onDiscard p); [by apply stoppedOnce_called | done].
  - apply onScreen_Some in He as [_ ->]. unfold handleSave.
    destruct (videoUrl s); [by apply stoppedOnce_called | done].
  - destruct (pending s !! k) as [c|]; simplify_eq/=.
    destruct (autoStarts c); simplify_eq.
    revert Hs. by apply stoppedOnce_same.
  - destruct (pending s !! k) as [c|]; simplify_eq/=.
    destruct (autoStarts c); simplify_eq.
    unfold startCamera_startThrows.
    match goal with |- stoppedOnce ?y =>
      apply (stoppedOnce_same
               (set_recorders
                  (recorders s ++ [mkRecorder (length (streams s)) Inactive]) s) y);
        [done..|] end.
    by apply stoppedOnce_append.
Qed.

(** X13.  [MediaRecorder.stop()] is never called twice on the same recorder,
    whatever the order of clicks, ticks and browser callbacks, and it has
    never been called on a recorder that is still recording. *)
Theorem recorder_stopped_at_most_once s :
  reachable p s ->
  forall k,
    (timesCalled (isStopOf k) (trace s) <= 1)%nat /\
    (forall m, recorders s !! k = Some m -> state m = Recording ->
       timesCalled (isStopOf k) (trace s) = 0%nat).
Proof.
  intros Hs.
  assert (Hall : stoppedOnce s).
  { induction Hs as [|s e s' _ IH Hstep].
    - intros k. unfold timesCalled. simpl. split; [lia|]. by split.
    - apply step_Some in Hstep as (new & Hnew & ->).
      apply stoppedOnce_commit. by eapply stoppedOnce_handle. }
  intros k. destruct (Hall k) as (H1 & H2 & _). by split.
Qed.

(** ** The mute indicator *)

Lemma commit_isMuted old new :
  facingMode new = facingMode old -> isMuted (commit old new) = isMuted new.
Proof.
  intros Hf. rewrite commit_same_facing by done.
  case_match; [done|]. unfold timerEffect, stopRecording.
  repeat (case_match; simpl; try done).
Qed.

Lemma muteTracked_cells s s' :
  streams s' = streams s -> streamRef s' = streamRef s ->
  isMuted s' = isMuted s -> pending s' = pending s ->
  muteTracked s -> muteTracked s'.
Proof.
  intros Hst Hsr Hm Hp. unfold muteTracked, muteInSync, quietUntilAcquired.
  by rewrite Hst, Hsr, Hm, Hp.
Qed.

Lemma muteTracked_handle s e new :
  isFlip e = false -> muteTracked s -> handle p e s = Some new ->
  facingMode new = facingMode s /\ muteTracked new.
Proof.
  intros Hne Hq He. pose proof Hq as [Hsync Hquiet].
  destruct e; simpl in He; try done.
  - destruct (pending s !! k) as [c|] eqn:Hk; simplify_eq/=.
    destruct Hquiet as [Hp | ([c' Hp] & Href & Hmu)]; [by rewrite Hp in Hk|].
    rewrite Hp in *. destruct k; [|done]. simplify_eq/=.
    destruct (startCamera_fulfilled_stream c (set_pending [] s))
      as (Hf & Hr & Hst & _).
    assert (Hcells : isMuted (startCamera_fulfilled c (set_pending [] s)) = false /\
                     pending (startCamera_fulfilled c (set_pending [] s)) = []).
    { unfold startCamera_fulfilled, startRecordingProcess. by case_match. }
    destruct Hcells as [Hmu' Hp'].
    split; [done|]. split; [|by left].
    intros i m. rewrite Hr, Hst, Hmu'. simpl. intros [= <-].
    rewrite list_lookup_middle by done. by intros [= <-].
  - destruct (pending s !! k) as [c|] eqn:Hk; simplify_eq/=.
    destruct Hquiet as [Hp | ([c' Hp] & Href & Hmu)]; [by rewrite Hp in Hk|].
    rewrite Hp in *. destruct k; [|done].
    split; [done|]. split; [done | by left].
  - destruct (intervalActive s); simplify_eq. by split.
  - destruct (recorders s !! r) as [m|]; simplify_eq/=.
    assert (new = ondataavailable data s) as ->
      by (destruct (state m); by simplify_eq).
    unfold ondataavailable. destruct (0 <? size data); by split.
  - destruct (recorders s !! r) as [m|]; simplify_eq/=.
    destruct (streams s !! source m) as [x|]; simplify_eq/=.
    destruct (state m), (live x); simplify_eq. by split.
  - destruct (recorders s !! r) as [m|]; simplify_eq/=.
    destruct (state m); simplify_eq.
    unfold onstop.
    match goal with |- context [stopCamera ?x] =>
      destruct (stopCamera_releases x) as (Href & Hp & _);
      pose proof (stopCamera_facing x) as Hf;
      assert (Hmu : isMuted (stopCamera x) = isMuted s)
        by (unfold stopCamera; simpl; by destruct (streamRef s)) end.
    split; [done|]. split.
    + intros i x. by rewrite Href.
    + unfold quietUntilAcquired. rewrite Hp, Href, Hmu. simpl.
      destruct Hquiet as [? | (? & _ & ?)]; [by left | by right].
  - apply onScreen_Some in He as [_ ->]. split.
    + unfold stopRecording. simpl. by repeat case_match.
    + revert Hq. apply muteTracked_cells;
        unfold stopRecording; simpl; by repeat case_match.
  - apply onScreen_Some in He as [_ ->].
    unfold toggleMute. destruct (streamRef s) as [j|] eqn:Hj; [|by split].
    split; [done|]. split.
    + intros i m. simpl. rewrite Hj. intros [= <-].
      rewrite list_lookup_alter_eq.
      destruct (streams s !! j) as [x|] eqn:Hx; [|done]. intros [= <-].
      simpl. by rewrite (Hsync j x Hj Hx).
    + destruct Hquiet as [? | (_ & ? & _)]; [by left | congruence].
  - apply onScreen_Some in He as [_ ->]. by split.
  - apply onScreen_Some in He as [_ ->]. by destruct (onDiscard p).
  - apply onScreen_Some in He as [_ ->].
    unfold handleSave. by destruct (videoUrl s).
  - destruct (pending s !! k) as [c|] eqn:Hk; simplify_eq/=.
    destruct (autoStarts c); simplify_eq.
    destruct Hquiet as [Hp | ([c' Hp] & Href & Hmu)]; [by rewrite Hp in Hk|].
    rewrite Hp in *. destruct k; [|done]. simplify_eq/=.
    split; [done|]. split; [|by left].
    intros i m. simpl. rewrite Hmu. intros [= <-].
    rewrite list_lookup_middle by done. by intros [= <-].
  - destruct (pending s !! k) as [c|] eqn:Hk; simplify_eq/=.
    destruct (autoStarts c); simplify_eq.
    destruct Hquiet as [Hp | ([c' Hp] & Href & Hmu)]; [by rewrite Hp in Hk|].
    rewrite Hp in *. destruct k; [|done]. simplify_eq/=.
    split; [done|]. split; [|by left].
    intros i m. simpl. rewrite Hmu. intros [= <-].
    rewrite list_lookup_middle by done. by intros [= <-].
Qed.

Lemma muteTracked_run s es s' :
  muteTracked s -> occurrences isFlip es = 0%nat -> run p s es = Some s' ->
  muteTracked s'.
Proof.
  revert s. induction es as [|e es IH]; intros s Hq Hno Hrun; simpl in Hrun.
  - by simplify_eq.
  - destruct (step p s e) as [x|] eqn:Hx; simplify_eq/=.
    rewrite occurrences_cons in Hno.
    assert (Hfe : isFlip e = false).
    { destruct (isFlip e) eqn:Hfe; [|done].
      unfold occurrences in Hno. simpl in Hno. rewrite Hfe in Hno.
      simpl in Hno. lia. }
    apply (IH x); [|lia|done].
    apply step_Some in Hx as (new & Hnew & ->).
    destruct (muteTracked_handle s e new Hfe Hq Hnew) as [Hf [Hsync Hquiet]].
    destruct (commit_camera s new Hf) as (_ & _ & Hr & Hst & _ & Hp & _).
    pose proof (commit_isMuted s new Hf) as Hmu.
    unfold muteTracked, muteInSync, quietUntilAcquired.
    by rewrite Hr, Hst, Hp, Hmu.
Qed.

(** X14.  As long as the facing mode is not switched, the microphone icon tells
    the truth: it shows [MicOff] exactly when the audio track of the current
    stream is disabled. *)
Theorem mute_indicator_in_sync es s :
  run p mount es = Some s -> occurrences isFlip es = 0%nat ->
  forall i m, streamRef s = Some i -> streams s !! i = Some m ->
    micOffShown s = negb (audioEnabled m).
Proof.
  intros Hrun Hno.
  assert (Hq : muteTracked (@mount LocationData)).
  { split; [by intros i m|]. right. split; [by eexists | done]. }
  destruct (muteTracked_run mount es s Hq Hno Hrun) as [Hsync _].
  intros i m Hi Hm. unfold micOffShown. rewrite (Hsync i m Hi Hm).
  by rewrite negb_involutive.
Qed.

(** X15.  A facing switch does not carry the mute over: [isMuted] is kept while
    the stream acquired next starts with its audio track enabled, so after
    muting and switching the icon shows [MicOff] although sound is
    captured. *)
Theorem mute_not_carried_over_switch s s1 :
  isMuted s = true -> step p s ClickFlip = Some s1 ->
  isMuted s1 = true /\
  exists s2, step p s1 (Fulfilled (length (pending s))) = Some s2 /\
    micOffShown s2 = true /\
    streamRef s2 = Some (length (streams s1)) /\
    streams s2 !! length (streams s1)
      = Some (mkStream (opposite (facingMode s)) true true).
Proof.
  intros Hmu [_ ->]%step_ClickFlip.
  set (y := stopCamera (toggleCamera s)).
  assert (Hy : isMuted y = true /\ pending y = pending s /\
               facingMode y = opposite (facingMode s)).
  { subst y. rewrite stopCamera_facing.
    destruct (stopCamera_releases (toggleCamera s)) as (_ & -> & _).
    unfold stopCamera. simpl. by destruct (streamRef s). }
  destruct Hy as (Hmy & Hpy & Hfy).
  destruct (startCamera_releases y) as (_ & Hp1 & _).
  assert (Hm1 : isMuted (startCamera y) = true).
  { unfold startCamera, stopCamera. simpl. by destruct (streamRef y). }
  split; [done|].
  remember (startCamera y) as s1 eqn:Es1.
  eexists. split.
  { apply step_Fulfilled. rewrite Hp1, Hpy. by apply list_lookup_middle. }
  set (s0 := set_pending _ s1).
  destruct (startCamera_fulfilled_stream (closureOf y) s0) as (Hf & Hr & Hst & _).
  destruct (commit_camera s1 _ Hf) as (_ & _ & -> & -> & _).
  unfold micOffShown. rewrite (commit_isMuted s1 _ Hf).
  rewrite Hr, Hst. subst s0. simpl. split.
  { unfold startCamera_fulfilled, startRecordingProcess. by case_match. }
  split; [done|]. rewrite list_lookup_middle by done. by rewrite Hfy.
Qed.

(** ** The readout *)

Lemma readout_two_digits (t : Z) :
  0 <= t <= 60 ->
  "00:" +:+ (if t <? 10 then "0" else "") +:+ pretty t = "00:" +:+ twoDigits t.
Proof.
  intros Ht.
  assert (Hall : forallb
            (fun n => bool_decide
               ("00:" +:+ (if Z.of_nat n <? 10 then "0" else "")
                  +:+ pretty (Z.of_nat n) = "00:" +:+ twoDigits (Z.of_nat n)))
            (seq 0 61) = true) by (vm_compute; reflexivity).
  rewrite forallb_forall in Hall.
  specialize (Hall (Z.to_nat t)). rewrite Z2Nat.id in Hall by lia.
  eapply bool_decide_eq_true_1, Hall, in_seq. lia.
Qed.

(** X16.  The remaining-time readout always has the shape [00:SS]: two digits of
    seconds, padded with a zero below ten.  The full minute is shown as
    [00:60], not as [01:00]. *)
Theorem readout_shows_two_digits s :
  reachable p s ->
  timerReadout s = "00:" +:+ twoDigits (timeLeft s) /\
  String.length (timerReadout s) = 5%nat /\
  (timeLeft s = 60 -> timerReadout s = "00:60").
Proof.
  intros [Ht _ _ _ _ _ _]%(reachable_Inv p).
  assert (Hr : timerReadout s = "00:" +:+ twoDigits (timeLeft s))
    by (by apply readout_two_digits).
  split; [done|]. split; [by rewrite Hr|].
  intros H60. rewrite Hr, H60. reflexivity.
Qed.

(** X17.  The spinner is shown exactly while recording has not started: the
    countdown then still stands at 60, reads [00:60], and no interval is
    installed; on the live screen the spinner is gone as soon as recording
    is on. *)
Theorem spinner_until_recording_starts s :
  reachable p s ->
  (spinnerShown s = true ->
     timeLeft s = 60 /\ timerReadout s = "00:60" /\ intervalActive s = false) /\
  (render s = RecordingScreen -> spinnerShown s = negb (recording s)).
Proof.
  intros Hs. pose proof (reachable_Inv p s Hs) as [Ht Hrev Hidle _ _ _ _].
  split.
  - unfold spinnerShown. intros [Hr Hm]%andb_true_iff.
    apply negb_true_iff in Hr, Hm.
    assert (H60 : timeLeft s = 60) by auto.
    split; [done|]. split.
    + unfold timerReadout. rewrite H60. reflexivity.
    + unfold intervalActive. by rewrite Hr.
  - intros Hv. unfold spinnerShown.
    destruct (reviewMode s) eqn:Hm; [|by rewrite andb_true_r].
    assert (render s = ReviewScreen)
      by (apply render_review; split; [done | by apply Hrev]).
    congruence.
Qed.

(** ** The facing mode *)

Lemma commit_facing old new : facingMode (commit old new) = facingMode new.
Proof.
  unfold commit.
  set (x := if decide (facingMode old = facingMode new) then new
            else startCamera (stopCamera new)).
  assert (Hx : facingMode x = facingMode new).
  { subst x. case_decide; [done|].
    by rewrite startCamera_facing, stopCamera_facing. }
  case_match; [done|]. by destruct (timerEffect_cells x) as (-> & _).
Qed.

Lemma step_facing s e s' :
  step p s e = Some s' ->
  facingMode s' = if isFlip e then opposite (facingMode s) else facingMode s.
Proof.
  intros (new & He & ->)%step_Some. rewrite commit_facing.
  destruct e; simpl in He; simpl.
  - destruct (pending s !! k) as [c|]; simplify_eq/=.
    by destruct (startCamera_fulfilled_stream c (set_pending (delete k (pending s)) s))
      as (-> & _).
  - destruct (pending s !! k) as [c|]; by simplify_eq/=.
  - destruct (intervalActive s); by simplify_eq.
  - destruct (recorders s !! r) as [m|]; simplify_eq/=.
    assert (new = ondataavailable data s) as ->
      by (destruct (state m); by simplify_eq).
    unfold ondataavailable. by destruct (0 <? size data).
  - destruct (recorders s !! r) as [m|]; simplify_eq/=.
    destruct (streams s !! source m) as [x|]; simplify_eq/=.
    destruct (state m), (live x); by simplify_eq.
  - destruct (recorders s !! r) as [m|]; simplify_eq/=.
    destruct (state m); simplify_eq.
    unfold onstop. by rewrite stopCamera_facing.
  - apply onScreen_Some in He as [_ ->].
    unfold stopRecording. simpl. by repeat case_match.
  - apply onScreen_Some in He as [_ ->].
    unfold toggleMute. by destruct (streamRef s).
  - by apply onScreen_Some in He as [_ ->].
  - by apply onScreen_Some in He as [_ ->].
  - apply onScreen_Some in He as [_ ->]. by destruct (onDiscard p).
  - apply onScreen_Some in He as [_ ->].
    unfold handleSave. by destruct (videoUrl s).
  - destruct (pending s !! k) as [c|]; simplify_eq/=.
    destruct (autoStarts c); by simplify_eq.
  - destruct (pending s !! k) as [c|]; simplify_eq/=.
    destruct (autoStarts c); by simplify_eq.
Qed.

(** X18.  The component starts on the rear camera and every switch goes to the
    other one, so the facing mode is [environment] exactly after an even
    number of switches; nothing else changes it. *)
Theorem facing_mode_alternates es s :
  run p mount es = Some s ->
  facingMode s =
    if Nat.even (occurrences isFlip es) then environment else user.
Proof.
  assert (Hgen : forall s0, run p s0 es = Some s ->
            facingMode s =
              if Nat.even (occurrences isFlip es) then facingMode s0
              else opposite (facingMode s0)).
  { induction es as [|e es IH]; intros s0 Hrun; simpl in Hrun.
    - by simplify_eq.
    - destruct (step p s0 e) as [x|] eqn:Hx; simplify_eq/=.
      rewrite (IH x Hrun), (step_facing s0 e x Hx), occurrences_cons.
      assert (occurrences isFlip [e] = if isFlip e then 1%nat else 0%nat) as ->
        by (unfold occurrences; simpl; by destruct (isFlip e)).
      destruct (isFlip e); [|done].
      change (1 + occurrences isFlip es)%nat with (S (occurrences isFlip es)).
      rewrite Nat.even_succ, <- Nat.negb_even.
      destruct (Nat.even (occurrences isFlip es)); simpl;
        by destruct (facingMode s0). }
  intros Hrun. by rewrite (Hgen mount Hrun).
Qed.

End Further.

(** * Concrete executions for the further properties *)

(** A failed acquisition, a retry, then a facing switch: two requests. *)
Lemma getUserMedia_once_per_switch_witness :
  run sample mount [Rejected 0%nat; ClickRetry; ClickFlip; Fulfilled 0%nat]
    = Some (after [Rejected 0%nat; ClickRetry; ClickFlip; Fulfilled 0%nat]) /\
  timesCalled isGetUserMedia
    (trace (after [Rejected 0%nat; ClickRetry; ClickFlip; Fulfilled 0%nat]))
    = 2%nat.
Proof.
  assert (Hrun : run sample mount
                   [Rejected 0%nat; ClickRetry; ClickFlip; Fulfilled 0%nat]
                 = Some (after [Rejected 0%nat; ClickRetry; ClickFlip;
                                Fulfilled 0%nat]))
    by (vm_compute; reflexivity).
  split; [exact Hrun|].
  exact (getUserMedia_once_per_switch sample _ _ Hrun).
Defined.

(** Two saves and one discard on the review screen. *)
Lemma callbacks_once_per_click_witness :
  run sample mount
    (oneSecondIn ++ [ClickStop; StopEvent 0%nat; ClickSave 90000 90001;
                     ClickSave 90002 90003; ClickDiscard])
    = Some (after (oneSecondIn ++ [ClickStop; StopEvent 0%nat;
                                   ClickSave 90000 90001;
                                   ClickSave 90002 90003; ClickDiscard])) /\
  timesCalled isOnSave
    (trace (after (oneSecondIn ++ [ClickStop; StopEvent 0%nat;
                                   ClickSave 90000 90001;
                                   ClickSave 90002 90003; ClickDiscard])))
    = 2%nat.
Proof.
  assert (Hrun : run sample mount
    (oneSecondIn ++ [ClickStop; StopEvent 0%nat; ClickSave 90000 90001;
                     ClickSave 90002 90003; ClickDiscard])
    = Some (after (oneSecondIn ++ [ClickStop; StopEvent 0%nat;
                                   ClickSave 90000 90001;
                                   ClickSave 90002 90003; ClickDiscard])))
    by (vm_compute; reflexivity).
  split; [exact Hrun|].
  exact (proj1 (callbacks_once_per_click sample _ _ Hrun)).
Defined.

(** Three ticks before the stop event: 57 remain. *)
Lemma duration_counts_ticks_witness :
  run sample mount (stopClicked ++ [IntervalFires; StopEvent 0%nat])
    = Some (after (stopClicked ++ [IntervalFires; StopEvent 0%nat])) /\
  timeLeft (after (stopClicked ++ [IntervalFires; StopEvent 0%nat])) = 60 - 3.
Proof.
  assert (Hrun : run sample mount (stopClicked ++ [IntervalFires; StopEvent 0%nat])
                 = Some (after (stopClicked ++ [IntervalFires; StopEvent 0%nat])))
    by (vm_compute; reflexivity).
  split; [exact Hrun|].
  exact (proj1 (duration_counts_ticks sample _ _ Hrun)).
Defined.

(** A full minute of ticks right after recording has started. *)
Lemma countdown_ticks_witness :
  recording (after [Fulfilled 0%nat]) = true /\
  0 <= timeLeft (after [Fulfilled 0%nat]) /\
  Z.of_nat 60 <= timeLeft (after [Fulfilled 0%nat]) /\
  exists s', run sample (after [Fulfilled 0%nat]) (replicate 60 IntervalFires)
             = Some s' /\
    timeLeft s' = timeLeft (after [Fulfilled 0%nat]) - Z.of_nat 60.
Proof.
  assert (Hr : recording (after [Fulfilled 0%nat]) = true)
    by (vm_compute; reflexivity).
  assert (H0 : 0 <= timeLeft (after [Fulfilled 0%nat]))
    by (vm_compute; discriminate).
  assert (Hn : Z.of_nat 60 <= timeLeft (after [Fulfilled 0%nat]))
    by (vm_compute; discriminate).
  destruct (countdown_ticks sample _ 60 Hr H0) as [Hok _].
  destruct (Hok Hn) as (s' & Hrun & Ht & _).
  conjuncts; try assumption. exists s'. split; assumption.
Defined.

(** On the review screen, a save and a discard later. *)
Lemma review_is_final_witness :
  render (after (oneSecondIn ++ [ClickStop; StopEvent 0%nat])) = ReviewScreen /\
  run sample (after (oneSecondIn ++ [ClickStop; StopEvent 0%nat]))
    [ClickSave 90000 90001; ClickDiscard]
    = Some (after (oneSecondIn ++ [ClickStop; StopEvent 0%nat;
                                   ClickSave 90000 90001; ClickDiscard])) /\
  render (after (oneSecondIn ++ [ClickStop; StopEvent 0%nat;
                                 ClickSave 90000 90001; ClickDiscard]))
    = ReviewScreen.
Proof.
  assert (Hv : render (after (oneSecondIn ++ [ClickStop; StopEvent 0%nat]))
               = ReviewScreen) by (vm_compute; reflexivity).
  assert (Hrun : run sample (after (oneSecondIn ++ [ClickStop; StopEvent 0%nat]))
                   [ClickSave 90000 90001; ClickDiscard]
                 = Some (after (oneSecondIn ++ [ClickStop; StopEvent 0%nat;
                                   ClickSave 90000 90001; ClickDiscard])))
    by (vm_compute; reflexivity).
  split; [exact Hv|]. split; [exact Hrun|].
  exact (proj1 (review_is_final sample _ _ _ Hv Hrun)).
Defined.

Lemma repeated_save_witness :
  render (after (oneSecondIn ++ [ClickStop; StopEvent 0%nat])) = ReviewScreen /\
  exists u s',
    videoUrl (after (oneSecondIn ++ [ClickStop; StopEvent 0%nat])) = Some u /\
    run sample (after (oneSecondIn ++ [ClickStop; StopEvent 0%nat]))
      [ClickSave 90000 90001; ClickSave 90002 90003] = Some s' /\
    timeLeft s' = timeLeft (after (oneSecondIn ++ [ClickStop; StopEvent 0%nat])).
Proof.
  assert (Hv : render (after (oneSecondIn ++ [ClickStop; StopEvent 0%nat]))
               = ReviewScreen) by (vm_compute; reflexivity).
  destruct (repeated_save sample _ [(90000, 90001); (90002, 90003)] Hv)
    as (u & s' & Hu & Hrun & _ & Ht & _).
  split; [exact Hv|]. exists u, s'. conjuncts; assumption.
Defined.

Lemma saved_artifacts_well_formed_witness :
  reachable sample
    (after (oneSecondIn ++ [ClickStop; StopEvent 0%nat; ClickSave 90000 90001])) /\
  wellFormed sample
    {| id := "VID-90000";
       url := createObjectURL (mkBlob [fragment1] "video/webm");
       timestamp := toISOString 90001;
       duration := 1;
       ev_emergencyType := "fire";
       ev_location := (23022500, 72571400) |}.
Proof.
  assert (Hs : reachable sample
    (after (oneSecondIn ++ [ClickStop; StopEvent 0%nat; ClickSave 90000 90001])))
    by (apply reachable_after; vm_compute; reflexivity).
  split; [exact Hs|].
  apply (saved_artifacts_well_formed sample _ Hs).
  apply list_elem_of_In. vm_compute. tauto.
Defined.

(** Three fragments, the second one empty. *)
Lemma fragments_in_delivery_order_witness :
  recorders (after [Fulfilled 0%nat]) !! 0%nat = Some (mkRecorder 0 Recording) /\
  state (mkRecorder 0 Recording) <> Inactive /\
  exists s',
    run sample (after [Fulfilled 0%nat])
      (map (DataAvailable 0%nat) [fragment1; mkFragment 2 0; mkFragment 3 10])
      = Some s' /\
    chunksRef s' = chunksRef (after [Fulfilled 0%nat])
                   ++ List.filter (fun d => 0 <? size d)
                        [fragment1; mkFragment 2 0; mkFragment 3 10].
Proof.
  assert (Hk : recorders (after [Fulfilled 0%nat]) !! 0%nat
               = Some (mkRecorder 0 Recording)) by (vm_compute; reflexivity).
  assert (Hst : state (mkRecorder 0 Recording) <> Inactive) by discriminate.
  destruct (fragments_in_delivery_order sample _ 0%nat _
              [fragment1; mkFragment 2 0; mkFragment 3 10] Hk Hst)
    as (s' & Hrun & Hc & _).
  split; [exact Hk|]. split; [exact Hst|]. exists s'. split; assumption.
Defined.

Lemma stop_event_releases_camera_witness :
  step sample (after stopClicked) (StopEvent 0%nat)
    = Some (after (stopClicked ++ [StopEvent 0%nat])) /\
  streamRef (after (stopClicked ++ [StopEvent 0%nat])) = None /\
  render (after (stopClicked ++ [StopEvent 0%nat])) = ReviewScreen /\
  reachableInTurn sample (after stopClicked) /\
  pending (after stopClicked) = [] /\
  run sample (after (stopClicked ++ [StopEvent 0%nat])) [ClickDiscard]
    = Some (after (stopClicked ++ [StopEvent 0%nat; ClickDiscard])) /\
  activeSessions (after (stopClicked ++ [StopEvent 0%nat; ClickDiscard]))
    = 0%nat.
Proof.
  assert (Hstep : step sample (after stopClicked) (StopEvent 0%nat)
                  = Some (after (stopClicked ++ [StopEvent 0%nat])))
    by (vm_compute; reflexivity).
  assert (Hturn : reachableInTurn sample (after stopClicked))
    by (apply reachableInTurn_after; vm_compute; reflexivity).
  assert (Hp : pending (after stopClicked) = []) by (vm_compute; reflexivity).
  assert (Hrun : run sample (after (stopClicked ++ [StopEvent 0%nat]))
                   [ClickDiscard]
                 = Some (after (stopClicked ++ [StopEvent 0%nat; ClickDiscard])))
    by (vm_compute; reflexivity).
  destruct (stop_event_releases_camera sample _ _ _ Hstep)
    as (Hv & _ & Href & _ & _ & Hlater).
  destruct (Hlater Hturn Hp _ _ Hrun) as (_ & _ & _ & Hnone).
  conjuncts; assumption.
Defined.

Lemma references_never_dangle_witness :
  reachable sample (after oneSecondIn) /\
  streamRef (after oneSecondIn) = Some 0%nat /\
  exists m, streams (after oneSecondIn) !! 0%nat = Some m /\ live m = true.
Proof.
  assert (Hs : reachable sample (after oneSecondIn))
    by (apply reachable_after; vm_compute; reflexivity).
  assert (Href : streamRef (after oneSecondIn) = Some 0%nat)
    by (vm_compute; reflexivity).
  destruct (references_never_dangle sample _ Hs) as (Hcur & _).
  split; [exact Hs|]. split; [exact Href|]. exact (Hcur _ Href).
Defined.

(** Stop clicked twice in a row. *)
Lemma recorder_stopped_at_most_once_witness :
  reachable sample (after (stopClicked ++ [ClickStop])) /\
  (timesCalled (isStopOf 0)
     (trace (after (stopClicked ++ [ClickStop]))) <= 1)%nat.
Proof.
  assert (Hs : reachable sample (after (stopClicked ++ [ClickStop])))
    by (apply reachable_after; vm_compute; reflexivity).
  split; [exact Hs|].
  exact (proj1 (recorder_stopped_at_most_once sample _ Hs 0%nat)).
Defined.

Lemma mute_indicator_in_sync_witness :
  run sample mount [Fulfilled 0%nat; ClickMute]
    = Some (after [Fulfilled 0%nat; ClickMute]) /\
  occurrences isFlip [Fulfilled 0%nat; ClickMute] = 0%nat /\
  streamRef (after [Fulfilled 0%nat; ClickMute]) = Some 0%nat /\
  streams (after [Fulfilled 0%nat; ClickMute]) !! 0%nat
    = Some (mkStream environment true false) /\
  micOffShown (after [Fulfilled 0%nat; ClickMute])
    = negb (audioEnabled (mkStream environment true false)).
Proof.
  assert (Hrun : run sample mount [Fulfilled 0%nat; ClickMute]
                 = Some (after [Fulfilled 0%nat; ClickMute]))
    by (vm_compute; reflexivity).
  assert (Hno : occurrences isFlip [Fulfilled 0%nat; ClickMute] = 0%nat)
    by reflexivity.
  assert (Href : streamRef (after [Fulfilled 0%nat; ClickMute]) = Some 0%nat)
    by (vm_compute; reflexivity).
  assert (Hm : streams (after [Fulfilled 0%nat; ClickMute]) !! 0%nat
               = Some (mkStream environment true false))
    by (vm_compute; reflexivity).
  pose proof (mute_indicator_in_sync sample _ _ Hrun Hno _ _ Href Hm) as Hsync.
  conjuncts; assumption.
Defined.

Lemma mute_not_carried_over_switch_witness :
  isMuted (after [Fulfilled 0%nat; ClickMute]) = true /\
  step sample (after [Fulfilled 0%nat; ClickMute]) ClickFlip
    = Some (after [Fulfilled 0%nat; ClickMute; ClickFlip]) /\
  isMuted (after [Fulfilled 0%nat; ClickMute; ClickFlip]) = true.
Proof.
  assert (Hmu : isMuted (after [Fulfilled 0%nat; ClickMute]) = true)
    by (vm_compute; reflexivity).
  assert (Hstep : step sample (after [Fulfilled 0%nat; ClickMute]) ClickFlip
                  = Some (after [Fulfilled 0%nat; ClickMute; ClickFlip]))
    by (vm_compute; reflexivity).
  destruct (mute_not_carried_over_switch sample _ _ Hmu Hstep) as (Hm1 & _).
  conjuncts; assumption.
Defined.

Lemma readout_shows_two_digits_witness :
  reachable sample (after lastSecond) /\
  timerReadout (after lastSecond) = "00:" +:+ twoDigits (timeLeft (after lastSecond)).
Proof.
  assert (Hs : reachable sample (after lastSecond))
    by (apply reachable_after; vm_compute; reflexivity).
  split; [exact Hs|].
  exact (proj1 (readout_shows_two_digits sample _ Hs)).
Defined.

Lemma spinner_until_recording_starts_witness :
  reachable sample mount /\
  spinnerShown (@mount (Z * Z)) = true /\
  timeLeft (@mount (Z * Z)) = 60.
Proof.
  assert (Hs : reachable sample mount) by apply reachable_mount.
  assert (Hsp : spinnerShown (@mount (Z * Z)) = true) by (vm_compute; reflexivity).
  destruct (spinner_until_recording_starts sample _ Hs) as (Hidle & _).
  destruct (Hidle Hsp) as (H60 & _).
  conjuncts; assumption.
Defined.

Lemma facing_mode_alternates_witness :
  run sample mount [ClickFlip; ClickFlip; ClickFlip]
    = Some (after [ClickFlip; ClickFlip; ClickFlip]) /\
  facingMode (after [ClickFlip; ClickFlip; ClickFlip]) = user.
Proof.
  assert (Hrun : run sample mount [ClickFlip; ClickFlip; ClickFlip]
                 = Some (after [ClickFlip; ClickFlip; ClickFlip]))
    by (vm_compute; reflexivity).
  split; [exact Hrun|].
  exact (facing_mode_alternates sample _ _ Hrun).
Defined.

(** * The end of a recording, and executions without overlapping acquisitions *)

Section Endings.

Context {LocationData : Type} (p : Props LocationData).

Local Abbreviation State := (State LocationData).

Implicit Types (s old new x : State) (c : Closure) (e : Event) (d : Fragment).

(** ** How a recording ends *)

Lemma reachable_refsValid s : reachable p s -> refsValid s.
Proof.
  induction 1 as [|s e s' _ IH Hstep].
  - by repeat split.
  - apply step_Some in Hstep as (new & Hnew & ->).
    apply refsValid_commit. by eapply refsValid_handle.
Qed.

Lemma step_TracksEnded s r m (t : MediaStream) :
  recorders s !! r = Some m -> state m = Recording ->
  streams s !! source m = Some t -> live t = false ->
  step p s (TracksEnded r) = Some (setRecorderState r Stopping s).
Proof.
  intros Hr Hst Ht Hl. unfold step. simpl. rewrite Hr. simpl. rewrite Ht. simpl.
  rewrite Hst, Hl. simpl. by rewrite commit_quiet.
Qed.

Lemma step_ClickStop_recording s r m :
  render s = RecordingScreen -> mediaRecorderRef s = Some r ->
  recorders s !! r = Some m -> state m = Recording ->
  step p s ClickStop =
    Some (called (RecorderStop r)
            (setRecorderState r Stopping (called StopRecordingCalled s))).
Proof.
  intros Hv Hm Hr Hst. unfold step. simpl. unfold onScreen.
  rewrite decide_True by done. simpl.
  assert (Hstop : stopRecording s =
            called (RecorderStop r)
              (setRecorderState r Stopping (called StopRecordingCalled s))).
  { unfold stopRecording. simpl. by rewrite Hm, Hr, Hst. }
  rewrite Hstop. by rewrite commit_quiet.
Qed.

Lemma step_StopEvent_Some s r m :
  recorders s !! r = Some m -> state m = Stopping ->
  exists s', step p s (StopEvent r) = Some s'.
Proof.
  intros Hr Hst. unfold step. simpl. rewrite Hr. simpl. rewrite Hst. simpl.
  by eexists.
Qed.

Lemma run_fragments s r m (ds : list Fragment) :
  recorders s !! r = Some m -> state m <> Inactive ->
  exists s',
    run p s (map (DataAvailable r) ds) = Some s' /\
    chunksRef s' = chunksRef s ++ List.filter (fun d => 0 <? size d) ds /\
    recorders s' = recorders s /\ timeLeft s' = timeLeft s /\
    pending s' = pending s.
Proof.
  revert s. induction ds as [|d ds IH]; intros s Hr Hst.
  - exists s. simpl. by rewrite app_nil_r.
  - simpl. rewrite (step_DataAvailable p s r m d) by done. simpl.
    destruct (IH (ondataavailable d s)) as (s' & Hrun & Hc & Hrs & Ht & Hp).
    { unfold ondataavailable. by destruct (0 <? size d). }
    { done. }
    exists s'. split; [done|].
    unfold ondataavailable in *. destruct (0 <? size d); simpl in *;
      rewrite ?Hc, ?Hrs, ?Ht, ?Hp, <- ?app_assoc; done.
Qed.

(** A recorder that has been asked to stop delivers what it still holds and
    then its stop event: the clip is the buffer followed by these fragments,
    and the review screen is shown. *)
Lemma stopping_ends s r m (ds : list Fragment) :
  recorders s !! r = Some m -> state m = Stopping ->
  exists s',
    run p s (map (DataAvailable r) ds ++ [StopEvent r]) = Some s' /\
    videoUrl s' =
      Some (createObjectURL
              (mkBlob (chunksRef s ++ List.filter (fun d => 0 <? size d) ds)
                 "video/webm")) /\
    render s' = ReviewScreen /\ recording s' = false /\
    timeLeft s' = timeLeft s /\ pending s' = pending s.
Proof.
  intros Hr Hst.
  destruct (run_fragments s r m ds Hr) as (x & Hrun & Hc & Hrs & Ht & Hp);
    [by rewrite Hst|].
  destruct (step_StopEvent_Some x r m) as (s' & Hstop); [by rewrite Hrs | done|].
  exists s'. rewrite run_app, Hrun. simpl. rewrite Hstop. simpl.
  destruct (step_StopEvent p x r s' Hstop) as (Hu & Hm & Hrec & Ht' & Hp').
  split; [done|]. rewrite Hu, Hc. split; [done|].
  split; [apply render_review; by rewrite Hm, Hu|].
  split; [done|]. split; congruence.
Qed.

(** A recording ends because the browser ends the recorder of a stream whose
    tracks have been stopped, or because Stop is clicked. *)
Lemma recording_ends x r m ender (ds : list Fragment) :
  recorders x !! r = Some m -> state m = Recording ->
  (ender = TracksEnded r /\
     exists t, streams x !! source m = Some t /\ live t = false) \/
  (ender = ClickStop /\ render x = RecordingScreen /\
     mediaRecorderRef x = Some r) ->
  exists s',
    run p x (ender :: map (DataAvailable r) ds ++ [StopEvent r]) = Some s' /\
    videoUrl s' =
      Some (createObjectURL
              (mkBlob (chunksRef x ++ List.filter (fun d => 0 <? size d) ds)
                 "video/webm")) /\
    render s' = ReviewScreen /\ recording s' = false /\
    timeLeft s' = timeLeft x.
Proof.
  intros Hr Hst Hender.
  assert (Hfirst : exists y, step p x ender = Some y /\
            recorders y !! r = Some (mkRecorder (source m) Stopping) /\
            chunksRef y = chunksRef x /\ timeLeft y = timeLeft x).
  { destruct Hender as [(-> & t & Ht & Hl) | (-> & Hv & Hm)].
    - eexists. split; [by eapply step_TracksEnded|]. simpl.
      by rewrite list_lookup_alter_eq, Hr.
    - eexists. split; [by eapply step_ClickStop_recording|]. simpl.
      by rewrite list_lookup_alter_eq, Hr. }
  destruct Hfirst as (y & Hy & Hry & Hcy & Hty).
  destruct (stopping_ends y r _ ds Hry eq_refl)
    as (s' & Hrun & Hu & Hv & Hrec & Ht & _).
  exists s'. simpl. rewrite Hy. simpl. rewrite Hrun.
  by rewrite Hu, Hcy, Ht, Hty.
Qed.

(** Fulfilling a request whose [startCamera] call saw a recording stores the
    new stream and starts nothing; [startRecordingProcess] is not entered, so
    it cannot throw. *)
Lemma fulfilled_while_busy x k c :
  pending x !! k = Some c -> busyClosure c ->
  step p x (RecorderUnavailable k) = None /\
  step p x (RecorderStartFails k) = None /\
  exists x', step p x (Fulfilled k) = Some x' /\
    streamRef x' = Some (length (streams x)) /\
    streams x' = streams x ++ [mkStream (c_facingMode c) true true] /\
    recording x' = recording x /\ timeLeft x' = timeLeft x /\
    chunksRef x' = chunksRef x /\ videoUrl x' = videoUrl x /\
    reviewMode x' = reviewMode x /\ cameraError x' = cameraError x /\
    mediaRecorderRef x' = mediaRecorderRef x /\ recorders x' = recorders x /\
    pending x' = delete k (pending x) /\ trace x' = trace x.
Proof.
  intros Hk Hb.
  assert (Hno : autoStarts c = false).
  { unfold autoStarts. destruct Hb as [-> | ->]; simpl; [done|].
    by rewrite andb_false_r. }
  split; [unfold step; simpl; by rewrite Hk; simpl; rewrite Hno|].
  split; [unfold step; simpl; by rewrite Hk; simpl; rewrite Hno|].
  eexists. split; [by apply step_Fulfilled|].
  rewrite startCamera_fulfilled_busy by done.
  by rewrite commit_quiet.
Qed.

(** ** Before any recording has started *)

Lemma commit_idle old new :
  recording new = false -> recorders (commit old new) = recorders new.
Proof.
  intros Hr. unfold commit.
  set (new' := if decide (facingMode old = facingMode new) then new
               else startCamera (stopCamera new)).
  assert (H' : recording new' = false /\ recorders new' = recorders new).
  { subst new'. case_decide; [done|].
    destruct (startCamera_cells (stopCamera new)) as (->&_&_&_&_&_&->).
    destruct (stopCamera_unchanged new) as (->&_).
    split; [done|]. unfold stopCamera. by destruct (streamRef new). }
  destruct H' as [Hr' <-].
  case_match; [done|]. by rewrite timerEffect_idle.
Qed.

Lemma dormant_same s s' :
  recording s' = recording s -> reviewMode s' = reviewMode s ->
  recorders s' = recorders s -> dormant s -> dormant s'.
Proof. unfold dormant, idle. by intros -> -> ->. Qed.

Lemma dormant_busy s : recording s = true \/ reviewMode s = true -> dormant s.
Proof. intros [H|H] [Hr Hm]; congruence. Qed.

Lemma dormant_handle s e new :
  dormant s -> handle p e s = Some new -> dormant new.
Proof.
  intros Hs He. destruct e; simpl in He.
  - destruct (pending s !! k) as [c|]; simplify_eq/=.
    unfold startCamera_fulfilled. case_match.
    + apply dormant_busy. by left.
    + revert Hs. by apply dormant_same.
  - destruct (pending s !! k) as [c|]; simplify_eq/=.
    revert Hs. by apply dormant_same.
  - destruct (intervalActive s) eqn:Hi; simplify_eq.
    apply dormant_busy. left. simpl.
    unfold intervalActive in Hi. by apply andb_true_iff in Hi as [-> _].
  - destruct (recorders s !! r) as [m|]; simplify_eq/=.
    assert (new = ondataavailable data s) as ->
      by (destruct (state m); by simplify_eq).
    revert Hs. apply dormant_same;
      unfold ondataavailable; by destruct (0 <? size data).
  - destruct (recorders s !! r) as [m|] eqn:Hm; simplify_eq/=.
    destruct (streams s !! source m) as [x|]; simplify_eq/=.
    destruct (state m) eqn:Hst, (live x); simplify_eq.
    intros Hidle. specialize (Hs Hidle).
    rewrite Forall_lookup in Hs. specialize (Hs r m Hm). congruence.
  - destruct (recorders s !! r) as [m|]; simplify_eq/=.
    destruct (state m); simplify_eq.
    apply dormant_busy. right. unfold onstop.
    match goal with |- context [stopCamera ?y] =>
      by destruct (stopCamera_unchanged y) as (_&_&->&_) end.
  - apply onScreen_Some in He as [_ ->].
    destruct (stopRecording_unchanged s) as (Hr&_&Hm&_).
    destruct (stopRecording_cases s) as [-> | (k & m & _ & Hk & Hst & _)].
    + revert Hs. by apply dormant_same.
    + intros [Hr' Hm']. rewrite Hr in Hr'. rewrite Hm in Hm'.
      specialize (Hs (conj Hr' Hm')).
      rewrite Forall_lookup in Hs. specialize (Hs k m Hk). congruence.
  - apply onScreen_Some in He as [_ ->]. revert Hs.
    apply dormant_same; unfold toggleMute; by destruct (streamRef s).
  - apply onScreen_Some in He as [_ ->]. revert Hs. by apply dormant_same.
  - apply onScreen_Some in He as [_ ->]. revert Hs. by apply dormant_same.
  - apply onScreen_Some in He as [_ ->]. revert Hs.
    apply dormant_same; by destruct (onDiscard p).
  - apply onScreen_Some in He as [_ ->]. revert Hs.
    apply dormant_same; unfold handleSave; by destruct (videoUrl s).
  - destruct (pending s !! k) as [c|]; simplify_eq/=.
    destruct (autoStarts c); simplify_eq.
    revert Hs. by apply dormant_same.
  - destruct (pending s !! k) as [c|]; simplify_eq/=.
    destruct (autoStarts c); simplify_eq.
    intros [Hr Hm]. simpl in *. apply Forall_app. split.
    + by apply Hs.
    + by constructor.
Qed.

Lemma dormant_commit old new : dormant new -> dormant (commit old new).
Proof.
  intros Hs [Hr Hm].
  destruct (commit_cells old new) as (Hr' & _ & Hm' & _).
  rewrite Hr' in Hr. rewrite Hm' in Hm.
  rewrite commit_idle by done. by apply Hs.
Qed.

(** No recorder is recording or stopping before the first recording has
    started. *)
Lemma reachable_dormant s : reachable p s -> dormant s.
Proof.
  induction 1 as [|s e s' _ IH Hstep].
  - intros _. by constructor.
  - apply step_Some in Hstep as (new & Hnew & ->).
    apply dormant_commit. by eapply dormant_handle.
Qed.

(** ** What pending requests saw *)

(** What one step does to the pending requests and to idleness. *)
Lemma step_pending s e s' :
  dormant s -> step p s e = Some s' ->
  (pending s' = pending s /\ (idle s' <-> idle s)) \/
  (exists k, is_Some (pending s !! k) /\ pending s' = delete k (pending s)) \/
  (e = ClickFlip /\ (idle s' <-> idle s) /\
   pending s' =
     pending s ++
     [mkClosure (opposite (facingMode s)) (reviewMode s) (recording s)
        (timeLeft s)]).
Proof.
  intros Hd Hstep.
  assert (e = ClickFlip \/ e <> ClickFlip) as [-> | Hne]
    by (destruct e; (by left) || (by right)).
  { right. right. split; [done|].
    apply step_ClickFlip in Hstep as [_ ->].
    destruct (startCamera_cells (stopCamera (toggleCamera s)))
      as (Hr & Ht & Hm & _).
    destruct (stopCamera_unchanged (toggleCamera s)) as (Hr' & Ht' & Hm' & _).
    split.
    - unfold idle. rewrite Hr, Hr', Hm, Hm'. done.
    - destruct (startCamera_releases (stopCamera (toggleCamera s)))
        as (_ & -> & _).
      destruct (stopCamera_releases (toggleCamera s)) as (_ & -> & _).
      unfold closureOf. rewrite stopCamera_facing, Hr', Ht', Hm'. done. }
  apply step_Some in Hstep as (new & Hnew & ->).
  destruct (commit_cells s new) as (Hr & _ & Hm & _).
  assert (Hsame : facingMode new = facingMode s -> pending new = pending s ->
            recording new = recording s -> reviewMode new = reviewMode s ->
            pending (commit s new) = pending s /\ (idle (commit s new) <-> idle s)).
  { intros Hf Hp Hr' Hm'.
    destruct (commit_camera s new Hf) as (_&_&_&_&_&->&_).
    split; [done|]. unfold idle. by rewrite Hr, Hm, Hr', Hm'. }
  assert (Htaken : forall k, is_Some (pending s !! k) ->
            facingMode new = facingMode s ->
            pending new = delete k (pending s) ->
            exists k, is_Some (pending s !! k) /\
              pending (commit s new) = delete k (pending s)).
  { intros k Hk Hf Hp. exists k. split; [done|].
    by destruct (commit_camera s new Hf) as (_&_&_&_&_&->&_). }
  destruct e; simpl in Hnew.
  - right. left. destruct (pending s !! k) as [c|] eqn:Hk; simplify_eq/=.
    apply (Htaken k); [by rewrite Hk | |];
      unfold startCamera_fulfilled, startRecordingProcess; by case_match.
  - right. left. destruct (pending s !! k) as [c|] eqn:Hk; simplify_eq/=.
    apply (Htaken k); [by rewrite Hk | done..].
  - left. destruct (intervalActive s); simplify_eq. by apply Hsame.
  - left. destruct (recorders s !! r) as [m|]; simplify_eq/=.
    assert (new = ondataavailable data s) as ->
      by (destruct (state m); by simplify_eq).
    apply Hsame; unfold ondataavailable; by destruct (0 <? size data).
  - left. destruct (recorders s !! r) as [m|]; simplify_eq/=.
    destruct (streams s !! source m) as [x|]; simplify_eq/=.
    destruct (state m), (live x); simplify_eq. by apply Hsame.
  - left. destruct (recorders s !! r) as [m|] eqn:Hk; simplify_eq/=.
    destruct (state m) eqn:Hst; simplify_eq.
    set (s0 := setRecorderState r Inactive s) in *.
    assert (Hf : facingMode (onstop s0) = facingMode s)
      by (unfold onstop; by rewrite stopCamera_facing).
    destruct (commit_camera s (onstop s0) Hf) as (_&_&_&_&_&->&_).
    assert (Hp : pending (onstop s0) = pending s /\
                 reviewMode (onstop s0) = true).
    { unfold onstop.
      match goal with |- context [stopCamera ?y] =>
        by destruct (stopCamera_unchanged y) as (_&_&->&_&->&_) end. }
    destruct Hp as [Hp Hm']. split; [done|]. unfold idle.
    rewrite Hm, Hm'. split; [by intros [_ ?]|].
    intros Hidle. specialize (Hd Hidle).
    rewrite Forall_lookup in Hd. specialize (Hd r m Hk). congruence.
  - left. apply onScreen_Some in Hnew as [_ ->].
    destruct (stopRecording_unchanged s) as (Hr' & _ & Hm' & _ & Hp & _).
    apply Hsame; [|done..]. unfold stopRecording. simpl. by repeat case_match.
  - left. apply onScreen_Some in Hnew as [_ ->].
    apply Hsame; unfold toggleMute; by destruct (streamRef s).
  - done.
  - left. apply onScreen_Some in Hnew as [_ ->]. by apply Hsame.
  - left. apply onScreen_Some in Hnew as [_ ->].
    apply Hsame; by destruct (onDiscard p).
  - left. apply onScreen_Some in Hnew as [_ ->].
    apply Hsame; unfold handleSave; by destruct (videoUrl s).
  - right. left. destruct (pending s !! k) as [c|] eqn:Hk; simplify_eq/=.
    destruct (autoStarts c); simplify_eq.
    apply (Htaken k); [by rewrite Hk | done..].
  - right. left. destruct (pending s !! k) as [c|] eqn:Hk; simplify_eq/=.
    destruct (autoStarts c); simplify_eq.
    apply (Htaken k); [by rewrite Hk | done..].
Qed.

Lemma reachableInTurn_reachable s : reachableInTurn p s -> reachable p s.
Proof.
  induction 1 as [|s e s' _ IH _ Hstep]; [constructor|].
  by eapply reachable_step.
Qed.

(** When the facing mode is only switched while nothing is pending, a
    pending [startCamera] call saw what still holds. *)
Lemma reachableInTurn_closuresMatch s : reachableInTurn p s -> closuresMatch s.
Proof.
  induction 1 as [|s e s' Hs IH Hflip Hstep].
  - constructor; [|constructor]. by split.
  - pose proof (reachable_dormant s (reachableInTurn_reachable s Hs)) as Hd.
    destruct (reachableInTurn_inTurn p s Hs) as [_ Hone].
    destruct (step_pending s e s' Hd Hstep)
      as [[Hp Hi] | [(k & Hk & Hp) | (-> & Hi & Hp)]];
      unfold closuresMatch in *.
    + rewrite Hp. eapply Forall_impl; [exact IH|]. simpl. intros c Hc.
      by rewrite Hi.
    + rewrite Hp. destruct Hone as [Hnil | [[c Hc] _]].
      * rewrite Hnil in Hk. by destruct Hk.
      * rewrite Hc in *. destruct k; [constructor|]. by destruct Hk.
    + rewrite Hp, (Hflip eq_refl). constructor; [|constructor].
      rewrite Hi. unfold idleClosure, idle. simpl. tauto.
Qed.

(** Hence a request that is pending while the component is recording or
    reviewing was made by a [startCamera] call that saw as much. *)
Lemma busy_in_turn s k c :
  reachableInTurn p s -> pending s !! k = Some c -> ~ idle s -> busyClosure c.
Proof.
  intros Hs Hk Hbusy.
  pose proof (reachableInTurn_closuresMatch s Hs) as Hall.
  unfold closuresMatch in Hall. rewrite Forall_lookup in Hall.
  specialize (Hall k c Hk). unfold busyClosure.
  destruct (c_reviewMode c) eqn:Hm; [by left|].
  destruct (c_recording c) eqn:Hr; [by right|].
  destruct Hbusy. apply Hall. by split.
Qed.

Lemma busy_autoStarts c : busyClosure c -> autoStarts c = false.
Proof.
  unfold autoStarts. intros [-> | ->]; simpl; [done|]. by rewrite andb_false_r.
Qed.

(** C8, as the component implements it.  When an acquisition succeeds while
    the component is neither recording nor in review mode,
    [startRecordingProcess] is entered: if the recorder can be created and
    started, recording begins on the new session; if the constructor or
    [start()] throws, the error screen is shown over the session just
    acquired and nothing is recording.  When the component is recording or
    in review mode, the success of an acquisition that was requested while
    it was recording or in review mode stores the new session and starts
    nothing; every pending acquisition is one of these as long as the facing
    mode has only been switched while no acquisition was pending.  In
    particular a facing switch made before any recording has started issues
    a request whose success starts the recording on the new session. *)
Theorem acquisition_starts_recording_when_idle s :
  reachable p s ->
  (forall k c, pending s !! k = Some c ->
     (idle s ->
        (exists s', step p s (Fulfilled k) = Some s' /\
           streamRef s' = Some (length (streams s)) /\
           streams s' = streams s ++ [mkStream (c_facingMode c) true true] /\
           recording s' = true /\ reviewMode s' = false /\
           intervalActive s' = true /\ chunksRef s' = [] /\
           mediaRecorderRef s' = Some (length (recorders s)) /\
           recorders s' =
             recorders s ++ [mkRecorder (length (streams s)) Recording]) /\
        (exists s', step p s (RecorderUnavailable k) = Some s' /\
           streamRef s' = Some (length (streams s)) /\
           streams s' = streams s ++ [mkStream (c_facingMode c) true true] /\
           recording s' = false /\ cameraError s' = true /\
           render s' = ErrorScreen /\
           mediaRecorderRef s' = mediaRecorderRef s /\
           recorders s' = recorders s) /\
        (exists s', step p s (RecorderStartFails k) = Some s' /\
           streamRef s' = Some (length (streams s)) /\
           streams s' = streams s ++ [mkStream (c_facingMode c) true true] /\
           recording s' = false /\ cameraError s' = true /\
           render s' = ErrorScreen /\
           mediaRecorderRef s' = Some (length (recorders s)) /\
           recorders s' =
             recorders s ++ [mkRecorder (length (streams s)) Inactive])) /\
     (~ idle s ->
        (busyClosure c ->
           step p s (RecorderUnavailable k) = None /\
           step p s (RecorderStartFails k) = None /\
           exists s', step p s (Fulfilled k) = Some s' /\
             streamRef s' = Some (length (streams s)) /\
             streams s' = streams s ++ [mkStream (c_facingMode c) true true] /\
             recording s' = recording s /\ reviewMode s' = reviewMode s /\
             timeLeft s' = timeLeft s /\ chunksRef s' = chunksRef s /\
             mediaRecorderRef s' = mediaRecorderRef s /\
             recorders s' = recorders s) /\
        (reachableInTurn p s -> busyClosure c))) /\
  (idle s -> forall s1, step p s ClickFlip = Some s1 ->
     facingMode s1 = opposite (facingMode s) /\ idle s1 /\
     pending s1 =
       pending s ++ [mkClosure (opposite (facingMode s)) false false 60] /\
     exists s2, step p s1 (Fulfilled (length (pending s))) = Some s2 /\
       recording s2 = true /\
       streamRef s2 = Some (length (streams s1)) /\
       streams s2 =
         streams s1 ++ [mkStream (opposite (facingMode s)) true true] /\
       mediaRecorderRef s2 = Some (length (recorders s1)) /\
       recorders s2 =
         recorders s1 ++ [mkRecorder (length (streams s1)) Recording]).
Proof.
  intros Hs. pose proof (reachable_Inv p s Hs) as HI. split.
  - intros k c Hk. split.
    + intros [Hr Hm].
      assert (Hc : idleClosure c).
      { destruct HI as [_ _ _ _ Hidle _ _].
        specialize (Hidle Hr Hm). rewrite Forall_lookup in Hidle.
        by apply (Hidle k). }
      assert (Ht : c_timeLeft c = 60).
      { destruct HI as [_ _ _ Hfull _ _ _].
        rewrite Forall_lookup in Hfull. by apply (Hfull k). }
      assert (H60 : timeLeft s = 60) by (by apply HI).
      assert (Ha : autoStarts c = true).
      { unfold autoStarts. destruct Hc as [-> ->]. by rewrite Ht. }
      split; [|split].
      * eexists. split; [by apply step_Fulfilled|].
        rewrite startCamera_fulfilled_idle by done.
        rewrite commit_same_facing by done. simpl. rewrite Hr. simpl.
        rewrite timerEffect_running by (simpl; lia). simpl.
        unfold intervalActive. simpl. by rewrite H60.
      * unfold step. simpl. rewrite Hk. simpl. rewrite Ha.
        eexists. split; [done|]. rewrite commit_quiet by done. simpl.
        unfold render. simpl. by rewrite Hm.
      * unfold step. simpl. rewrite Hk. simpl. rewrite Ha.
        eexists. split; [done|]. rewrite commit_quiet by done. simpl.
        unfold render. simpl. by rewrite Hm.
    + intros Hbusy. split.
      * intros Hb.
        destruct (fulfilled_while_busy s k c Hk Hb)
          as (Hno1 & Hno2 & s' & Hstep & Href & Hstr & Hr & Ht & Hc & _ & Hm
              & _ & Hmr & Hrs & _).
        split; [done|]. split; [done|]. exists s'.
        by repeat (split; [done|]).
      * intros Hturn. by apply (busy_in_turn s k c).
  - intros [Hr Hm] s1 Hstep.
    destruct (fulfilled_acquisition p s Hs) as [_ Hflip].
    destruct (Hflip Hm Hr s1 Hstep) as (Hf & Hp & s2 & Hrest).
    split; [done|]. split.
    { apply step_ClickFlip in Hstep as [_ ->].
      destruct (startCamera_cells (stopCamera (toggleCamera s)))
        as (Hr1 & _ & Hm1 & _).
      destruct (stopCamera_unchanged (toggleCamera s)) as (Hr2 & _ & Hm2 & _).
      unfold idle. by rewrite Hr1, Hr2, Hm1, Hm2. }
    split; [done|]. by exists s2.
Qed.

(** ** After the stop event *)

Lemma halted_commit t old new :
  facingMode new = facingMode old -> halted t new -> halted t (commit old new).
Proof.
  intros Hf (Hr&Hm&Hu&Ht&Hp).
  destruct (commit_cells old new) as (Hr'&Ht'&Hm'&Hu'&_).
  destruct (commit_camera old new Hf) as (_&_&_&_&_&Hp'&_).
  unfold halted. by rewrite Hr', Ht', Hm', Hu', Hp'.
Qed.

Lemma halted_render t s : halted t s -> render s = ReviewScreen.
Proof. intros (_&Hm&Hu&_). by apply render_review. Qed.

(** Once the recording has been finalized and only requests that saw the
    recording or the review are pending, no step restarts the countdown. *)
Lemma halted_step t s e s' :
  halted t s -> step p s e = Some s' -> halted t s'.
Proof.
  intros Hset (new & He & ->)%step_Some.
  pose proof (halted_render t s Hset) as Hv.
  destruct Hset as (Hr&Hm&Hu&Ht&Hp).
  assert (Hoff : forall v x, v <> ReviewScreen -> onScreen v s x = None).
  { intros v x Hne. unfold onScreen. rewrite decide_False; [done|congruence]. }
  assert (Hbusy : forall k c, pending s !! k = Some c -> busyClosure c).
  { intros k c Hk. rewrite Forall_lookup in Hp. by apply (Hp k). }
  destruct e; simpl in He.
  - destruct (pending s !! k) as [c|] eqn:Hk; simplify_eq/=.
    rewrite startCamera_fulfilled_busy by (by apply (Hbusy k)).
    apply halted_commit; [done|]. unfold halted. simpl.
    repeat (split; [done|]). by apply Forall_delete.
  - destruct (pending s !! k) as [c|] eqn:Hk; simplify_eq/=.
    apply halted_commit; [done|]. unfold halted. simpl.
    repeat (split; [done|]). by apply Forall_delete.
  - unfold intervalActive in He. by rewrite Hr in He.
  - destruct (recorders s !! r) as [m|]; simplify_eq/=.
    assert (new = ondataavailable data s) as ->
      by (destruct (state m); by simplify_eq).
    apply halted_commit; unfold ondataavailable, halted;
      destruct (0 <? size data); simpl; by repeat split.
  - destruct (recorders s !! r) as [m|]; simplify_eq/=.
    destruct (streams s !! source m) as [x|]; simplify_eq/=.
    destruct (state m), (live x); simplify_eq.
    apply halted_commit; unfold halted; simpl; by repeat split.
  - destruct (recorders s !! r) as [m|]; simplify_eq/=.
    destruct (state m); simplify_eq.
    apply halted_commit.
    + unfold onstop. by rewrite stopCamera_facing.
    + unfold onstop, halted.
      match goal with |- context [stopCamera ?x] =>
        destruct (stopCamera_unchanged x) as (->&->&->&->&->&_) end.
      by repeat split.
  - by rewrite Hoff in He.
  - by rewrite Hoff in He.
  - by rewrite Hoff in He.
  - by rewrite Hoff in He.
  - apply onScreen_Some in He as [_ ->].
    apply halted_commit; unfold halted;
      destruct (onDiscard p); simpl; by repeat split.
  - apply onScreen_Some in He as [_ ->].
    destruct Hu as [u Hu].
    apply halted_commit; unfold handleSave, halted;
      rewrite Hu; simpl; by repeat split.
  - destruct (pending s !! k) as [c|] eqn:Hk; simplify_eq/=.
    by rewrite (busy_autoStarts c (Hbusy k c Hk)) in He.
  - destruct (pending s !! k) as [c|] eqn:Hk; simplify_eq/=.
    by rewrite (busy_autoStarts c (Hbusy k c Hk)) in He.
Qed.

Lemma halted_run t s es s' :
  halted t s -> run p s es = Some s' -> halted t s'.
Proof.
  revert s. induction es as [|e es IH]; intros s Hset Hrun; simpl in Hrun.
  - by simplify_eq.
  - destruct (step p s e) as [x|] eqn:Hx; simplify_eq/=.
    eapply IH; [|done]. by eapply halted_step.
Qed.

(** A pending request made before any recording began restarts the
    recording whenever it succeeds, whatever has happened since. *)
Lemma idle_request_restarts s k c :
  reachable p s -> pending s !! k = Some c -> idleClosure c ->
  exists s', step p s (Fulfilled k) = Some s' /\ recording s' = true.
Proof.
  intros Hs Hk Hc.
  assert (Ht : c_timeLeft c = 60).
  { destruct (reachable_Inv p s Hs) as [_ _ _ Hfull _ _ _].
    rewrite Forall_lookup in Hfull. by apply (Hfull k). }
  eexists. split; [by apply step_Fulfilled|].
  destruct (commit_cells s
              (startCamera_fulfilled c (set_pending (delete k (pending s)) s)))
    as (-> & _).
  by rewrite startCamera_fulfilled_idle.
Qed.

(** ** A recorder that has been asked to stop *)

Lemma stopRecording_stopping s r m :
  recorders s !! r = Some m -> state m = Stopping ->
  recorders (stopRecording s) !! r = Some m.
Proof.
  intros Hk Hst.
  destruct (stopRecording_cases s) as [-> | (k & x & _ & Hx & Hrec & ->)];
    [done|].
  simpl. destruct (decide (k = r)) as [-> | Hne].
  - rewrite Hk in Hx. injection Hx as <-. congruence.
  - by rewrite list_lookup_alter_ne.
Qed.

Lemma timerEffect_stopping s r m :
  recorders s !! r = Some m -> state m = Stopping ->
  recorders (timerEffect s) !! r = Some m.
Proof.
  intros Hk Hst. unfold timerEffect.
  destruct (recording s && (0 <? timeLeft s)); [done|].
  destruct ((timeLeft s =? 0) && recording s); [|done].
  by apply stopRecording_stopping.
Qed.

Lemma commit_stopping old new r m :
  recorders new !! r = Some m -> state m = Stopping ->
  recorders (commit old new) !! r = Some m.
Proof.
  intros Hk Hst. unfold commit.
  set (new' := if decide (facingMode old = facingMode new) then new
               else startCamera (stopCamera new)).
  assert (Hk' : recorders new' !! r = Some m).
  { subst new'. case_decide; [done|].
    destruct (startCamera_cells (stopCamera new)) as (_&_&_&_&_&_&->).
    unfold stopCamera. by destruct (streamRef new). }
  case_match; [done|]. by apply timerEffect_stopping.
Qed.

(** Only its stop event takes a recorder out of the stopping state. *)
Lemma step_stopping s e s' r m :
  recorders s !! r = Some m -> state m = Stopping ->
  step p s e = Some s' -> e <> StopEvent r ->
  recorders s' !! r = Some m.
Proof.
  intros Hk Hst (new & Hnew & ->)%step_Some Hne.
  apply commit_stopping; [|done].
  assert (Happ : forall y : MediaRecorder,
            (recorders s ++ [y]) !! r = Some m).
  { intros y. by apply lookup_app_l_Some. }
  destruct e; simpl in Hnew.
  - destruct (pending s !! k) as [c|]; simplify_eq/=.
    unfold startCamera_fulfilled, startRecordingProcess.
    case_match; simpl; [apply Happ | done].
  - destruct (pending s !! k) as [c|]; by simplify_eq/=.
  - destruct (intervalActive s); by simplify_eq.
  - destruct (recorders s !! r0) as [x|]; simplify_eq/=.
    assert (new = ondataavailable data s) as ->
      by (destruct (state x); by simplify_eq).
    unfold ondataavailable. by destruct (0 <? size data).
  - destruct (recorders s !! r0) as [x|] eqn:Hx; simplify_eq/=.
    destruct (streams s !! source x) as [t|]; simplify_eq/=.
    destruct (state x) eqn:Hstx, (live t); simplify_eq. simpl.
    destruct (decide (r0 = r)) as [-> | Hr]; [congruence|].
    by rewrite list_lookup_alter_ne.
  - destruct (recorders s !! r0) as [x|] eqn:Hx; simplify_eq/=.
    destruct (state x); simplify_eq.
    assert (Hr : r0 <> r) by congruence.
    unfold onstop, stopCamera. simpl.
    destruct (streamRef s); simpl; by rewrite list_lookup_alter_ne.
  - apply onScreen_Some in Hnew as [_ ->]. by apply stopRecording_stopping.
  - apply onScreen_Some in Hnew as [_ ->].
    unfold toggleMute. by destruct (streamRef s).
  - by apply onScreen_Some in Hnew as [_ ->].
  - by apply onScreen_Some in Hnew as [_ ->].
  - apply onScreen_Some in Hnew as [_ ->]. by destruct (onDiscard p).
  - apply onScreen_Some in Hnew as [_ ->].
    unfold handleSave. by destruct (videoUrl s).
  - destruct (pending s !! k) as [c|]; simplify_eq/=.
    destruct (autoStarts c); by simplify_eq.
  - destruct (pending s !! k) as [c|]; simplify_eq/=.
    destruct (autoStarts c); simplify_eq. simpl. apply Happ.
Qed.

(** So the stop event of a stopping recorder stays due until it is
    handled. *)
Lemma stop_event_due s es s' r m :
  recorders s !! r = Some m -> state m = Stopping ->
  run p s es = Some s' -> StopEvent r ∉ es ->
  exists s'', step p s' (StopEvent r) = Some s''.
Proof.
  revert s. induction es as [|e es IH]; intros s Hk Hst Hrun Hnot;
    simpl in Hrun.
  - simplify_eq. by apply (step_StopEvent_Some s' r m).
  - destruct (step p s e) as [x|] eqn:Hx; simplify_eq/=.
    apply not_elem_of_cons in Hnot as [Hne Hnot].
    apply (IH x); [|done..].
    apply (step_stopping s e x r m); [done..|]. by intros ->.
Qed.

(** A recorder of the current reference that is recording while the live
    screen is shown means that the component is recording. *)
Lemma recording_on_live_screen s r m :
  reachable p s -> render s = RecordingScreen ->
  recorders s !! r = Some m -> state m = Recording ->
  recording s = true /\ reviewMode s = false.
Proof.
  intros Hs Hv Hk Hst.
  pose proof (reachable_Inv p s Hs) as [_ Hrev _ _ _ _ _].
  assert (Hm : reviewMode s = false).
  { destruct (reviewMode s) eqn:Hm; [|done].
    assert (render s = ReviewScreen)
      by (apply render_review; split; [done|]; by apply Hrev).
    congruence. }
  split; [|done].
  destruct (recording s) eqn:Hr; [done|].
  pose proof (reachable_dormant s Hs (conj Hr Hm)) as Hd.
  rewrite Forall_lookup in Hd. specialize (Hd r m Hk). congruence.
Qed.

(** C6, as the component implements it.  A click on Stop while the current
    recorder is recording calls [stop()] on it and leaves the countdown as
    it is: the component is still recording, the remaining time is unchanged
    and the interval keeps firing.  The recorder's stop event is then due,
    and stays due whatever else happens until it is handled.  Once it has
    been handled, and provided every request still pending then was made by
    a [startCamera] call that saw the recording or the review, the timer is
    halted for good: the review screen stays, no tick is possible in any
    later state, the remaining time no longer changes, and every later
    Confirm-Save reports a duration of 60 minus the remaining time at the
    instant the stop event was handled. *)
Theorem manual_stop_halts_timer_at_stop_event s r m s0 :
  reachable p s -> mediaRecorderRef s = Some r ->
  recorders s !! r = Some m -> state m = Recording ->
  step p s ClickStop = Some s0 ->
  recording s0 = true /\ timeLeft s0 = timeLeft s /\
  intervalActive s0 = intervalActive s /\
  (0 < timeLeft s ->
     exists x, step p s0 IntervalFires = Some x /\
       timeLeft x = timeLeft s - 1) /\
  trace s0 = trace s ++ [StopRecordingCalled; RecorderStop r] /\
  recorders s0 !! r = Some (mkRecorder (source m) Stopping) /\
  (forall es s1, run p s0 es = Some s1 -> StopEvent r ∉ es ->
     exists s2, step p s1 (StopEvent r) = Some s2) /\
  forall es s1 s2 es' s3,
    run p s0 es = Some s1 -> step p s1 (StopEvent r) = Some s2 ->
    Forall busyClosure (pending s1) -> run p s2 es' = Some s3 ->
    render s3 = ReviewScreen /\
    recording s3 = false /\ timeLeft s3 = timeLeft s1 /\
    step p s3 IntervalFires = None /\
    forall now date, exists u s4,
      step p s3 (ClickSave now date) = Some s4 /\
      trace s4 =
        trace s3 ++
        [OnSave {| id := "VID-" +:+ pretty now; url := u;
                   timestamp := toISOString date;
                   duration := 60 - timeLeft s1;
                   ev_emergencyType := emergencyType p;
                   ev_location := location p |}].
Proof.
  intros Hs Hm Hk Hst Hclick.
  pose proof Hclick as [Hv _]%step_ClickStop.
  destruct (recording_on_live_screen s r m Hs Hv Hk Hst) as [Hr _].
  rewrite (step_ClickStop_recording s r m Hv Hm Hk Hst) in Hclick.
  injection Hclick as <-.
  set (s0 := called (RecorderStop r)
               (setRecorderState r Stopping (called StopRecordingCalled s))).
  assert (Hk0 : recorders s0 !! r = Some (mkRecorder (source m) Stopping))
    by (simpl; by rewrite list_lookup_alter_eq, Hk).
  split; [done|]. split; [done|]. split; [done|]. split.
  { intros Hpos.
    assert (Hon : intervalActive s0 = true)
      by (apply intervalActive_true; split; [done | simpl; lia]).
    rewrite (step_tick p s0 Hon). simpl.
    destruct (timeLeft s =? 1) eqn:H1.
    - apply Z.eqb_eq in H1. eexists. split; [done|].
      match goal with |- timeLeft (stopRecording ?y) = _ =>
        destruct (stopRecording_unchanged y) as (_&->&_) end.
      simpl. lia.
    - by eexists. }
  split; [simpl; by rewrite <- app_assoc|]. split; [done|].
  split.
  { intros es s1 Hrun Hnot.
    by apply (stop_event_due s0 es s1 r _ Hk0). }
  intros es s1 s2 es' s3 Hrun1 Hstop Hp1 Hrun2.
  destruct (step_StopEvent p _ _ _ Hstop) as (Hu2&Hm2&Hr2&Ht2&Hp2).
  assert (Hset : halted (timeLeft s1) s3).
  { eapply halted_run; [|done]. unfold halted.
    rewrite Hu2, Hm2, Hr2, Ht2, Hp2. by repeat split. }
  pose proof (halted_render _ _ Hset) as Hv3.
  destruct Hset as (Hr3&Hm3&Hu3&Ht3&Hp3).
  split; [done|]. split; [done|]. split; [done|]. split.
  { unfold step. simpl. unfold intervalActive. by rewrite Hr3. }
  intros now date.
  destruct (step_ClickSave p s3 now date Hv3) as (u & _ & Hstep).
  exists u. eexists. split; [exact Hstep|]. simpl. by rewrite Ht3.
Qed.

(** ** Expiry when acquisitions do not overlap *)

Lemma fulfilled_in_turn s k s' :
  reachableInTurn p s -> step p s (Fulfilled k) = Some s' ->
  trace s' = trace s /\ timeLeft s' = timeLeft s.
Proof.
  intros Hturn Hstep.
  pose proof (reachableInTurn_reachable s Hturn) as Hs.
  pose proof (reachable_Inv p s Hs) as HI.
  destruct (pending s !! k) as [c|] eqn:Hk;
    [|unfold step in Hstep; simpl in Hstep; by rewrite Hk in Hstep].
  assert (Hcases : idle s \/ ~ idle s).
  { unfold idle. destruct (recording s), (reviewMode s);
      (by left) || (right; by intros [? ?]). }
  destruct Hcases as [[Hr Hm] | Hbusy].
  - assert (Hc : idleClosure c).
    { destruct HI as [_ _ _ _ Hidle _ _].
      specialize (Hidle Hr Hm). rewrite Forall_lookup in Hidle.
      by apply (Hidle k). }
    assert (Ht : c_timeLeft c = 60).
    { destruct HI as [_ _ _ Hfull _ _ _].
      rewrite Forall_lookup in Hfull. by apply (Hfull k). }
    assert (H60 : timeLeft s = 60) by (by apply HI).
    rewrite (step_Fulfilled p s k c Hk) in Hstep. injection Hstep as <-.
    rewrite startCamera_fulfilled_idle by done.
    rewrite commit_same_facing by done. simpl. rewrite Hr. simpl.
    by rewrite timerEffect_running by (simpl; lia).
  - pose proof (busy_in_turn s k c Hturn Hk Hbusy) as Hb.
    destruct (fulfilled_while_busy s k c Hk Hb)
      as (_ & _ & x & Hx & _ & _ & _ & Ht & _ & _ & _ & _ & _ & _ & _ & Htr).
    rewrite Hx in Hstep. by injection Hstep as <-.
Qed.

(** One step of an execution without overlapping acquisitions calls
    [stopRecording] once if it is a click on Stop, once if it brings the
    countdown to zero, and not otherwise. *)
Lemma step_stops_in_turn s e s' :
  reachableInTurn p s -> step p s e = Some s' ->
  (timesCalled isStopRecording (trace s')
   + (if (timeLeft s =? 0)%Z then 1 else 0)
   = timesCalled isStopRecording (trace s) + occurrences isStopClick [e]
     + (if (timeLeft s' =? 0)%Z then 1 else 0))%nat.
Proof.
  intros Hturn Hstep.
  pose proof (reachableInTurn_reachable s Hturn) as Hs.
  assert (Hquiet : forall t, trace s' = trace s ++ t ->
            timesCalled isStopRecording t = 0%nat ->
            timeLeft s' = timeLeft s -> isStopClick e = false ->
            (timesCalled isStopRecording (trace s')
             + (if (timeLeft s =? 0)%Z then 1 else 0)
             = timesCalled isStopRecording (trace s)
               + occurrences isStopClick [e]
               + (if (timeLeft s' =? 0)%Z then 1 else 0))%nat).
  { intros t -> Ht -> He. rewrite timesCalled_app, Ht.
    unfold occurrences. simpl. rewrite He. simpl. lia. }
  assert (Hother : (forall k, e <> Fulfilled k) -> e <> IntervalFires ->
            e <> ClickStop ->
            exists t, trace s' = trace s ++ t /\
              timesCalled isStopRecording t = 0%nat /\
              timeLeft s' = timeLeft s /\ isStopClick e = false).
  { intros Hf Hi Hc.
    destruct (step_trace p s e s' Hstep) as (t & Htr & Ht).
    exists t. split; [done|].
    destruct (step_timeLeft p s e s' Hstep) as [Htl | (? & _)]; [|done].
    destruct e; simpl in Ht; try done;
      try (exfalso; by apply (Hf k));
      try (by subst t);
      try (subst t; by destruct (onDiscard p));
      by destruct Ht as (u & _ & ->). }
  destruct e;
    try (destruct Hother as (t & Htr & Ht & Htl & He); [done..|];
         by apply (Hquiet t)).
  - destruct (fulfilled_in_turn s k s' Hturn Hstep) as [Htr Htl].
    apply (Hquiet []); [by rewrite app_nil_r | done..].
  - destruct (tick_facts p s Hs) as (Hpos & _ & Hzero & Hone & Hmore).
    assert (Hon : intervalActive s = true).
    { destruct (intervalActive s) eqn:Ha; [done|].
      unfold step in Hstep. simpl in Hstep. by rewrite Ha in Hstep. }
    apply intervalActive_true in Hon as [Hr Ht].
    unfold occurrences. simpl.
    destruct (decide (timeLeft s = 1)) as [H1 | H1].
    + destruct (Hone Hr H1) as (x & Hx & Hx0 & _ & Hcount).
      rewrite Hx in Hstep. injection Hstep as <-.
      rewrite Hcount, Hx0, H1. simpl. lia.
    + destruct (Hmore Hr ltac:(lia)) as (x & Hx & Hxt & Hxtr).
      rewrite Hx in Hstep. injection Hstep as <-.
      rewrite Hxtr, Hxt.
      rewrite (proj2 (Z.eqb_neq (timeLeft s) 0)) by lia.
      rewrite (proj2 (Z.eqb_neq (timeLeft s - 1) 0)) by lia. lia.
  - apply step_ClickStop in Hstep as [_ ->].
    rewrite stopRecording_counted.
    destruct (stopRecording_unchanged s) as (_ & -> & _).
    unfold occurrences. simpl. lia.
Qed.

Lemma run_stops_in_turn s es s' :
  reachableInTurn p s -> runInTurn p s es = Some s' ->
  (timesCalled isStopRecording (trace s')
   + (if (timeLeft s =? 0)%Z then 1 else 0)
   = timesCalled isStopRecording (trace s) + occurrences isStopClick es
     + (if (timeLeft s' =? 0)%Z then 1 else 0))%nat.
Proof.
  revert s. induction es as [|e es IH]; intros s Hturn Hrun.
  - simpl in Hrun. simplify_eq. unfold occurrences. simpl. lia.
  - pose proof Hrun as Hrun'. simpl in Hrun.
    destruct (isFlip e && negb (length (pending s) =? 0)%nat) eqn:Hguard;
      [done|].
    destruct (step p s e) as [x|] eqn:Hx; simplify_eq/=.
    assert (Hturnx : reachableInTurn p x).
    { apply (runInTurn_reachableInTurn p s [e] x Hturn). simpl.
      by rewrite Hguard, Hx. }
    pose proof (step_stops_in_turn s e x Hturn Hx) as H1.
    pose proof (IH x Hturnx Hrun) as H2.
    rewrite (occurrences_cons isStopClick e es). lia.
Qed.

(** When acquisitions do not overlap, [stopRecording] has been called once
    for every click on Stop, and once more exactly when the countdown has
    reached zero. *)
Lemma stopRecording_calls_in_turn es s :
  runInTurn p mount es = Some s ->
  timesCalled isStopRecording (trace s)
  = (occurrences isStopClick es + (if (timeLeft s =? 0)%Z then 1 else 0))%nat.
Proof.
  intros Hrun.
  pose proof (run_stops_in_turn mount es s (reachableInTurn_mount p) Hrun) as H.
  assert (H0 : timesCalled isStopRecording (trace (@mount LocationData))
               = 0%nat) by done.
  assert (H60 : (timeLeft (@mount LocationData) =? 0) = false) by done.
  rewrite H0, H60 in H. lia.
Qed.

(** The tick that brings the countdown to zero while the current recorder
    is recording calls [stop()] on it; the recorder then delivers what it
    holds and its stop event, and the review screen is shown. *)
Lemma expiry_stops_recorder s r m :
  recording s = true -> timeLeft s = 1 ->
  mediaRecorderRef s = Some r -> recorders s !! r = Some m ->
  state m = Recording ->
  exists s', step p s IntervalFires = Some s' /\ timeLeft s' = 0 /\
    trace s' = trace s ++ [StopRecordingCalled; RecorderStop r] /\
    recorders s' !! r = Some (mkRecorder (source m) Stopping) /\
    forall ds : list Fragment, exists s'',
      run p s' (map (DataAvailable r) ds ++ [StopEvent r]) = Some s'' /\
      render s'' = ReviewScreen /\ recording s'' = false /\
      timeLeft s'' = 0.
Proof.
  intros Hr H1 Hm Hk Hst.
  assert (Hon : intervalActive s = true)
    by (apply intervalActive_true; split; [done | lia]).
  assert (Hstop : stopRecording (setTimeLeft (timeLeft s - 1) s) =
            called (RecorderStop r)
              (setRecorderState r Stopping
                 (called StopRecordingCalled (setTimeLeft (timeLeft s - 1) s)))).
  { unfold stopRecording. simpl. by rewrite Hm, Hk, Hst. }
  eexists. split.
  { rewrite (step_tick p s Hon). rewrite H1 at 1. simpl. by rewrite Hstop. }
  simpl. split; [lia|]. split; [by rewrite <- app_assoc|].
  assert (Hk' : alter (fun m => mkRecorder (source m) Stopping) r (recorders s)
                !! r = Some (mkRecorder (source m) Stopping))
    by (by rewrite list_lookup_alter_eq, Hk).
  split; [done|]. intros ds.
  match goal with |- context [run p ?y _] =>
    destruct (stopping_ends y r _ ds Hk' eq_refl)
      as (s'' & Hrun & _ & Hv & Hrec & Ht & _) end.
  exists s''. repeat (split; [done|]). rewrite Ht. simpl. lia.
Qed.

(** ** A facing-mode switch during a recording *)

(** C2, as the component implements it.  A facing-mode switch during a
    recording stops the tracks of the current session and requests a session
    with the opposite facing mode; it cancels nothing and restarts nothing:
    the component is still recording, and the recorder, the clip buffer and
    the remaining time are as before.  When the request succeeds the fresh
    stream becomes the current session; [startRecordingProcess] is not
    entered, so no recorder is started on it and nothing can throw.  The
    recording can still end, before or after that success, because the
    browser ends the recorder whose tracks have been stopped, or because
    Stop is clicked: whatever the recorder delivers on stopping, its stop
    event brings up the review screen with a clip made of the fragments
    buffered before the switch followed by the non-empty fragments delivered
    since, and Confirm-Save hands this clip to the caller with the duration
    counted from the original start. *)
Theorem facing_switch_does_not_cancel_recording s s1 :
  reachable p s -> recording s = true -> step p s ClickFlip = Some s1 ->
  facingMode s1 = opposite (facingMode s) /\
  streamRef s1 = None /\
  (forall i m, streamRef s = Some i -> streams s1 !! i = Some m ->
     live m = false) /\
  pending s1 =
    pending s ++ [mkClosure (opposite (facingMode s)) false true (timeLeft s)] /\
  trace s1 = trace s ++ [GetUserMedia (opposite (facingMode s))] /\
  recording s1 = true /\ timeLeft s1 = timeLeft s /\
  chunksRef s1 = chunksRef s /\ videoUrl s1 = None /\
  mediaRecorderRef s1 = mediaRecorderRef s /\ recorders s1 = recorders s /\
  step p s1 (RecorderUnavailable (length (pending s))) = None /\
  step p s1 (RecorderStartFails (length (pending s))) = None /\
  (exists s2, step p s1 (Fulfilled (length (pending s))) = Some s2 /\
     streamRef s2 = Some (length (streams s1)) /\
     streams s2 = streams s1 ++ [mkStream (opposite (facingMode s)) true true] /\
     recording s2 = true /\ timeLeft s2 = timeLeft s /\
     chunksRef s2 = chunksRef s /\ videoUrl s2 = None /\
     mediaRecorderRef s2 = mediaRecorderRef s /\ recorders s2 = recorders s) /\
  forall r m,
    mediaRecorderRef s = Some r -> recorders s !! r = Some m ->
    state m = Recording ->
    (streamRef s = Some (source m) \/
     exists t, streams s !! source m = Some t /\ live t = false) ->
    forall pre ender (ds : list Fragment),
      pre = [] \/ pre = [Fulfilled (length (pending s))] ->
      ender = TracksEnded r \/ ender = ClickStop ->
      exists s',
        run p s1 (pre ++ ender :: map (DataAvailable r) ds ++ [StopEvent r])
          = Some s' /\
        render s' = ReviewScreen /\ recording s' = false /\
        timeLeft s' = timeLeft s /\
        videoUrl s' =
          Some (createObjectURL
                  (mkBlob (chunksRef s ++ List.filter (fun d => 0 <? size d) ds)
                     "video/webm")) /\
        forall now date,
          trace <$> step p s' (ClickSave now date) =
            Some (trace s' ++
                  [OnSave
                     {| id := "VID-" +:+ pretty now;
                        url := createObjectURL
                                 (mkBlob
                                    (chunksRef s ++
                                     List.filter (fun d => 0 <? size d) ds)
                                    "video/webm");
                        timestamp := toISOString date;
                        duration := 60 - timeLeft s;
                        ev_emergencyType := emergencyType p;
                        ev_location := location p |}]).
Proof.
  intros Hs Hr Hstep.
  destruct (switch_while_recording p s s1 Hs Hr Hstep)
    as (Hf1&Href1&Hdead&Hp1&Htr1&Hr1&Ht1&Hc1&Hu1&Hmr1&Hrs1&_).
  repeat (split; [done|]).
  assert (Hk : pending s1 !! length (pending s)
               = Some (mkClosure (opposite (facingMode s)) false true
                         (timeLeft s)))
    by (rewrite Hp1; by apply list_lookup_middle).
  destruct (fulfilled_while_busy s1 _ _ Hk)
    as (Hno1 & Hno2 & s2 & Hstep2 & Href2 & Hstr2 & Hr2 & Ht2 & Hc2 & Hu2
        & Hm2 & He2 & Hmr2 & Hrs2 & _); [by right|].
  split; [done|]. split; [done|]. split.
  { exists s2. simpl in Hstr2. rewrite Hr2, Ht2, Hc2, Hu2, Hmr2, Hrs2.
    by repeat (split; [done|]). }
  intros r m Hmr Hrm Hst Hcur pre ender ds Hpre Hender.
  pose proof Hstep as [Hv Es1]%step_ClickFlip.
  destruct (reachable_refsValid s Hs) as (Hlive & _).
  assert (Hcam : cameraError s1 = false /\
                 exists t0, streams s1 !! source m = Some t0 /\
                            live t0 = false).
  { assert (Hfields : cameraError s1 = false /\
              streams s1 = match streamRef s with
                           | Some i => alter stopTracks i (streams s)
                           | None => streams s
                           end).
    { rewrite Es1. unfold startCamera, stopCamera, toggleCamera. simpl.
      destruct (streamRef s) eqn:Href; simpl; rewrite ?Href; by simpl. }
    destruct Hfields as [He1 ->]. split; [done|].
    destruct Hcur as [Hcur | (t & Ht & Hdeadt)].
    - destruct (Hlive _ Hcur) as (t0 & Ht0 & _).
      exists (stopTracks t0). rewrite Hcur.
      by rewrite list_lookup_alter_eq, Ht0.
    - destruct (streamRef s) as [i|]; [|by exists t].
      rewrite list_lookup_alter. case_decide as Hi.
      + subst i. rewrite Ht. simpl. by eexists.
      + by exists t. }
  destruct Hcam as [He1 (t0 & Hold1 & Hdead0)].
  assert (Hm1 : reviewMode s1 = false).
  { pose proof (reachable_Inv p s1 (reachable_step p s _ s1 Hs Hstep))
      as [_ Hrev _ _ _ _ _].
    destruct (reviewMode s1); [|done].
    destruct (proj1 Hrev eq_refl) as [u Hu]. congruence. }
  assert (Hends : forall x,
    recorders x = recorders s -> mediaRecorderRef x = mediaRecorderRef s ->
    chunksRef x = chunksRef s -> timeLeft x = timeLeft s ->
    reviewMode x = false -> cameraError x = false ->
    streams x !! source m = Some t0 ->
    exists s',
      run p x (ender :: map (DataAvailable r) ds ++ [StopEvent r]) = Some s' /\
      render s' = ReviewScreen /\ recording s' = false /\
      timeLeft s' = timeLeft s /\
      videoUrl s' =
        Some (createObjectURL
                (mkBlob (chunksRef s ++ List.filter (fun d => 0 <? size d) ds)
                   "video/webm"))).
  { intros x Hrsx Hmrx Hcx Htx Hmx Hex Hox.
    destruct (recording_ends x r m ender ds) as (s' & Hrun & Hu & Hv' & Hr' & Ht');
      [by rewrite Hrsx | done | |].
    - destruct Hender as [-> | ->]; [left | right].
      + split; [done|]. by exists t0.
      + split; [done|]. split; [|congruence].
        unfold render. by rewrite Hmx, Hex.
    - exists s'. rewrite Hcx in Hu. rewrite Htx in Ht'. done. }
  assert (Hfinal : exists s',
    run p s1 (pre ++ ender :: map (DataAvailable r) ds ++ [StopEvent r])
      = Some s' /\
    render s' = ReviewScreen /\ recording s' = false /\
    timeLeft s' = timeLeft s /\
    videoUrl s' =
      Some (createObjectURL
              (mkBlob (chunksRef s ++ List.filter (fun d => 0 <? size d) ds)
                 "video/webm"))).
  { destruct Hpre as [-> | ->].
    - apply Hends; congruence.
    - destruct (Hends s2) as (s' & Hrun & Hrest); try congruence.
      { rewrite Hstr2. by apply lookup_app_l_Some. }
      exists s'. split; [|done]. simpl app. simpl run at 1.
      rewrite Hstep2. done. }
  destruct Hfinal as (s' & Hrun & Hv' & Hr' & Ht' & Hu').
  exists s'. repeat (split; [done|]).
  intros now date.
  destruct (step_ClickSave p s' now date Hv') as (u & Hu & ->).
  simpl. rewrite Hu' in Hu. injection Hu as <-. by rewrite Ht'.
Qed.

End Endings.

(** * Further concrete executions *)

(** C2 fails as stated.  One second into a recording the facing mode is
    switched and the new acquisition succeeds: the component is still
    recording, the duration is still 1, and the only recorder is the one on
    the old session.  Nothing is discarded either: the browser ends that
    recorder, which delivers what it recorded, and Confirm-Save hands the
    caller an artifact that contains this fragment, with duration 1. *)
Lemma facing_switch_counterexample :
  run sample mount (switched ++ [Fulfilled 0%nat])
    = Some (after (switched ++ [Fulfilled 0%nat])) /\
  recording (after (switched ++ [Fulfilled 0%nat])) = true /\
  60 - timeLeft (after (switched ++ [Fulfilled 0%nat])) = 1 /\
  streamRef (after (switched ++ [Fulfilled 0%nat])) = Some 1%nat /\
  recorders (after (switched ++ [Fulfilled 0%nat]))
    = [mkRecorder 0%nat Recording] /\
  run sample mount switchedEnded = Some (after switchedEnded) /\
  render (after switchedEnded) = ReviewScreen /\
  last <$> (trace <$> run sample mount (switchedEnded ++ [ClickSave 90000 90001]))
    = Some (Some (OnSave
        {| id := "VID-90000";
           url := createObjectURL (mkBlob [fragment1] "video/webm");
           timestamp := toISOString 90001;
           duration := 1;
           ev_emergencyType := "fire";
           ev_location := (23022500, 72571400) |})).
Proof. evaluate. Qed.

(** C2, as the component implements it, one second into a recording: after
    the switch the browser ends the recorder, the fragment it delivers on
    stopping makes the clip, and the review screen is shown. *)
Lemma facing_switch_does_not_cancel_recording_witness :
  reachable sample (after oneTick) /\
  recording (after oneTick) = true /\
  step sample (after oneTick) ClickFlip = Some (after switched) /\
  recording (after switched) = true /\
  timeLeft (after switched) = timeLeft (after oneTick) /\
  recorders (after switched) = recorders (after oneTick) /\
  exists s',
    run sample (after switched)
      ([] ++ TracksEnded 0%nat :: map (DataAvailable 0%nat) [fragment1]
          ++ [StopEvent 0%nat]) = Some s' /\
    render s' = ReviewScreen /\
    videoUrl s' =
      Some (createObjectURL
              (mkBlob (chunksRef (after oneTick) ++
                       List.filter (fun d => 0 <? size d) [fragment1])
                 "video/webm")).
Proof.
  assert (Hs : reachable sample (after oneTick))
    by (apply reachable_after; vm_compute; reflexivity).
  assert (Hr : recording (after oneTick) = true) by (vm_compute; reflexivity).
  assert (Hstep : step sample (after oneTick) ClickFlip = Some (after switched))
    by (vm_compute; reflexivity).
  destruct (facing_switch_does_not_cancel_recording sample _ _ Hs Hr Hstep)
    as (_&_&_&_&_&Hr1&Ht1&_&_&_&Hrs1&_&_&_&Hend).
  destruct (Hend 0%nat (mkRecorder 0%nat Recording)
              ltac:(vm_compute; reflexivity) ltac:(vm_compute; reflexivity)
              ltac:(reflexivity) ltac:(left; vm_compute; reflexivity)
              [] (TracksEnded 0%nat) [fragment1]
              ltac:(left; reflexivity) ltac:(left; reflexivity))
    as (s' & Hrun & Hv & _ & _ & Hu & _).
  conjuncts; try assumption. exists s'. conjuncts; assumption.
Defined.

(** C6, as the component implements it, on a run with a facing switch during
    the recording, so that a request which saw the recording is still
    pending when the stop event is handled: the timer is halted all the
    same, also after that request has succeeded. *)
Lemma manual_stop_halts_timer_at_stop_event_witness :
  reachable sample (after switched) /\
  mediaRecorderRef (after switched) = Some 0%nat /\
  recorders (after switched) !! 0%nat = Some (mkRecorder 0%nat Recording) /\
  step sample (after switched) ClickStop
    = Some (after (switched ++ [ClickStop])) /\
  run sample (after (switched ++ [ClickStop])) [IntervalFires]
    = Some (after (switched ++ [ClickStop; IntervalFires])) /\
  step sample (after (switched ++ [ClickStop; IntervalFires])) (StopEvent 0%nat)
    = Some (after (switched ++ [ClickStop; IntervalFires; StopEvent 0%nat])) /\
  Forall busyClosure (pending (after (switched ++ [ClickStop; IntervalFires]))) /\
  run sample (after (switched ++ [ClickStop; IntervalFires; StopEvent 0%nat]))
      [Fulfilled 0%nat]
    = Some (after (switched ++ [ClickStop; IntervalFires; StopEvent 0%nat;
                                Fulfilled 0%nat])) /\
  recording (after (switched ++ [ClickStop; IntervalFires; StopEvent 0%nat;
                                 Fulfilled 0%nat])) = false /\
  timeLeft (after (switched ++ [ClickStop; IntervalFires; StopEvent 0%nat;
                                Fulfilled 0%nat]))
    = timeLeft (after (switched ++ [ClickStop; IntervalFires])) /\
  step sample
    (after (switched ++ [ClickStop; IntervalFires; StopEvent 0%nat;
                         Fulfilled 0%nat]))
    IntervalFires = None.
Proof.
  assert (Hs : reachable sample (after switched))
    by (apply reachable_after; vm_compute; reflexivity).
  assert (Hm : mediaRecorderRef (after switched) = Some 0%nat)
    by (vm_compute; reflexivity).
  assert (Hk : recorders (after switched) !! 0%nat
               = Some (mkRecorder 0%nat Recording))
    by (vm_compute; reflexivity).
  assert (Hclick : step sample (after switched) ClickStop
                   = Some (after (switched ++ [ClickStop])))
    by (vm_compute; reflexivity).
  assert (Hrun1 : run sample (after (switched ++ [ClickStop])) [IntervalFires]
                  = Some (after (switched ++ [ClickStop; IntervalFires])))
    by (vm_compute; reflexivity).
  assert (Hstop : step sample (after (switched ++ [ClickStop; IntervalFires]))
                    (StopEvent 0%nat)
                  = Some (after (switched ++
                                 [ClickStop; IntervalFires; StopEvent 0%nat])))
    by (vm_compute; reflexivity).
  assert (Hbusy : Forall busyClosure
                    (pending (after (switched ++ [ClickStop; IntervalFires])))).
  { vm_compute. constructor; [|constructor]. right. reflexivity. }
  assert (Hrun2 :
    run sample (after (switched ++ [ClickStop; IntervalFires; StopEvent 0%nat]))
      [Fulfilled 0%nat]
    = Some (after (switched ++ [ClickStop; IntervalFires; StopEvent 0%nat;
                                Fulfilled 0%nat])))
    by (vm_compute; reflexivity).
  destruct (manual_stop_halts_timer_at_stop_event sample _ _ _ _
              Hs Hm Hk eq_refl Hclick)
    as (_ & _ & _ & _ & _ & _ & _ & Hlater).
  destruct (Hlater _ _ _ _ _ Hrun1 Hstop Hbusy Hrun2) as (_ & Hr & Ht & Hno & _).
  conjuncts; assumption.
Defined.

(** C8 fails as stated.  With two acquisitions in flight the first success
    starts the recording and the second, one second later, starts a second
    recorder although the component is mid-recording; if the recording has
    been finalized in between, the second success starts a recorder behind
    the review screen.  And a successful acquisition made while nothing is
    recording does not start the recording when [mediaRecorder.start()]
    throws: the error screen is shown with the session held. *)
Lemma acquisition_counterexample :
  run sample mount (overlapped ++ [IntervalFires])
    = Some (after (overlapped ++ [IntervalFires])) /\
  recording (after (overlapped ++ [IntervalFires])) = true /\
  recorders (after (overlapped ++ [IntervalFires]))
    = [mkRecorder 0%nat Recording] /\
  recorders <$> run sample mount (overlapped ++ [IntervalFires; Fulfilled 0%nat])
    = Some [mkRecorder 0%nat Recording; mkRecorder 1%nat Recording] /\
  render (after overlappedStop) = ReviewScreen /\
  recorders (after overlappedStop) = [mkRecorder 0%nat Inactive] /\
  recorders <$> run sample mount (overlappedStop ++ [Fulfilled 0%nat])
    = Some [mkRecorder 0%nat Inactive; mkRecorder 1%nat Recording] /\
  recording (@mount (Z * Z)) = false /\ reviewMode (@mount (Z * Z)) = false /\
  run sample mount [RecorderStartFails 0%nat]
    = Some (after [RecorderStartFails 0%nat]) /\
  streamRef (after [RecorderStartFails 0%nat]) = Some 0%nat /\
  activeSessions (after [RecorderStartFails 0%nat]) = 1%nat /\
  recording (after [RecorderStartFails 0%nat]) = false /\
  render (after [RecorderStartFails 0%nat]) = ErrorScreen.
Proof. evaluate. Qed.

(** C8, as the component implements it: at mount, where nothing is
    recording, the success of the first acquisition starts the recording;
    one second into the recording, after a facing switch, the success of the
    new acquisition starts nothing; and after a facing switch made right
    after mounting, the success of the new acquisition starts the recording
    on the front camera. *)
Lemma acquisition_starts_recording_when_idle_witness :
  reachable sample mount /\
  pending (@mount (Z * Z)) !! 0%nat = Some (mkClosure environment false false 60) /\
  idle (@mount (Z * Z)) /\
  (exists s', step sample mount (Fulfilled 0%nat) = Some s' /\
     recording s' = true /\
     recorders s' =
       recorders (@mount (Z * Z)) ++
       [mkRecorder (length (streams (@mount (Z * Z)))) Recording]) /\
  reachableInTurn sample (after switched) /\
  pending (after switched) !! 0%nat = Some (mkClosure user false true 59) /\
  ~ idle (after switched) /\
  step sample (after switched) (RecorderStartFails 0%nat) = None /\
  (exists s', step sample (after switched) (Fulfilled 0%nat) = Some s' /\
     recording s' = recording (after switched) /\
     recorders s' = recorders (after switched)) /\
  step sample mount ClickFlip = Some (after [ClickFlip]) /\
  exists s2,
    step sample (after [ClickFlip])
      (Fulfilled (length (pending (@mount (Z * Z))))) = Some s2 /\
    recording s2 = true /\
    streams s2 = streams (after [ClickFlip]) ++ [mkStream user true true].
Proof.
  assert (Hidle : idle (@mount (Z * Z))) by (split; reflexivity).
  assert (Hk : pending (@mount (Z * Z)) !! 0%nat
               = Some (mkClosure environment false false 60))
    by (vm_compute; reflexivity).
  assert (Hflip : step sample mount ClickFlip = Some (after [ClickFlip]))
    by (vm_compute; reflexivity).
  destruct (acquisition_starts_recording_when_idle sample mount
              (reachable_mount sample)) as [Hall Hswitch].
  destruct (Hswitch Hidle _ Hflip)
    as (_ & _ & _ & s3 & Hstep3 & Hr3 & _ & Hstr3 & _).
  destruct (Hall _ _ Hk) as [Hstart _].
  destruct (Hstart Hidle)
    as ((s' & Hstep & _ & _ & Hr & _ & _ & _ & _ & Hrs) & _).
  assert (Hturn : reachableInTurn sample (after switched))
    by (apply reachableInTurn_after; vm_compute; reflexivity).
  assert (Hk2 : pending (after switched) !! 0%nat
                = Some (mkClosure user false true 59))
    by (vm_compute; reflexivity).
  assert (Hbusy : ~ idle (after switched))
    by (intros [Hrec _]; vm_compute in Hrec; discriminate).
  destruct (acquisition_starts_recording_when_idle sample (after switched)
              (reachableInTurn_reachable sample _ Hturn)) as [Hall2 _].
  destruct (Hall2 _ _ Hk2) as [_ Hquiet].
  destruct (Hquiet Hbusy) as [Hnothing Hsaw].
  destruct (Hnothing (Hsaw Hturn))
    as (_ & Hno & s2 & Hstep2 & _ & _ & Hr2 & _ & _ & _ & _ & Hrs2).
  split; [apply reachable_mount|]. split; [exact Hk|]. split; [exact Hidle|].
  split; [exists s'; conjuncts; assumption|].
  split; [exact Hturn|]. split; [exact Hk2|]. split; [exact Hbusy|].
  split; [exact Hno|]. split; [exists s2; conjuncts; assumption|].
  split; [exact Hflip|]. exists s3. conjuncts; assumption.
Defined.

